(** * latqcdtools: statistical estimators and the Fitter

    A shallow embedding of
      - [latqcdtools/statistics/statistics.py]: [std_var], [std_dev],
        [jack_mean_and_err], [jackknifeFrom], [tauint], [tauintj], [getTauInt];
      - [latqcdtools/statistics/fitting.py]: the [Fitter] class
        ([__init__], [grad_chisquare], [getDOF], [compute_err],
        [_tryAlgorithm], [try_fit]).

    Numbers.  Python floats are idealised as exact rationals ([Q]): no
    rounding, no overflow.  The special values the source writes out itself
    ([np.nan], [np.inf]) are constructors of [npfloat].  A quotient by zero,
    which numpy answers with [nan] or [inf] and a warning, is the [x / 0] of
    [Q]; the guards of the source keep every divisor but [acov[0]] and
    [acorj[0][ibin]] away from zero.  Python ints are [Z]; [len] is
    [Z.of_nat] of the list length.  Where two computed rationals are
    compared, it is up to [Qeq] ([==]).

    Control.  A Python call either returns, raises an exception, or is
    terminated by the logger's fatal call; this is the three-way type
    [result], threaded through the code with [bind]. *)

From Stdlib Require Import String ZArith QArith Qabs Qfield List Bool Lia.
Import ListNotations.

Local Open Scope Z_scope.
Local Open Scope Q_scope.

(* ================================================================= *)
(** ** Python runtime: exceptions, fatal calls, indexing, ranges *)

(** A Python exception object: its class and message. *)
Inductive exn : Type :=
| Exn (cls : string) (msg : string).

Definition IndexError : exn := Exn "IndexError" "index out of range".
Definition ValueError (msg : string) : exn := Exn "ValueError" msg.

(** Modelled from the spec: [latqcdtools.base.logger] is not part of the
    sources at hand.  Its [TBError] is the fatal call: it terminates the
    operation that issued it, and it is distinct from an exception that
    [except Exception] intercepts.  [Fatal msg] is a [TBError] with message
    [msg]. *)
Inductive result (A : Type) : Type :=
| Ok (a : A)
| Raise (e : exn)
| Fatal (msg : string).

Arguments Ok {A} a.
Arguments Raise {A} e.
Arguments Fatal {A} msg.

Definition bind {A B : Type} (c : result A) (k : A -> result B) : result B :=
  match c with
  | Ok a => k a
  | Raise e => Raise e
  | Fatal m => Fatal m
  end.

Notation "x <- c1 ;; c2" := (bind c1 (fun x => c2))
  (at level 61, c1 at next level, right associativity).

(** A guard [if cond: logger.TBError(msg)]. *)
Definition TBError_if (cond : bool) (msg : string) : result unit :=
  if cond then Fatal msg else Ok tt.

(** Sequential loop [for x in xs: s = body(x, s)]. *)
Fixpoint for_each {X S : Type} (xs : list X) (body : X -> S -> result S) (s : S)
  : result S :=
  match xs with
  | [] => Ok s
  | x :: xs' => s' <- body x s ;; for_each xs' body s'
  end.

(** [range(lo, hi)] and [range(n)] over Python ints. *)
Definition range2 (lo hi : Z) : list Z :=
  map (fun k => (lo + Z.of_nat k)%Z) (seq 0 (Z.to_nat (hi - lo))).

Definition range (n : Z) : list Z := range2 0 n.

(** [len(l)]. *)
Definition len {A : Type} (l : list A) : Z := Z.of_nat (length l).

(** [l[i]]: negative indices count from the end, anything else out of range
    raises [IndexError]. *)
Definition getitem {A : Type} (d : A) (l : list A) (i : Z) : result A :=
  let j := if (i <? 0)%Z then (i + len l)%Z else i in
  if ((0 <=? j) && (j <? len l))%Z then Ok (nth (Z.to_nat j) l d) else Raise IndexError.

(** [l[i] = v] on a list, same index rules. *)
Fixpoint update {A : Type} (l : list A) (n : nat) (v : A) : list A :=
  match l, n with
  | [], _ => []
  | _ :: t, O => v :: t
  | h :: t, S n' => h :: update t n' v
  end.

Definition setitem {A : Type} (l : list A) (i : Z) (v : A) : result (list A) :=
  let j := if (i <? 0)%Z then (i + len l)%Z else i in
  if ((0 <=? j) && (j <? len l))%Z then Ok (update l (Z.to_nat j) v) else Raise IndexError.

(** A float as numpy hands it back where the source produces or tests the
    special values. *)
Inductive npfloat : Type :=
| Num (q : Q)
| NaN
| PosInf.

(** An int used in float arithmetic. *)
Definition of_int (z : Z) : Q := inject_Z z.

(* ================================================================= *)
(** ** statistics.py *)

Module Statistics.

(** [np.sum] and [np.mean] of a 1-D sequence. *)
Definition np_sum (x : list Q) : Q := fold_left Qplus x 0.

Definition np_mean (x : list Q) : Q := np_sum x / of_int (len x).

(** [np.var(data, ddof=ddof)]: the sum of squared deviations from the mean
    over [max(n - ddof, 0)]; numpy returns [nan] (with a RuntimeWarning, no
    exception) when that divisor is zero. *)
Definition np_var (data : list Q) (ddof : Z) : npfloat :=
  let arrmean := np_mean data in
  let ret := np_sum (map (fun d => (d - arrmean) * (d - arrmean)) data) in
  let rcount := Z.max (len data - ddof) 0 in
  if (rcount =? 0)%Z then NaN else Num (ret / of_int rcount).

(** The decorator [reduce_tuple]: it inspects [data[0]]; for a sequence of
    scalars (the input type modelled here) the wrapped function is applied
    to the data as it is.  [data[0]] on an empty sequence raises. *)
Definition reduce_tuple {A : Type} (func : list Q -> A) (data : list Q) : result A :=
  _ <- getitem 0 data 0 ;;
  Ok (func data).

Definition std_mean (data : list Q) : result Q := reduce_tuple np_mean data.

Definition std_var (data : list Q) : result npfloat :=
  reduce_tuple (fun data => np_var data 1) data.

(** [x = np.array(x); ndat = len(x); if ndat<2: TBError;
     xj = 1.0/(ndat-1.0)*(np.sum(x)-x)]. *)
Definition jackknifeFrom (x : list Q) : result (list Q) :=
  let ndat := len x in
  _ <- TBError_if (ndat <? 2)%Z "Need n>1." ;;
  Ok (map (fun xi => 1 / (of_int ndat - 1) * (np_sum x - xi)) x).

(** [x = xhat if xhat is not None else std_mean(ts)]. *)
Definition mean_or_xhat (ts : list Q) (xhat : option Q) : result Q :=
  match xhat with
  | Some v => Ok v
  | None => std_mean ts
  end.

(** The bias correction [if xhat is None: c = c*ndat/(ndat-1.)]. *)
Definition bias_correct (xhat : option Q) (ndat : Z) (c : Q) : Q :=
  match xhat with
  | None => c * of_int ndat / (of_int ndat - 1)
  | Some _ => c
  end.

(** The autocovariance loop of [tauint]: [acov] grows by one entry per lag. *)
Definition tauint_acov (nt : Z) (ts : list Q) (xhat : option Q) (x : Q)
  : result (list Q) :=
  let ndat := len ts in
  for_each (range (nt + 1))
    (fun it acov =>
       let numt := (ndat - it)%Z in
       c_it <- for_each (range numt)
                 (fun i c_it =>
                    a <- getitem 0 ts i ;;
                    b <- getitem 0 ts (i + it) ;;
                    Ok (c_it + (a - x) * (b - x)))
                 0 ;;
       let c_it := c_it / of_int numt in
       let c_it := bias_correct xhat ndat c_it in
       Ok (acov ++ [c_it]))
    [].

(** The second loop of [tauint]: [acint=[1.]], then
    [acint.append(acint[it-1] + 2.*acov[it]/acov[0])]. *)
Definition tauint_acint (nt : Z) (acov : list Q) : result (list Q) :=
  for_each (range2 1 (nt + 1))
    (fun it acint =>
       prev <- getitem 0 acint (it - 1) ;;
       a_it <- getitem 0 acov it ;;
       a_0 <- getitem 0 acov 0 ;;
       Ok (acint ++ [prev + 2 * a_it / a_0]))
    [1].

Definition tauint (nt : Z) (ts : list Q) (xhat : option Q) : result (list Q) :=
  let ndat := len ts in
  _ <- TBError_if (ndat <? 2)%Z "Need ndat>1." ;;
  _ <- TBError_if (nt >=? ndat)%Z "Need nt>ndat." ;;
  x <- mean_or_xhat ts xhat ;;
  acov <- tauint_acov nt ts xhat x ;;
  tauint_acint nt acov.

(** One bin of [tauintj]: the loop over [i] in [range(i1,i2+1)] accumulating
    into [acor[ibin]], the division by [binsize] and the bias correction,
    all in place on the list [acor]. *)
Definition tauintj_bin (ts : list Q) (xhat : option Q) (x : Q) (it binsize : Z)
  (ibin : Z) (acor : list Q) : result (list Q) :=
  let ndat := len ts in
  let i1 := (ibin * binsize)%Z in
  let i2 := ((ibin + 1) * binsize - 1)%Z in
  acor <- for_each (range2 i1 (i2 + 1))
            (fun i acor =>
               cur <- getitem 0 acor ibin ;;
               a <- getitem 0 ts i ;;
               b <- getitem 0 ts (i + it) ;;
               setitem acor ibin (cur + (a - x) * (b - x)))
            acor ;;
  cur <- getitem 0 acor ibin ;;
  acor <- setitem acor ibin (cur / of_int binsize) ;;
  match xhat with
  | None =>
      cur <- getitem 0 acor ibin ;;
      setitem acor ibin (cur * of_int ndat / (of_int ndat - 1))
  | Some _ => Ok acor
  end.

(** The body of the loop over [it] in [tauintj]; [int(numt/nbins)] truncates
    towards zero. *)
Definition tauintj_lag (nbins : Z) (ts : list Q) (xhat : option Q) (x : Q)
  (it : Z) (acorj : list (list Q)) : result (list (list Q)) :=
  let ndat := len ts in
  let numt := (ndat - it)%Z in
  let binsize := Z.quot numt nbins in
  let acor := repeat 0 (Z.to_nat nbins) in
  let itmax := (nbins * binsize - binsize)%Z in
  _ <- TBError_if (it >=? itmax)%Z "it>=itmax." ;;
  acor <- for_each (range nbins) (tauintj_bin ts xhat x it binsize) acor ;;
  xj <- jackknifeFrom acor ;;
  Ok (acorj ++ [xj]).

(** The last loop of [tauintj]: [acintj=[[1.]*nbins]], then one row per lag,
    [acintj[it-1][ibin] + 2.*acorj[it][ibin]/acorj[0][ibin]]. *)
Definition tauintj_acintj (nt nbins : Z) (acorj : list (list Q))
  : result (list (list Q)) :=
  for_each (range2 1 (nt + 1))
    (fun it acintj =>
       tauintbins <- for_each (range nbins)
                       (fun ibin tauintbins =>
                          prow <- getitem [] acintj (it - 1) ;;
                          prev <- getitem 0 prow ibin ;;
                          row <- getitem [] acorj it ;;
                          a_it <- getitem 0 row ibin ;;
                          row0 <- getitem [] acorj 0 ;;
                          a_0 <- getitem 0 row0 ibin ;;
                          Ok (tauintbins ++ [prev + 2 * a_it / a_0]))
                       [] ;;
       Ok (acintj ++ [tauintbins]))
    [repeat 1 (Z.to_nat nbins)].

Definition tauintj (nt nbins : Z) (ts : list Q) (xhat : option Q)
  : result (list (list Q)) :=
  let ndat := len ts in
  _ <- TBError_if (ndat <? 2)%Z "Need ndat>1." ;;
  _ <- TBError_if (nbins <? 2)%Z "Need nbins>1." ;;
  x <- mean_or_xhat ts xhat ;;
  acorj <- for_each (range (nt + 1)) (tauintj_lag nbins ts xhat x) [] ;;
  tauintj_acintj nt nbins acorj.

Section Sqrt.

(** [np.sqrt], a parameter of the development: the rationals are not closed
    under square roots. *)
Variable np_sqrt : Q -> Q.

(** [np.std(data, ddof=1)] is the square root of [np.var(data, ddof=1)]. *)
Definition np_std (data : list Q) (ddof : Z) : npfloat :=
  match np_var data ddof with
  | Num v => Num (np_sqrt v)
  | NaN => NaN
  | PosInf => PosInf
  end.

Definition std_dev (data : list Q) : result npfloat :=
  reduce_tuple (fun data => np_std data 1) data.

(** [jack_mean_and_err]: [n = len(data); mean = np.mean(data);
    err = np.sqrt((n-1)*np.mean((data-mean)**2))]. *)
Definition jack_mean_and_err (data : list Q) : Q * Q :=
  let n := len data in
  let mean := np_mean data in
  let err := np_sqrt ((of_int n - 1) * np_mean (map (fun d => (d - mean) ^ 2) data)) in
  (mean, err).

(** One line of the diagnostic file [acor.d]: lag, estimate, jackknife error,
    bias. *)
Record acline : Type := mk_acline {
  ac_it : Z;
  ac_int : Q;
  ac_err : Q;
  ac_bias : Q
}.

(** The local variables of the scan in [getTauInt], and the lines written to
    the output file so far. *)
Record scan : Type := mk_scan {
  lmonoton : bool;
  tau_int : Q;
  tau_inte : Q;
  tau_intbias : Q;
  itpick : Z;
  acoutfile : list acline
}.

(** [acint[it] < tau_int] on floats. *)
Definition Qltb (a b : Q) : bool := negb (Qle_bool b a).

(** The body of [for it in range(tpickMax+1)]. *)
Definition getTauInt_step (nbins : Z) (acint : list Q) (acintj : list (list Q))
  (it : Z) (s : scan) : result scan :=
  row <- getitem [] acintj it ;;
  let '(acm, ace) := jack_mean_and_err row in
  a <- getitem 0 acint it ;;
  let acbias := (of_int nbins - 1) * Qabs (a - acm) in
  let out := acoutfile s ++ [mk_acline it a ace acbias] in
  if lmonoton s then
    if negb (Qltb a (tau_int s)) then
      Ok (mk_scan true a ace acbias it out)
    else
      Ok (mk_scan false (tau_int s) (tau_inte s) (tau_intbias s) (itpick s) out)
  else
    Ok (mk_scan (lmonoton s) (tau_int s) (tau_inte s) (tau_intbias s) (itpick s) out).

(** [getTauInt(ts, nbins, tpickMax)]; the returned tuple is
    [(tau_int, tau_inte, tau_intbias, itpick)] of the final [scan]. *)
Definition getTauInt (ts : list Q) (nbins tpickMax : Z) : result scan :=
  acint <- tauint tpickMax ts None ;;
  acintj <- tauintj tpickMax nbins ts None ;;
  for_each (range (tpickMax + 1)) (getTauInt_step nbins acint acintj)
    (mk_scan true 0 (-1) (-1) (-1) []).

End Sqrt.

End Statistics.

(* ================================================================= *)
(** ** Reference formulas

    Closed forms the loops of the source are compared with. *)

Module Reference.
Import Statistics.

(** The sequence without its [i]-th entry. *)
Definition leave_one_out (x : list Q) (i : nat) : list Q :=
  firstn i x ++ skipn (S i) x.

(** The unbiased (Bessel-corrected) sample variance: squared deviations from
    the sample mean, summed, over [n - 1]. *)
Definition bessel_var (data : list Q) : Q :=
  np_sum (map (fun d => (d - np_mean data) ^ 2) data) / (of_int (len data) - 1).

(** The sum of the products [(ts[i]-x)*(ts[i+it]-x)] over [lo <= i < hi]. *)
Definition pair_sum (ts : list Q) (x : Q) (it lo hi : Z) : Q :=
  fold_left
    (fun c i => c + (nth (Z.to_nat i) ts 0 - x) * (nth (Z.to_nat (i + it)) ts 0 - x))
    (range2 lo hi) 0.

(** The biased autocovariance at lag [it] about [x]: the mean of the
    [ndat - it] products at that separation. *)
Definition raw_autocov (ts : list Q) (x : Q) (it : Z) : Q :=
  pair_sum ts x it 0 (len ts - it) / of_int (len ts - it).

(** The autocovariance [tauint] works with: about the supplied true mean as
    it is, about the sample mean with the factor [ndat/(ndat-1)]. *)
Definition autocov (ts : list Q) (xhat : option Q) (it : Z) : Q :=
  match xhat with
  | Some v => raw_autocov ts v it
  | None => raw_autocov ts (np_mean ts) it * of_int (len ts) / (of_int (len ts) - 1)
  end.

(** The common size of the [nbins] blocks the [ndat - it] usable pairs are
    cut into. *)
Definition block_size (ndat nbins it : Z) : Z := Z.quot (ndat - it) nbins.

(** Reading of "the last usable block is empty": the blocks have no
    element. *)
Definition last_block_empty (ndat nbins it : Z) : Prop :=
  (block_size ndat nbins it <= 0)%Z.

(** The test [tauintj] makes: the lag has reached the first index of the
    last block, [(nbins-1)*binsize]. *)
Definition lag_reaches_last_block (ndat nbins it : Z) : Prop :=
  ((nbins - 1) * block_size ndat nbins it <= it)%Z.

(** The autocovariance estimate of block [ibin] at lag [it]. *)
Definition block_autocov (ts : list Q) (xhat : option Q) (nbins it ibin : Z) : Q :=
  let bs := block_size (len ts) nbins it in
  match xhat with
  | Some v => pair_sum ts v it (ibin * bs) ((ibin + 1) * bs) / of_int bs
  | None =>
      pair_sum ts (np_mean ts) it (ibin * bs) ((ibin + 1) * bs) / of_int bs
      * of_int (len ts) / (of_int (len ts) - 1)
  end.

(** The leave-one-out means of a list, as [jackknifeFrom] forms them. *)
Definition jackknife_row (acor : list Q) : list Q :=
  map (fun xi => 1 / (of_int (len acor) - 1) * (np_sum acor - xi)) acor.

(** The jackknifed block autocovariances at lag [it]. *)
Definition acorj_row (ts : list Q) (xhat : option Q) (nbins it : Z) : list Q :=
  jackknife_row (map (block_autocov ts xhat nbins it) (range nbins)).

(** One step of the integrated-autocorrelation recurrence on jackknife rows:
    [prev[ibin] + 2*acorj[it][ibin]/acorj[0][ibin]] for every bin. *)
Definition acintj_next (ts : list Q) (xhat : option Q) (nbins it : Z) (prev : list Q)
  : list Q :=
  map (fun ibin =>
         nth (Z.to_nat ibin) prev 0
         + 2 * nth (Z.to_nat ibin) (acorj_row ts xhat nbins it) 0
             / nth (Z.to_nat ibin) (acorj_row ts xhat nbins 0) 0)
      (range nbins).

(** What the scan has established once the lags [0 .. k-1] have been
    visited. *)
Definition scanned (np_sqrt : Q -> Q) (nbins : Z) (acint : list Q)
  (acintj : list (list Q)) (k : Z) (s : scan) : Prop :=
  len (acoutfile s) = k /\
  ((k = 0%Z /\ lmonoton s = true /\ tau_int s = 0 /\ itpick s = (-1)%Z) \/
   ((0 <= itpick s < k)%Z /\
    tau_int s = nth (Z.to_nat (itpick s)) acint 0 /\
    tau_inte s = snd (jack_mean_and_err np_sqrt (nth (Z.to_nat (itpick s)) acintj [])) /\
    tau_intbias s
    = (of_int nbins - 1)
      * Qabs (nth (Z.to_nat (itpick s)) acint 0
              - np_mean (nth (Z.to_nat (itpick s)) acintj [])) /\
    (forall t, (1 <= t <= itpick s)%Z ->
       nth (Z.to_nat (t - 1)) acint 0 <= nth (Z.to_nat t) acint 0) /\
    (lmonoton s = true -> itpick s = (k - 1)%Z) /\
    (lmonoton s = false ->
       (itpick s + 1 < k)%Z /\
       nth (Z.to_nat (itpick s + 1)) acint 0 < nth (Z.to_nat (itpick s)) acint 0))).


(** The derivative of the prior term [sum_i ((p_i - m_i)/s_i)^2] of the
    chi-square with respect to parameter [i]. *)
Definition prior_gradient (params priorval priorsigma : list Q) (i : nat) : Q :=
  2 * (nth i params 0 - nth i priorval 0) / nth i priorsigma 0 ^ 2.

End Reference.

(* ================================================================= *)
(** ** fitting.py *)

Module Fitting.
Import Statistics.

(** *** numpy arrays *)

(** A 2-D array, as the list of its rows. *)
Definition matrix : Type := list (list Q).

Definition shape_error : exn :=
  ValueError "operands could not be broadcast together".

Fixpoint zip_with (f : Q -> Q -> Q) (a b : list Q) : list Q :=
  match a, b with
  | x :: a', y :: b' => f x y :: zip_with f a' b'
  | _, _ => []
  end.

(** [a op b] on 1-D arrays: elementwise on equal lengths, an array of
    length one is stretched, any other pair of lengths raises. *)
Definition broadcast2 (f : Q -> Q -> Q) (a b : list Q) : result (list Q) :=
  if (length a =? length b)%nat then Ok (zip_with f a b)
  else if (length b =? 1)%nat then Ok (map (fun x => f x (hd 0 b)) a)
  else if (length a =? 1)%nat then Ok (map (fun y => f (hd 0 a) y) b)
  else Raise shape_error.

(** [a op= b]: as [broadcast2], but the result has to fit into [a]. *)
Definition inplace2 (f : Q -> Q -> Q) (a b : list Q) : result (list Q) :=
  if (length a =? length b)%nat then Ok (zip_with f a b)
  else if (length b =? 1)%nat then Ok (map (fun x => f x (hd 0 b)) a)
  else Raise shape_error.

(** [v.dot(w)] and [m.dot(v)]; the lengths have to agree. *)
Definition dot (v w : list Q) : result Q :=
  if (length v =? length w)%nat then Ok (np_sum (zip_with Qmult v w))
  else Raise (ValueError "shapes not aligned").

Fixpoint mat_vec (m : matrix) (v : list Q) : result (list Q) :=
  match m with
  | [] => Ok []
  | row :: m' =>
      x <- dot row v ;;
      xs <- mat_vec m' v ;;
      Ok (x :: xs)
  end.

(** [m /= sigma] on the rows of a 2-D array. *)
Fixpoint rows_div (m : matrix) (sigma : list Q) : result matrix :=
  match m with
  | [] => Ok []
  | row :: m' =>
      r <- inplace2 Qdiv row sigma ;;
      rs <- rows_div m' sigma ;;
      Ok (r :: rs)
  end.

(** [m.transpose()] of a rectangular array. *)
Definition transpose (m : matrix) : matrix :=
  match m with
  | [] => []
  | r :: _ => map (fun j => map (fun row => nth j row 0) m) (seq 0 (length r))
  end.

(** [np.diag] of a 1-D array (the diagonal matrix) and of a 2-D array (its
    diagonal). *)
Definition np_diag (v : list Q) : matrix :=
  map (fun i => map (fun j => if (i =? j)%nat then nth i v 0 else 0)
                    (seq 0 (length v)))
      (seq 0 (length v)).

Definition diagonal (m : matrix) : list Q :=
  map (fun i => nth i (nth i m []) 0) (seq 0 (length m)).

(** [np.ones(n)], [np.zeros(n)]: a negative length raises. *)
Definition np_full (v : Q) (n : Z) : result (list Q) :=
  if (n <? 0)%Z then Raise (ValueError "negative dimensions are not allowed")
  else Ok (repeat v (Z.to_nat n)).

Definition np_ones : Z -> result (list Q) := np_full 1.
Definition np_zeros : Z -> result (list Q) := np_full 0.

(** A parameter covariance matrix: an array of numbers, or
    [np.full((n,n), v)] for [v] one of [np.nan], [np.inf]. *)
Inductive pcov_t : Type :=
| Mat (m : matrix)
| Full (v : npfloat) (n : Z).

(** *** The Fitter object *)

(** [edata]: per-point errors (1-D) or a covariance matrix (2-D).
    Modelled from the spec: [isHigherDimensional] of
    [latqcdtools.base.utilities] is not part of the sources at hand; the two
    shapes it tells apart are the two constructors. *)
Inductive edata_t : Type :=
| Errors (e : list Q)
| Covariance (c : matrix).

(** The fit function applied to [self._xdata] and a parameter vector, with
    [self._args] and the [expand] convention
    ([funcExpand(self._func, self._xdata, params, self._args, self._expand)]);
    likewise its gradient and Hessian with respect to the parameters. *)
Definition fitfunc : Type := list Q -> result (list Q).
Definition gradfunc : Type := list Q -> result matrix.
Definition hessfunc : Type := list Q -> result (list matrix).

(** Which wrapper [self.grad] / [self.hess] points to. *)
Inductive deriv (T : Type) : Type :=
| deriv_None
| deriv_num
| deriv_wrap (user : T).

Arguments deriv_None {T}.
Arguments deriv_num {T}.
Arguments deriv_wrap {T} user.

Record Fitter : Type := mk_Fitter {
  _func : fitfunc;
  _func_signature : Z;          (* len(signature(self._func).parameters) *)
  _args_len : Z;                (* len(self._args) *)
  grad : deriv gradfunc;
  hess : deriv hessfunc;
  _ydata : list Q;
  _use_diff : bool;
  _derive_chisq : bool;
  _expand : bool;
  _norm_err_chi2 : bool;
  _errorAlg : string;
  _eig_threshold : Q;
  _numb_params : Z;
  _saved_params : list Q;
  _saved_pcov : pcov_t;
  _priorval : list Q;
  _priorsigma : list Q;
  _checkprior : bool;
  _cov_avail : bool;
  _cov : matrix;
  _cor : matrix;
  _fit_cor : matrix;
  _fit_inv_cor : matrix
}.

(** Attribute assignments [self.x = v]. *)
Definition set_numb_params (F : Fitter) (n : Z) : Fitter :=
  mk_Fitter (_func F) (_func_signature F) (_args_len F) (grad F) (hess F) (_ydata F)
    (_use_diff F) (_derive_chisq F) (_expand F) (_norm_err_chi2 F) (_errorAlg F)
    (_eig_threshold F) n (_saved_params F) (_saved_pcov F)
    (_priorval F) (_priorsigma F) (_checkprior F)
    (_cov_avail F) (_cov F) (_cor F) (_fit_cor F) (_fit_inv_cor F).

Definition set_saved (F : Fitter) (params : list Q) (pcov : pcov_t) : Fitter :=
  mk_Fitter (_func F) (_func_signature F) (_args_len F) (grad F) (hess F) (_ydata F)
    (_use_diff F) (_derive_chisq F) (_expand F) (_norm_err_chi2 F) (_errorAlg F)
    (_eig_threshold F) (_numb_params F) params pcov
    (_priorval F) (_priorsigma F) (_checkprior F)
    (_cov_avail F) (_cov F) (_cor F) (_fit_cor F) (_fit_inv_cor F).

Definition set_saved_params (F : Fitter) (params : list Q) : Fitter :=
  set_saved F params (_saved_pcov F).

Definition set_prior (F : Fitter) (priorval priorsigma : list Q) (checkprior : bool)
  : Fitter :=
  mk_Fitter (_func F) (_func_signature F) (_args_len F) (grad F) (hess F) (_ydata F)
    (_use_diff F) (_derive_chisq F) (_expand F) (_norm_err_chi2 F) (_errorAlg F)
    (_eig_threshold F) (_numb_params F) (_saved_params F) (_saved_pcov F)
    priorval priorsigma checkprior
    (_cov_avail F) (_cov F) (_cor F) (_fit_cor F) (_fit_inv_cor F).

Definition set_derivs (F : Fitter) (g : deriv gradfunc) (h : deriv hessfunc)
  (derive_chisq : bool) : Fitter :=
  mk_Fitter (_func F) (_func_signature F) (_args_len F) g h (_ydata F)
    (_use_diff F) derive_chisq (_expand F) (_norm_err_chi2 F) (_errorAlg F)
    (_eig_threshold F) (_numb_params F) (_saved_params F) (_saved_pcov F)
    (_priorval F) (_priorsigma F) (_checkprior F)
    (_cov_avail F) (_cov F) (_cor F) (_fit_cor F) (_fit_inv_cor F).

Definition set_cov (F : Fitter) (avail : bool) (cov cor fit_cor fit_inv_cor : matrix)
  : Fitter :=
  mk_Fitter (_func F) (_func_signature F) (_args_len F) (grad F) (hess F) (_ydata F)
    (_use_diff F) (_derive_chisq F) (_expand F) (_norm_err_chi2 F) (_errorAlg F)
    (_eig_threshold F) (_numb_params F) (_saved_params F) (_saved_pcov F)
    (_priorval F) (_priorsigma F) (_checkprior F)
    avail cov cor fit_cor fit_inv_cor.

(** The collaborators of the Fitter that are not part of the sources at hand
    or live in numpy and scipy.  Only their outcome matters to the Fitter:
    each either returns or raises. *)
Record Env : Type := mk_Env {
  (** [np.sqrt]. *)
  sqrt : Q -> Q;
  (** [inv(cut_eig(cor, threshold))]: [cut_eig] and [scipy.linalg.inv]. *)
  inv_cut_eig : matrix -> Q -> matrix * result matrix;
  (** The numerical derivatives [diff_fit_grad], [diff_fit_hess]. *)
  diff_fit_grad : fitfunc -> gradfunc;
  diff_fit_hess : fitfunc -> hessfunc;
  (** [chisquare(xdata, ydata, cov, func, args, params, prior, prior_err)]. *)
  chisquare : Fitter -> option (list Q * list Q) -> list Q -> result Q;
  (** [logGBF(...)]. *)
  logGBF_ext : Fitter -> list Q -> result Q;
  (** [curve_fit] for the algorithm ["curve_fit"], [minimize] for the others,
      from the start parameters; an entry [None] of the output is one that
      is [nan] or infinite. *)
  solver : Fitter -> string -> list Q -> result (list (option Q));
  (** The two covariance strategies [pcov_error_prop] and [pcov_hessian]
      (matrix inversions and the checks on their result). *)
  pcov_error_prop : Fitter -> list Q -> string -> result matrix;
  pcov_hessian : Fitter -> list Q -> string -> result matrix
}.

Section WithEnv.

Variable E : Env.

(** [norm_cov]: [res[i][j] = cov[i][j] / np.sqrt(cov[j][j] * cov[i][i])]. *)
Definition norm_cov (cov : matrix) : matrix :=
  map (fun i =>
         map (fun j =>
                nth j (nth i cov []) 0
                / sqrt E (nth j (nth j cov []) 0 * nth i (nth i cov []) 0))
             (seq 0 (length (nth 0 cov []))))
      (seq 0 (length cov)).

(** [_get_numb_params]: from the signature in expand mode; otherwise by
    trying parameter vectors [[1]], [[1,1]], ... of up to [ntries] entries. *)
Definition ntries : nat := 1000.

Definition _get_numb_params (F : Fitter) : result Z :=
  if _expand F then Ok (_func_signature F - 1 - _args_len F)%Z
  else
    match find (fun i => match _func F (repeat 1 i) with
                         | Ok _ => true
                         | _ => false
                         end)
               (seq 1 ntries) with
    | Some i => Ok (Z.of_nat i)
    | None => Fatal "Fit function does not work with up to 1000 parameters. Enable DEBUG level for more details."
    end.

(** [check_start_params]: on an exception of the fit function new default
    start parameters are generated and the exception is raised again.  The
    test for [nan] or [inf] among the start parameters never fires on
    rationals. *)
Definition check_start_params (F : Fitter) : result Fitter :=
  match _func F (_saved_params F) with
  | Ok _ => Ok F
  | Raise e =>
      n <- _get_numb_params F ;;
      _ <- np_ones n ;;
      Raise e
  | Fatal m => Fatal m
  end.

(** [set_func(func, grad, hess)] as [__init__] calls it. *)
Definition set_func (F : Fitter) (g : option gradfunc) (h : option hessfunc)
  : result Fitter :=
  let '(h', dc) :=
    match h with
    | None =>
        if _use_diff F && negb (_derive_chisq F) then (deriv_num, _derive_chisq F)
        else (deriv_None, true)
    | Some u => (deriv_wrap u, _derive_chisq F)
    end in
  let '(g', dc) :=
    match g with
    | None =>
        if _use_diff F && negb dc then (deriv_num, dc)
        else (deriv_None, true)
    | Some u => (deriv_wrap u, dc)
    end in
  check_start_params (set_derivs F g' h' dc).

(** The keyword arguments of the constructor, with their defaults. *)
Record kwargs : Type := mk_kwargs {
  kw_grad : option gradfunc;
  kw_hess : option hessfunc;
  kw_args_len : Z;
  kw_expand : bool;
  kw_use_diff : bool;
  kw_derive_chisq : bool;
  kw_norm_err_chi2 : bool;
  kw_error_strat : string;
  kw_eig_threshold : Q
}.

Definition default_kwargs : kwargs :=
  mk_kwargs None None 0 true true false false "propagation" (1 # 1000000000000000000).

(** [Fitter.__init__(func, xdata, ydata, edata, **kwargs)]; the data
    [xdata] is part of [func]. *)
Definition __init__ (func : fitfunc) (func_signature : Z) (ydata : list Q)
  (edata : option edata_t) (kw : kwargs) : result Fitter :=
  let F := mk_Fitter func func_signature (kw_args_len kw) deriv_None deriv_None ydata
             (kw_use_diff kw) (kw_derive_chisq kw) (kw_expand kw)
             (kw_norm_err_chi2 kw) (kw_error_strat kw) (kw_eig_threshold kw)
             0 [] (Full PosInf 0) [] [] false false [] [] [] [] in
  n <- _get_numb_params F ;;
  let F := set_numb_params F n in
  ones <- np_ones n ;;
  let F := set_saved F ones (Full PosInf n) in
  F <- set_func F (kw_grad kw) (kw_hess kw) ;;
  ones <- np_ones (_numb_params F) ;;
  let F := set_prior F ones ones false in
  let '(avail, cov) :=
    match edata with
    | Some (Covariance c) => (true, c)
    | Some (Errors e) => (false, np_diag (map (fun x => x ^ 2) e))
    | None => (false, np_diag (repeat 1 (length ydata)))
    end in
  let cor := norm_cov cov in
  let '(fit_cor, inv_cor) := inv_cut_eig E cor (_eig_threshold F) in
  fit_inv_cor <- inv_cor ;;
  Ok (set_cov F avail cov cor fit_cor fit_inv_cor).

(** [self.grad(self._xdata, params)]; calling [None] raises. *)
Definition call_grad (F : Fitter) (params : list Q) : result matrix :=
  match grad F with
  | deriv_wrap u => u params
  | deriv_num => diff_fit_grad E (_func F) params
  | deriv_None => Raise (Exn "TypeError" "'NoneType' object is not callable")
  end.

(** [fit_ansatz_array] and [jacobian_fit_ansatz_array]; the caches they fill
    are not read by the methods modelled here. *)
Definition fit_ansatz_array (F : Fitter) (params : list Q) : result (list Q) :=
  _func F params.

Definition jacobian_fit_ansatz_array (F : Fitter) (params : list Q) : result matrix :=
  g <- call_grad F params ;;
  Ok (transpose g).

(** [grad_chisquare]. *)
Definition grad_chisquare (F : Fitter) (params : list Q) : result (list Q) :=
  j <- jacobian_fit_ansatz_array F params ;;
  let jac := transpose j in
  f <- fit_ansatz_array F params ;;
  diff <- broadcast2 Qminus f (_ydata F) ;;
  let sigma := map (sqrt E) (diagonal (_cov F)) in
  jac <- rows_div jac sigma ;;
  diff <- inplace2 Qdiv diff sigma ;;
  w <- mat_vec (_fit_inv_cor F) diff ;;
  v <- mat_vec jac w ;;
  let res := map (fun x => 2 * x) v in
  if _checkprior F then
    d <- broadcast2 Qminus params (_priorval F) ;;
    t <- broadcast2 Qdiv (map (fun x => 2 * x) d) (map (fun s => s ^ 2) (_priorsigma F)) ;;
    Ok (map (fun r => r + np_sum t) res)
  else Ok res.

(** [getDOF]. *)
Definition getDOF (F : Fitter) (params : list Q) : result Z :=
  let dof := if _checkprior F then len (_ydata F)
             else (len (_ydata F) - len params)%Z in
  _ <- TBError_if (dof <? 0)%Z "Fewer data than fit parameters!" ;;
  Ok dof.

(** [pcov *= s] and [np.sqrt(np.diag(pcov))]; [nan] stays [nan]. *)
Definition pcov_scale (pcov : pcov_t) (s : Q) : pcov_t :=
  match pcov with
  | Mat m => Mat (map (map (fun x => x * s)) m)
  | Full (Num q) n => Full (Num (q * s)) n
  | Full v n => Full v n
  end.

Definition pcov_errors (pcov : pcov_t) : list npfloat :=
  match pcov with
  | Mat m => map (fun x => Num (sqrt E x)) (diagonal m)
  | Full (Num q) n => repeat (Num (sqrt E q)) (Z.to_nat n)
  | Full v n => repeat v (Z.to_nat n)
  end.

(** [compute_err(params, chi2, algorithm)]; the attribute [self._pcov] it
    sets is not read anywhere in the class. *)
Definition compute_err (F : Fitter) (params : list Q) (chi2 : Q) (algorithm : string)
  : result (pcov_t * list npfloat) :=
  dof <- getDOF F params ;;
  pcov <- (if (dof <=? 0)%Z then Ok (Full NaN (len params))
           else if String.eqb (_errorAlg F) "propagation" then
                  m <- pcov_error_prop E F params algorithm ;; Ok (Mat m)
           else if String.eqb (_errorAlg F) "hessian" then
                  m <- pcov_hessian E F params algorithm ;; Ok (Mat m)
           else Fatal "Unknown fitting algorithm") ;;
  let pcov := if _norm_err_chi2 F then pcov_scale pcov (chi2 / of_int dof) else pcov in
  let fit_errors := pcov_errors pcov in
  Ok (pcov, fit_errors).

(** [calc_chisquare]. *)
Definition calc_chisquare (F : Fitter) (params : list Q) : result Q :=
  chisquare E F
    (if _checkprior F then Some (_priorval F, _priorsigma F) else None) params.

(** [if any(np.isnan(params)) or any(np.isinf(params)): raise ValueError];
    an entry [None] of the solver's output is one that is [nan] or
    infinite. *)
Fixpoint finite_params (algorithm : string) (params : list (option Q))
  : result (list Q) :=
  match params with
  | [] => Ok []
  | Some q :: ps => qs <- finite_params algorithm ps ;; Ok (q :: qs)
  | None :: _ => Raise (ValueError (algorithm ++ ": Fit result is inf or nan!"))
  end.

(** [minimize_chi2(start_params, algorithm)]; the choice of [jac_func] and
    [hess_func] and the evaluation budget are the solver's business. *)
Definition minimize_chi2 (F : Fitter) (start_params : list Q) (algorithm : string)
  : result (list Q * Q) :=
  _ <- (if String.eqb algorithm "curve_fit" then
          TBError_if (_checkprior F)
            "The curve_fit algorithm is not yet able to handle priors."
        else Ok tt) ;;
  params <- solver E F algorithm start_params ;;
  params <- finite_params algorithm params ;;
  chi2 <- calc_chisquare F params ;;
  Ok (params, chi2).

(** What a successful attempt hands back:
    [params, fit_errors, chi2, pcov]. *)
Record fit : Type := mk_fit {
  fit_params : list Q;
  fit_errors : list npfloat;
  fit_chi2 : Q;
  fit_pcov : pcov_t
}.

(** [_general_fit]: it starts from [self._saved_params], whatever
    [start_params] it is passed. *)
Definition _general_fit (F : Fitter) (algorithm : string) : result fit :=
  pc <- minimize_chi2 F (_saved_params F) algorithm ;;
  let '(params, chi2) := pc in
  pe <- compute_err F params chi2 algorithm ;;
  let '(pcov, fit_errors) := pe in
  Ok (mk_fit params fit_errors chi2 pcov).

(** The logger calls kept track of: [logger.details("Trying", algorithm,
    "...")] and [logger.TBFail(algorithm+"--", exception)]. *)
Inductive event : Type :=
| Trying (algorithm : string)
| TBFail (what : string) (why : option exn).

(** The 5-tuple [_tryAlgorithm] returns:
    [params, fit_errors, chi2, pcov, None] or
    [None, None, np.inf, None, e]. *)
Record row : Type := mk_row {
  row_params : option (list Q);
  row_fit_errors : option (list npfloat);
  row_chi2 : npfloat;
  row_pcov : option pcov_t;
  row_except : option exn
}.

(** [_tryAlgorithm]: [except Exception] intercepts what the attempt raises;
    a fatal call is not an exception. *)
Definition _tryAlgorithm (F : Fitter) (algorithm : string) : list event * result row :=
  ([Trying algorithm],
   match _general_fit F algorithm with
   | Ok f =>
       Ok (mk_row (Some (fit_params f)) (Some (fit_errors f)) (Num (fit_chi2 f))
             (Some (fit_pcov f)) None)
   | Raise e => Ok (mk_row None None PosInf None (Some e))
   | Fatal m => Fatal m
   end).

(** Modelled from the spec: [parallel_function_eval] of
    [latqcdtools.base.speedify] is not part of the sources at hand.  It
    evaluates the function on every element and hands back the results in
    the order of the elements; the attempts share no state, so one after the
    other is one of its schedules. *)
Fixpoint parallel_function_eval {X Y : Type} (f : X -> list event * result Y)
  (xs : list X) : list event * result (list Y) :=
  match xs with
  | [] => ([], Ok [])
  | x :: xs' =>
      match f x with
      | (ev, Ok y) =>
          let '(ev', r) := parallel_function_eval f xs' in
          (ev ++ ev', ys <- r ;; Ok (y :: ys))
      | (ev, Raise e) => (ev, Raise e)
      | (ev, Fatal m) => (ev, Fatal m)
      end
  end.

Definition _all_algs : list string :=
  ["curve_fit"; "L-BFGS-B"; "TNC"; "Powell"; "Nelder-Mead"; "COBYLA"; "SLSQP"; "CG";
   "dogleg"; "trust-ncg"]%string.

Definition _std_algs : list string :=
  ["curve_fit"; "TNC"; "Powell"; "Nelder-Mead"; "COBYLA"]%string.

(** The argument [algorithms] of [try_fit]: [None], ['all'] or a list. *)
Inductive algorithms_arg : Type :=
| algs_None
| algs_all
| algs_list (l : list string).

Definition algorithms_of (a : algorithms_arg) : list string :=
  match a with
  | algs_None => _std_algs
  | algs_all => _all_algs
  | algs_list l => l
  end.

(** [x == np.inf] and [a < b] on floats; comparisons with [nan] are false. *)
Definition is_inf (x : npfloat) : bool :=
  match x with
  | PosInf => true
  | _ => false
  end.

Definition np_lt (a b : npfloat) : bool :=
  match a, b with
  | Num x, Num y => Qltb x y
  | Num _, PosInf => true
  | _, _ => false
  end.

Definition is_nan (x : npfloat) : bool :=
  match x with
  | NaN => true
  | _ => false
  end.

(** [np.argmin]: the first index holding the least value; a [nan], once
    met, is kept. *)
Fixpoint argmin_from (l : list npfloat) (i : nat) (best : nat) (bestv : npfloat) : nat :=
  match l with
  | [] => best
  | x :: l' =>
      if negb (is_nan bestv) && (is_nan x || np_lt x bestv)
      then argmin_from l' (S i) i x
      else argmin_from l' (S i) best bestv
  end.

Definition argmin (l : list npfloat) : nat :=
  match l with
  | [] => 0%nat
  | x :: l' => argmin_from l' 1 0 x
  end.

(** What [try_fit] returns: [params, fit_errors, chi2/dof] and, with
    [detailedInfo], [logGBF] and [pcov]. *)
Record fit_result : Type := mk_fit_result {
  res_params : list Q;
  res_errors : list npfloat;
  res_chidof : npfloat;
  res_logGBF : option Q;
  res_pcov : option pcov_t
}.

(** The first part of [try_fit]: start parameters, their check, the prior
    values and their consistency.  [envector] leaves a list as it is. *)
Definition try_fit_setup (F : Fitter) (start_params priorval priorsigma : option (list Q))
  : result Fitter :=
  let start_params :=
    match priorval, start_params with
    | Some pv, None => Some pv
    | _, _ => start_params
    end in
  let F := match start_params with
           | Some sp => set_saved_params F sp
           | None => F
           end in
  F <- check_start_params F ;;
  let F := set_numb_params F (len (_saved_params F)) in
  F <- match priorsigma with
       | Some ps =>
           match priorval with
           | None => Fatal "priorsigma passed but priorval is None"
           | Some pv => Ok (set_prior F pv ps true)
           end
       | None =>
           match priorval with
           | Some _ => Fatal "priorval passed but priorsigma is None"
           | None =>
               z <- np_zeros (_numb_params F) ;;
               o <- np_ones (_numb_params F) ;;
               Ok (set_prior F z o false)
           end
       end ;;
  _ <- (if _checkprior F then
          _ <- TBError_if (negb (len (_priorsigma F) =? _numb_params F)%Z)
                 "Number priorsigma != number of fit parameters" ;;
          TBError_if (negb (len (_priorval F) =? _numb_params F)%Z)
            "Number priorval != number of fit parameters"
        else Ok tt) ;;
  Ok F.

(** What follows the selection: the results are stored, the degrees of
    freedom computed, the tuple built. *)
Definition try_fit_return (F : Fitter) (best : row) (detailedInfo : bool)
  : result (Fitter * fit_result) :=
  match row_params best, row_fit_errors best, row_chi2 best, row_pcov best with
  | Some params, Some errors, Num chi2, Some pcov =>
      let F := set_saved F params pcov in
      dof <- getDOF F (_saved_params F) ;;
      let chidof := if (dof <=? 0)%Z then PosInf else Num (chi2 / of_int dof) in
      if detailedInfo then
        g <- logGBF_ext E F (_saved_params F) ;;
        Ok (F, mk_fit_result params errors chidof (Some g) (Some pcov))
      else
        Ok (F, mk_fit_result params errors chidof None None)
  | _, _, _, _ => Raise (Exn "TypeError" "object of type 'NoneType' has no len()")
  end.

(** The second part of [try_fit]: the attempts, the test for total failure,
    the choice of the least chi-square. *)
Definition try_fit_search (F : Fitter) (algorithms : list string) (detailedInfo : bool)
  : list event * result (Fitter * fit_result) :=
  match parallel_function_eval (_tryAlgorithm F) algorithms with
  | (ev, Raise e) => (ev, Raise e)
  | (ev, Fatal m) => (ev, Fatal m)
  | (ev, Ok resultSummary) =>
      let all_chi2 := map row_chi2 resultSummary in
      let all_except := map row_except resultSummary in
      if forallb is_inf all_chi2 then
        (ev ++ map (fun ae => TBFail (fst ae ++ "--") (snd ae))
                   (combine algorithms all_except),
         Fatal "No algorithm converged.See above list of exceptions.")
      else
        let min_ind := argmin all_chi2 in
        match nth_error resultSummary min_ind with
        | Some best => (ev, try_fit_return F best detailedInfo)
        | None => (ev, Raise IndexError)
        end
  end.

(** [try_fit(algorithms, start_params, priorval, priorsigma, detailedInfo)]:
    the logger calls made and the outcome. *)
Definition try_fit (F : Fitter) (algorithms : algorithms_arg)
  (start_params priorval priorsigma : option (list Q)) (detailedInfo : bool)
  : list event * result (Fitter * fit_result) :=
  match try_fit_setup F start_params priorval priorsigma with
  | Ok F' => try_fit_search F' (algorithms_of algorithms) detailedInfo
  | Raise e => ([], Raise e)
  | Fatal m => ([], Fatal m)
  end.

(** [do_fit]: [try_fit] with the one algorithm. *)
Definition do_fit (F : Fitter) (algorithm : string)
  (start_params priorval priorsigma : option (list Q)) (detailedInfo : bool)
  : list event * result (Fitter * fit_result) :=
  try_fit F (algs_list [algorithm]) start_params priorval priorsigma detailedInfo.

End WithEnv.

End Fitting.

(* ================================================================= *)
(** ** statistics.py: weighted estimators and correlation matrices *)

Module Weighted.
Import Statistics Fitting.

(** [weighted_mean]: [np.sum(data.dot(weights))/np.sum(weights)]; the dot
    product raises on arrays of different lengths. *)
Definition weighted_mean (data weights : list Q) : result Q :=
  d <- dot data weights ;;
  Ok (d / np_sum weights).

(** [weighted_mean_variance(errors, weights=None)]: the weights default to
    [1/errors**2]. *)
Definition weighted_mean_variance (errors : list Q) (weights : option (list Q))
  : result Q :=
  let weights := match weights with
                 | Some w => w
                 | None => map (fun e => 1 / e ^ 2) errors
                 end in
  p <- broadcast2 Qmult (map (fun w => w ^ 2) weights) (map (fun e => e ^ 2) errors) ;;
  Ok (np_sum p / np_sum weights ^ 2).

(** [biased_sample_variance]: [weights.dot((data - mean)**2) / V1] about the
    weighted mean. *)
Definition biased_sample_variance (data weights : list Q) : result Q :=
  mean <- weighted_mean data weights ;;
  let V1 := np_sum weights in
  d <- dot weights (map (fun x => (x - mean) ^ 2) data) ;;
  Ok (d / V1).

(** [unbiased_sample_variance]: [biased / (1 - (V2 / V1**2))]. *)
Definition unbiased_sample_variance (data weights : list Q) : result Q :=
  let V1 := np_sum weights in
  let V2 := np_sum (map (fun w => w ^ 2) weights) in
  b <- biased_sample_variance data weights ;;
  Ok (b / (1 - V2 / V1 ^ 2)).

(** [unbiased_mean_variance]: [biased * V2 / (V1**2 - V2)]. *)
Definition unbiased_mean_variance (data weights : list Q) : result Q :=
  let V1 := np_sum weights in
  let V2 := np_sum (map (fun w => w ^ 2) weights) in
  b <- biased_sample_variance data weights ;;
  Ok (b * V2 / (V1 ^ 2 - V2)).

(** [rem_norm_corr(corr, edata)] of the older [statistics.py]:
    [res[i][j] = corr[i][j] * edata[i]*edata[j]], the way back from a
    correlation matrix to the covariance matrix.  As for [norm_cov], the
    indices stay in range for a square matrix and one error per row. *)
Definition rem_norm_corr (corr : matrix) (edata : list Q) : matrix :=
  map (fun i =>
         map (fun j => nth j (nth i corr []) 0 * nth i edata 0 * nth j edata 0)
             (seq 0 (length (nth 0 corr []))))
      (seq 0 (length corr)).

(** [np.min] of a 1-D array; it raises on an empty one. *)
Definition np_min (l : list Q) : result Q :=
  match l with
  | [] => Raise (ValueError "zero-size array to reduction operation minimum which has no identity")
  | x :: l' => Ok (fold_left (fun m y => if Qltb y m then y else m) l' x)
  end.

(** [pcov_hessian]: [pcov = inv(self.hess_chisquare(params))], and a
    [ValueError] if [np.min(np.diag(pcov)) < 0].  The Hessian of the
    chi-square and [scipy.linalg.inv] are taken as they come. *)
Definition pcov_hessian (inv : matrix -> result matrix) (hess_chisquare : result matrix)
  (algorithm : string) : result matrix :=
  h <- hess_chisquare ;;
  pcov <- inv h ;;
  m <- np_min (diagonal pcov) ;;
  if Qltb m 0 then Raise (ValueError (algorithm ++ ": Negative entries for the variance!"))
  else Ok pcov.

End Weighted.

(* ================================================================= *)
(** ** Reference formulas for the Fitter *)

Module FitReference.

(** The start parameters [try_fit] checks: the ones passed, else the prior
    values, else the ones saved in the Fitter. *)
Definition effective_start (F : Fitting.Fitter) (start_params priorval : option (list Q))
  : list Q :=
  match start_params, priorval with
  | Some sp, _ => sp
  | None, Some pv => pv
  | None, None => Fitting._saved_params F
  end.




End FitReference.

(* ================================================================= *)
(** ** Two small fit problems

    Concrete collaborators and Fitters the statements are evaluated on. *)

Module Examples.
Import Statistics Fitting.

(** The line through the origin [f(x; a) = a*x] sampled at [x = 1, 2, 3];
    any other number of parameters is a [TypeError] of the call. *)
Definition line : fitfunc :=
  fun params =>
    match params with
    | [a] => Ok (map (fun x => a * x) [1; 2; 3])
    | _ => Raise (Exn "TypeError" "line() takes 2 positional arguments")
    end.

(** [f(x; a, b) = a*x + b] sampled at [x = 1, 2], and its gradient
    [[x, 1]]. *)
Definition affine : fitfunc :=
  fun params =>
    match params with
    | [a; b] => Ok (map (fun x => a * x + b) [1; 2])
    | _ => Raise (Exn "TypeError" "affine() takes 3 positional arguments")
    end.

Definition affine_grad : gradfunc :=
  fun params =>
    match params with
    | [a; b] => Ok [[1; 2]; [1; 1]]
    | _ => Raise (Exn "TypeError" "affine_grad() takes 3 positional arguments")
    end.

(** Chi-square for uncorrelated unit errors: the sum of squared residuals,
    plus [((p - prior)/sigma)^2] for each prior. *)
Definition unit_chisquare (F : Fitter) (prior : option (list Q * list Q))
  (params : list Q) : result Q :=
  f <- _func F params ;;
  d <- broadcast2 Qminus f (_ydata F) ;;
  let chi2 := np_sum (map (fun r => r ^ 2) d) in
  match prior with
  | None => Ok chi2
  | Some (pv, ps) =>
      dp <- broadcast2 Qminus params pv ;;
      r <- broadcast2 Qdiv dp ps ;;
      Ok (chi2 + np_sum (map (fun x => x ^ 2) r))
  end.

(** Solvers with a fixed behaviour: three return a parameter, one returns
    [nan], the others do not converge. *)
Definition toy_solver (F : Fitter) (algorithm : string) (start : list Q)
  : result (list (option Q)) :=
  if String.eqb algorithm "curve_fit" then Ok [Some 2]
  else if String.eqb algorithm "TNC" then Ok [Some (21 # 10)]
  else if String.eqb algorithm "Powell" then Ok [Some (19 # 10)]
  else if String.eqb algorithm "COBYLA" then Ok [None]
  else Raise (Exn "RuntimeError" "did not converge").

(** Collaborators for data with unit errors: [sqrt] is only ever applied to
    0 and 1, the correlation matrix is the identity and its own inverse. *)
Definition toy_env : Env :=
  mk_Env (fun q => q)
         (fun cor threshold => (cor, Ok cor))
         (fun f params => Raise (Exn "NotImplementedError" "diff_fit_grad"))
         (fun f params => Raise (Exn "NotImplementedError" "diff_fit_hess"))
         unit_chisquare
         (fun F params => Ok 0)
         toy_solver
         (fun F params algorithm => Ok [[1 # 14]])
         (fun F params algorithm => Ok [[1 # 14]]).

Definition eye2 : matrix := [[1; 0]; [0; 1]].
Definition eye3 : matrix := [[1; 0; 0]; [0; 1; 0]; [0; 0; 1]].

(** The Fitter [Fitter(line, [1,2,3], [2,4,6])]. *)
Definition line_fitter : Fitter :=
  mk_Fitter line 2 0 deriv_num deriv_num [2; 4; 6]
    true false true false "propagation" (1 # 1000000000000000000)
    1 [1] (Full PosInf 1) [1] [1] false
    false eye3 eye3 eye3 eye3.

(** The same Fitter once [try_fit] without priors has set it up. *)
Definition line_fitter_ready : Fitter :=
  set_prior (set_numb_params line_fitter 1) [0] [1] false.

(** The Fitter [Fitter(affine, [1,2], [1,2], grad=affine_grad)], as it is,
    and with the priors [0 +- 1] on both parameters in place. *)
Definition affine_fitter : Fitter :=
  mk_Fitter affine 3 0 (deriv_wrap affine_grad) deriv_num [1; 2]
    true false true false "propagation" (1 # 1000000000000000000)
    2 [1; 1] (Full PosInf 2) [1; 1] [1; 1] false
    false eye2 eye2 eye2 eye2.

Definition affine_fitter_priors : Fitter :=
  set_prior affine_fitter [0; 0] [1; 1] true.

End Examples.

(* ================================================================= *)
(** ** A square root for the examples *)

Module RootExamples.
Import Statistics Fitting.

(** The square root of a rational whose numerator and denominator are
    perfect squares (the integer square roots of both, otherwise). *)
Definition exact_sqrt (q : Q) : Q := Z.sqrt (Qnum q) # Pos.sqrt (Qden q).

(** The collaborators of the examples, with that square root. *)
Definition root_env : Env :=
  mk_Env exact_sqrt
         (inv_cut_eig Examples.toy_env)
         (diff_fit_grad Examples.toy_env)
         (diff_fit_hess Examples.toy_env)
         (chisquare Examples.toy_env)
         (logGBF_ext Examples.toy_env)
         (solver Examples.toy_env)
         (pcov_error_prop Examples.toy_env)
         (Fitting.pcov_hessian Examples.toy_env).

(** A covariance matrix with variances 4 and 9 and covariance 2. *)
Definition cov49 : matrix := [[4; 2]; [2; 9]].

End RootExamples.

(* ================================================================= *)
(** ** Further examples for the Fitter *)

Module FitterExamples.
Import Statistics Fitting.

(** The Fitter [Fitter(affine, [1,2], [1,2], expand=False)] before the
    number of parameters is known. *)
Definition affine_packed : Fitter :=
  mk_Fitter Examples.affine 2 0 deriv_None deriv_None [1; 2]
    true false false false "propagation" (1 # 1000000000000000000)
    0 [] (Full PosInf 0) [] [] false
    false [] [] [] [].


(** The gradient [[x]] of the line through the origin, and the Fitter
    [Fitter(line, [1,2,3], [2,4,6], grad=line_grad)]. *)
Definition line_grad : gradfunc :=
  fun params =>
    match params with
    | [a] => Ok [[1; 2; 3]]
    | _ => Raise (Exn "TypeError" "line_grad() takes 2 positional arguments")
    end.

Definition line_fitter_grad : Fitter :=
  set_derivs Examples.line_fitter (deriv_wrap line_grad) deriv_num false.

End FitterExamples.

(* ================================================================= *)
(** * Part II: properties *)

(** ** The [result] monad and loops *)

Lemma bind_Ok_inv {A B : Type} (c : result A) (k : A -> result B) (b : B) :
  bind c k = Ok b -> exists a, c = Ok a /\ k a = Ok b.
Proof.
  destruct c as [a|e|m]; simpl; intros H; try discriminate.
  exists a; split; [reflexivity | exact H].
Qed.

Lemma for_each_app {X S : Type} (xs ys : list X) (body : X -> S -> result S) (s : S) :
  for_each (xs ++ ys) body s = (s' <- for_each xs body s ;; for_each ys body s').
Proof.
  revert s; induction xs as [|x xs IH]; intros s; simpl.
  - reflexivity.
  - destruct (body x s) as [s1|e|m]; simpl; auto.
Qed.

(** The loop rule: an invariant over the part of the sequence already
    consumed, kept by every iteration, holds at the end; every iteration
    returns. *)
Lemma for_each_invariant {X S : Type} (I : list X -> S -> Prop)
  (body : X -> S -> result S) (xs : list X) (s0 : S) :
  I [] s0 ->
  (forall pre x post s, xs = pre ++ x :: post -> I pre s ->
     exists s', body x s = Ok s' /\ I (pre ++ [x]) s') ->
  exists s', for_each xs body s0 = Ok s' /\ I xs s'.
Proof.
  revert I s0; induction xs as [|x xs IH]; intros I s0 H0 Hstep.
  - exists s0; split; [reflexivity | exact H0].
  - destruct (Hstep [] x xs s0 eq_refl H0) as [s1 [Hb H1]].
    destruct (IH (fun pre s => I (x :: pre) s) s1 H1) as [s' [Hf Hs']].
    + intros pre y post s Heq Hpre.
      apply (Hstep (x :: pre) y post s); [simpl; now rewrite Heq | exact Hpre].
    + exists s'; split; [simpl; rewrite Hb; exact Hf | exact Hs'].
Qed.

(** ** Ranges *)

Lemma range2_length (lo hi : Z) : length (range2 lo hi) = Z.to_nat (hi - lo).
Proof. unfold range2; now rewrite length_map, length_seq. Qed.

Lemma range2_nil (lo hi : Z) : (hi <= lo)%Z -> range2 lo hi = [].
Proof.
  intros H; unfold range2.
  replace (Z.to_nat (hi - lo)) with 0%nat by lia; reflexivity.
Qed.

Lemma range2_snoc (lo hi : Z) :
  (lo <= hi)%Z -> range2 lo (hi + 1) = range2 lo hi ++ [hi].
Proof.
  intros H; unfold range2.
  replace (Z.to_nat (hi + 1 - lo)) with (Z.to_nat (hi - lo) + 1)%nat by lia.
  rewrite seq_app, map_app; simpl.
  do 2 f_equal; lia.
Qed.

Lemma range2_In (lo hi x : Z) : In x (range2 lo hi) <-> (lo <= x < hi)%Z.
Proof.
  unfold range2; rewrite in_map_iff; split.
  - intros [k [Hk Hin]]; apply in_seq in Hin; lia.
  - intros H; exists (Z.to_nat (x - lo)); split; [lia | apply in_seq; lia].
Qed.

Lemma firstn_seq_min (n a m : nat) : firstn n (seq a m) = seq a (Nat.min n m).
Proof.
  revert a m; induction n as [|n IH]; intros a [|m]; simpl; auto.
  now rewrite IH.
Qed.

Lemma range2_nth (lo hi d : Z) (k : nat) :
  (k < Z.to_nat (hi - lo))%nat -> nth k (range2 lo hi) d = (lo + Z.of_nat k)%Z.
Proof.
  intros H; unfold range2.
  set (f := fun k : nat => (lo + Z.of_nat k)%Z).
  rewrite (nth_indep _ d (f 0%nat)) by (rewrite length_map, length_seq; exact H).
  rewrite (map_nth f), seq_nth by exact H.
  reflexivity.
Qed.

(** A prefix of a range is a range: the consumed part of a loop over
    [range2 lo hi] is [range2 lo x] when the current element is [x]. *)
Lemma range2_split (lo hi : Z) (pre post : list Z) (x : Z) :
  range2 lo hi = pre ++ x :: post ->
  pre = range2 lo x /\ (lo <= x < hi)%Z.
Proof.
  intros H.
  assert (Hx : (lo <= x < hi)%Z).
  { apply range2_In; rewrite H; apply in_or_app; right; left; reflexivity. }
  split; [| exact Hx].
  assert (Hl : (length pre < Z.to_nat (hi - lo))%nat).
  { rewrite <- range2_length, H, length_app; simpl; lia. }
  assert (Hlen : length pre = Z.to_nat (x - lo)).
  { assert (Hn : nth (length pre) (range2 lo hi) 0%Z = x).
    { rewrite H, app_nth2, Nat.sub_diag by lia; reflexivity. }
    rewrite range2_nth in Hn by exact Hl. lia. }
  assert (Hf : firstn (length pre) (range2 lo hi) = pre).
  { rewrite H, firstn_app, Nat.sub_diag, firstn_all; simpl; apply app_nil_r. }
  rewrite <- Hf, Hlen; unfold range2.
  rewrite firstn_map, firstn_seq_min.
  f_equal; f_equal; lia.
Qed.

(** ** Indexing *)

Lemma len_nonneg {A : Type} (l : list A) : (0 <= len l)%Z.
Proof. unfold len; lia. Qed.

Lemma len_app {A : Type} (l1 l2 : list A) : len (l1 ++ l2) = (len l1 + len l2)%Z.
Proof. unfold len; rewrite length_app; lia. Qed.

Lemma getitem_ok {A : Type} (d : A) (l : list A) (i : Z) :
  (0 <= i < len l)%Z -> getitem d l i = Ok (nth (Z.to_nat i) l d).
Proof.
  intros H; unfold getitem.
  destruct (Z.ltb_spec i 0); [lia |].
  destruct (Z.leb_spec 0 i); [| lia].
  destruct (Z.ltb_spec i (len l)); [| lia].
  reflexivity.
Qed.

Lemma setitem_ok {A : Type} (l : list A) (i : Z) (v : A) :
  (0 <= i < len l)%Z -> setitem l i v = Ok (update l (Z.to_nat i) v).
Proof.
  intros H; unfold setitem.
  destruct (Z.ltb_spec i 0); [lia |].
  destruct (Z.leb_spec 0 i); [| lia].
  destruct (Z.ltb_spec i (len l)); [| lia].
  reflexivity.
Qed.

Lemma update_length {A : Type} (l : list A) (n : nat) (v : A) :
  length (update l n v) = length l.
Proof.
  revert n; induction l as [|h t IH]; intros [|n]; simpl; auto.
Qed.

Lemma update_nth_same {A : Type} (l : list A) (n : nat) (v d : A) :
  (n < length l)%nat -> nth n (update l n v) d = v.
Proof.
  revert n; induction l as [|h t IH]; intros [|n] H; simpl in *; try lia; auto.
  apply IH; lia.
Qed.

Lemma update_nth_other {A : Type} (l : list A) (n m : nat) (v d : A) :
  n <> m -> nth m (update l n v) d = nth m l d.
Proof.
  revert n m; induction l as [|h t IH]; intros [|n] [|m] H; simpl; auto; try lia.
Qed.

Lemma nth_snoc_last {A : Type} (l : list A) (x d : A) :
  nth (length l) (l ++ [x]) d = x.
Proof. rewrite app_nth2, Nat.sub_diag by lia; reflexivity. Qed.

Lemma nth_snoc_before {A : Type} (l : list A) (x d : A) (n : nat) :
  (n < length l)%nat -> nth n (l ++ [x]) d = nth n l d.
Proof. intros H; now rewrite app_nth1. Qed.

(** ** Sums and means of rationals *)

Import Statistics Reference.

Lemma fold_left_Qplus_acc (l : list Q) (a : Q) :
  fold_left Qplus l a == a + np_sum l.
Proof.
  unfold np_sum; revert a; induction l as [|x l IH]; intros a; cbn [fold_left].
  - ring.
  - rewrite IH, (IH (0 + x)). ring.
Qed.

Lemma np_sum_cons (x : Q) (l : list Q) : np_sum (x :: l) == x + np_sum l.
Proof. unfold np_sum at 1; cbn [fold_left]; rewrite fold_left_Qplus_acc; ring. Qed.

Lemma np_sum_app (l1 l2 : list Q) : np_sum (l1 ++ l2) == np_sum l1 + np_sum l2.
Proof.
  induction l1 as [|x l1 IH]; cbn [app].
  - unfold np_sum at 2; cbn [fold_left]; ring.
  - rewrite !np_sum_cons, IH; ring.
Qed.

Lemma np_sum_repeat (c : Q) (n : nat) :
  np_sum (repeat c n) == of_int (Z.of_nat n) * c.
Proof.
  induction n as [|n IH].
  - cbn [repeat]; unfold np_sum, of_int; cbn [fold_left Z.of_nat inject_Z]; ring.
  - cbn [repeat]; rewrite np_sum_cons, IH.
    unfold of_int; rewrite Nat2Z.inj_succ, <- Z.add_1_r, inject_Z_plus; simpl; ring.
Qed.

Lemma of_int_pred (z : Z) : of_int z - 1 == of_int (z - 1).
Proof.
  unfold of_int, Z.sub; rewrite inject_Z_plus; reflexivity.
Qed.

Lemma of_int_nonzero (z : Z) : z <> 0%Z -> ~ of_int z == 0.
Proof.
  intros H E; apply H.
  apply (proj1 (inject_Z_injective z 0)); exact E.
Qed.

Lemma leave_one_out_length (x : list Q) (i : nat) :
  (i < length x)%nat -> length (leave_one_out x i) = (length x - 1)%nat.
Proof.
  intros H; unfold leave_one_out.
  rewrite length_app, length_firstn, length_skipn; lia.
Qed.

Lemma np_sum_leave_one_out (x : list Q) (i : nat) :
  (i < length x)%nat -> np_sum (leave_one_out x i) == np_sum x - nth i x 0.
Proof.
  revert i; induction x as [|h t IH]; intros i H; simpl in H; [lia |].
  destruct i as [|i]; unfold leave_one_out; cbn [firstn skipn app nth].
  - rewrite np_sum_cons; ring.
  - change (firstn i t ++ skipn (S i) t) with (leave_one_out t i).
    rewrite !np_sum_cons, (IH i) by lia; ring.
Qed.

Lemma jackknife_entry (x : list Q) (xi : Q) :
  (2 <= len x)%Z ->
  1 / (of_int (len x) - 1) * (np_sum x - xi) == (np_sum x - xi) / (of_int (len x) - 1).
Proof.
  intros H. field.
  rewrite of_int_pred; apply of_int_nonzero; lia.
Qed.

(** ** jackknifeFrom *)

(** C9.  For a list [x] of length [n >= 2], [jackknifeFrom x] returns a list
    of the same length whose entry [i] is [(sum x - x[i]) / (n - 1)], which
    is the mean of [x] without its [i]-th entry; on a constant sequence every
    entry is that constant; for [n < 2] the fatal call is issued. *)
Theorem jackknifeFrom_leave_one_out (x : list Q) :
  ((length x < 2)%nat -> jackknifeFrom x = Fatal "Need n>1.") /\
  ((2 <= length x)%nat ->
     exists xj, jackknifeFrom x = Ok xj /\ length xj = length x /\
       forall i, (i < length x)%nat ->
         nth i xj 0 == (np_sum x - nth i x 0) / (of_int (len x) - 1) /\
         nth i xj 0 == np_mean (leave_one_out x i)) /\
  (forall (c : Q) (n : nat), x = repeat c n -> (2 <= n)%nat ->
     exists xj, jackknifeFrom x = Ok xj /\ length xj = n /\
       forall i, (i < n)%nat -> nth i xj 0 == c).
Proof.
  assert (Hsmall : (length x < 2)%nat -> jackknifeFrom x = Fatal "Need n>1.").
  { intros H; unfold jackknifeFrom, TBError_if.
    destruct (Z.ltb_spec (len x) 2) as [_|Hge]; [reflexivity | unfold len in Hge; lia]. }
  assert (Hbig : (2 <= length x)%nat ->
     exists xj, jackknifeFrom x = Ok xj /\ length xj = length x /\
       forall i, (i < length x)%nat ->
         nth i xj 0 == (np_sum x - nth i x 0) / (of_int (len x) - 1) /\
         nth i xj 0 == np_mean (leave_one_out x i)).
  { intros H.
    assert (Hlen : (2 <= len x)%Z) by (unfold len; lia).
    unfold jackknifeFrom, TBError_if.
    destruct (Z.ltb_spec (len x) 2) as [Hlt|_]; [lia |]; cbn [bind].
    eexists; split; [reflexivity |]; split; [apply length_map |].
    intros i Hi.
    set (f := fun xi : Q => 1 / (of_int (len x) - 1) * (np_sum x - xi)).
    rewrite (nth_indep _ 0 (f 0)) by (rewrite length_map; exact Hi).
    rewrite (map_nth f); unfold f.
    rewrite jackknife_entry by exact Hlen.
    split; [reflexivity |].
    unfold np_mean.
    rewrite np_sum_leave_one_out by exact Hi.
    unfold len at 2; rewrite leave_one_out_length by exact Hi.
    replace (Z.of_nat (length x - 1)) with (len x - 1)%Z by (unfold len; lia).
    rewrite <- of_int_pred; reflexivity. }
  repeat split; [exact Hsmall | exact Hbig |].
  intros c n Hx Hn.
  assert (Hl : length x = n) by (subst x; apply repeat_length).
  destruct Hbig as [xj [Hj [Hlj Hent]]]; [lia |].
  exists xj; repeat split; [exact Hj | lia |].
  intros i Hi.
  destruct (Hent i) as [He _]; [lia |].
  rewrite He.
  assert (Hnth : nth i x 0 = c).
  { subst x; apply nth_repeat_lt; exact Hi. }
  rewrite Hnth.
  assert (Hs : np_sum x == of_int (len x) * c).
  { unfold len; rewrite Hl; subst x; apply np_sum_repeat. }
  rewrite Hs. field.
  rewrite of_int_pred; apply of_int_nonzero; unfold len; lia.
Qed.

(** The statement applied to the three-point sample [1, 2, 3]. *)
Lemma jackknifeFrom_leave_one_out_witness :
  jackknifeFrom [7] = Fatal "Need n>1." /\
  (exists xj, jackknifeFrom [1; 2; 3] = Ok xj /\ length xj = 3%nat /\
     forall i, (i < 3)%nat ->
       nth i xj 0 == (np_sum [1; 2; 3] - nth i [1; 2; 3] 0) / (of_int 3 - 1) /\
       nth i xj 0 == np_mean (leave_one_out [1; 2; 3] i)) /\
  (exists xj, jackknifeFrom [5; 5; 5; 5] = Ok xj /\ length xj = 4%nat /\
     forall i, (i < 4)%nat -> nth i xj 0 == 5).
Proof.
  split; [| split].
  - apply (proj1 (jackknifeFrom_leave_one_out [7])); simpl; lia.
  - apply (proj1 (proj2 (jackknifeFrom_leave_one_out [1; 2; 3]))); simpl; lia.
  - apply (proj2 (proj2 (jackknifeFrom_leave_one_out [5; 5; 5; 5])) 5 4%nat);
      [reflexivity | lia].
Defined.

(** ** std_var and std_dev *)

Lemma np_sum_map_ext (f g : Q -> Q) (l : list Q) :
  (forall x, f x == g x) -> np_sum (map f l) == np_sum (map g l).
Proof.
  intros H; induction l as [|x l IH]; cbn [map].
  - reflexivity.
  - rewrite !np_sum_cons, IH, (H x); reflexivity.
Qed.

Lemma reduce_tuple_nonempty {A : Type} (func : list Q -> A) (data : list Q) :
  (1 <= length data)%nat -> reduce_tuple func data = Ok (func data).
Proof.
  intros H; unfold reduce_tuple.
  rewrite getitem_ok by (unfold len; lia); reflexivity.
Qed.

Lemma reduce_tuple_empty {A : Type} (func : list Q -> A) :
  reduce_tuple func [] = Raise IndexError.
Proof. reflexivity. Qed.

(** C3, as the claim states it, fails on a one-point sample: [std_var] and
    [std_dev] hand back numpy's [nan] and no fatal error is signalled. *)
Lemma std_var_singleton_not_fatal :
  (length [5] < 2)%nat /\
  std_var [5] = Ok NaN /\
  std_dev (fun q => q) [5] = Ok NaN /\
  ~ (exists msg, std_var [5] = Fatal msg).
Proof.
  repeat split; [simpl; lia |].
  intros [msg H]; discriminate H.
Qed.

(** C3, amended.  For [n >= 2], [std_var] returns the Bessel-corrected
    variance and [std_dev] its square root.  For [n < 2] neither signals a
    fatal error: a one-point sample gives [nan], and on an empty sequence the
    [data[0]] probe of [reduce_tuple] raises [IndexError]. *)
Theorem std_var_std_dev_by_size (np_sqrt : Q -> Q) (data : list Q) :
  ((2 <= length data)%nat ->
     exists v, std_var data = Ok (Num v) /\ v == bessel_var data /\
               std_dev np_sqrt data = Ok (Num (np_sqrt v))) /\
  (length data = 1%nat ->
     std_var data = Ok NaN /\ std_dev np_sqrt data = Ok NaN) /\
  (length data = 0%nat ->
     std_var data = Raise IndexError /\ std_dev np_sqrt data = Raise IndexError).
Proof.
  split; [| split].
  - intros H.
    unfold std_var, std_dev.
    rewrite !reduce_tuple_nonempty by lia.
    unfold np_std, np_var.
    assert (Hr : Z.max (len data - 1) 0 = (len data - 1)%Z) by (unfold len; lia).
    rewrite Hr.
    destruct (Z.eqb_spec (len data - 1) 0) as [E|_]; [unfold len in E; lia |].
    eexists; split; [reflexivity |]; split; [| reflexivity].
    unfold bessel_var.
    rewrite <- of_int_pred.
    rewrite (np_sum_map_ext _ (fun d => (d - np_mean data) ^ 2)); [reflexivity |].
    intros x; simpl; ring.
  - intros H.
    destruct data as [|a [|b data]]; simpl in H; try lia.
    split; reflexivity.
  - intros H.
    destruct data; simpl in H; try lia.
    split; reflexivity.
Qed.

(** The amended statement at [1, 2, 3, 4], at a one-point sample and at the
    empty sequence. *)
Lemma std_var_std_dev_by_size_witness :
  (exists v, std_var [1; 2; 3; 4] = Ok (Num v) /\ v == bessel_var [1; 2; 3; 4] /\
             std_dev (fun q => q) [1; 2; 3; 4] = Ok (Num v)) /\
  (std_var [5] = Ok NaN /\ std_dev (fun q => q) [5] = Ok NaN) /\
  (std_var [] = Raise IndexError /\ std_dev (fun q => q) [] = Raise IndexError).
Proof.
  split; [| split].
  - apply (proj1 (std_var_std_dev_by_size (fun q => q) [1; 2; 3; 4])); simpl; lia.
  - apply (proj1 (proj2 (std_var_std_dev_by_size (fun q => q) [5]))); reflexivity.
  - apply (proj2 (proj2 (std_var_std_dev_by_size (fun q => q) []))); reflexivity.
Defined.

(** ** tauint *)

Lemma for_each_pure {X S : Type} (xs : list X) (body : X -> S -> result S)
  (f : S -> X -> S) (s : S) :
  (forall x s', In x xs -> body x s' = Ok (f s' x)) ->
  for_each xs body s = Ok (fold_left f xs s).
Proof.
  revert s; induction xs as [|x xs IH]; intros s H; simpl.
  - reflexivity.
  - rewrite (H x s) by (left; reflexivity); simpl.
    apply IH; intros y s' Hy; apply H; right; exact Hy.
Qed.

Lemma for_each_collect {X A : Type} (xs : list X) (body : X -> list A -> result (list A))
  (g : X -> A) (acc : list A) :
  (forall x acc', In x xs -> body x acc' = Ok (acc' ++ [g x])) ->
  for_each xs body acc = Ok (acc ++ map g xs).
Proof.
  revert acc; induction xs as [|x xs IH]; intros acc H; simpl.
  - now rewrite app_nil_r.
  - rewrite (H x acc) by (left; reflexivity); simpl.
    rewrite IH by (intros y a Hy; apply H; right; exact Hy).
    now rewrite <- app_assoc.
Qed.

Lemma len_snoc {A : Type} (l : list A) (x : A) : len (l ++ [x]) = (len l + 1)%Z.
Proof. unfold len; rewrite length_app; simpl; lia. Qed.

Lemma mean_or_xhat_ok (ts : list Q) (xhat : option Q) :
  (1 <= length ts)%nat ->
  mean_or_xhat ts xhat = Ok (match xhat with Some v => v | None => np_mean ts end).
Proof.
  intros H; destruct xhat as [v|]; simpl; [reflexivity |].
  unfold std_mean; now rewrite reduce_tuple_nonempty.
Qed.

(** The inner loop of [tauint] never indexes out of range and adds up the
    products. *)
Lemma tauint_pairs_ok (ts : list Q) (x : Q) (it : Z) :
  (0 <= it)%Z ->
  for_each (range (len ts - it))
    (fun i c_it =>
       a <- getitem 0 ts i ;;
       b <- getitem 0 ts (i + it) ;;
       Ok (c_it + (a - x) * (b - x)))
    0 = Ok (pair_sum ts x it 0 (len ts - it)).
Proof.
  intros Hit; unfold pair_sum, range.
  apply for_each_pure.
  intros i c Hi; apply range2_In in Hi.
  rewrite !getitem_ok by lia; reflexivity.
Qed.

Lemma tauint_acov_ok (nt : Z) (ts : list Q) (xhat : option Q) :
  tauint_acov nt ts xhat (match xhat with Some v => v | None => np_mean ts end)
  = Ok (map (autocov ts xhat) (range (nt + 1))).
Proof.
  unfold tauint_acov.
  rewrite (for_each_collect _ _ (autocov ts xhat)); [reflexivity |].
  intros it acov Hit; apply range2_In in Hit.
  rewrite tauint_pairs_ok by lia; cbn [bind].
  destruct xhat; reflexivity.
Qed.

Lemma range_nth_map {A : Type} (g : Z -> A) (n t : Z) (d : A) :
  (0 <= t < n)%Z -> nth (Z.to_nat t) (map g (range n)) d = g t.
Proof.
  intros H.
  rewrite (nth_indep _ d (g 0%Z)) by (rewrite length_map; unfold range; rewrite range2_length; lia).
  rewrite map_nth; unfold range; rewrite range2_nth by lia.
  f_equal; lia.
Qed.

(** The recurrence loop of [tauint] over an [acov] list with an entry for
    every lag. *)
Lemma tauint_acint_ok (nt : Z) (acov : list Q) :
  len acov = Z.max (nt + 1) 0 ->
  exists acint, tauint_acint nt acov = Ok acint /\
    len acint = Z.max (nt + 1) 1 /\
    nth 0 acint 0 = 1 /\
    forall t, (1 <= t <= nt)%Z ->
      nth (Z.to_nat t) acint 0
      = nth (Z.to_nat (t - 1)) acint 0 + 2 * nth (Z.to_nat t) acov 0 / nth 0 acov 0.
Proof.
  intros Hlen; unfold tauint_acint.
  set (body := fun (it : Z) (acint : list Q) => _).
  destruct (for_each_invariant
    (fun pre acint =>
       len acint = (1 + len pre)%Z /\ nth 0 acint 0 = 1 /\
       forall t, (1 <= t <= len pre)%Z ->
         nth (Z.to_nat t) acint 0
         = nth (Z.to_nat (t - 1)) acint 0 + 2 * nth (Z.to_nat t) acov 0 / nth 0 acov 0)
    body (range2 1 (nt + 1)) [1]) as [acint [Hrun [Hl [H0 Hrec]]]].
  - repeat split; intros t Ht; unfold len in Ht; simpl in Ht; lia.
  - intros pre it post acint Hsplit [Hl [H0 Hrec]].
    apply range2_split in Hsplit; destruct Hsplit as [Hpre Hit].
    assert (Hpl : len pre = (it - 1)%Z).
    { rewrite Hpre; unfold len; rewrite range2_length; lia. }
    unfold body.
    rewrite !getitem_ok by lia; cbn [bind].
    eexists; split; [reflexivity |].
    assert (Hla : length acint = Z.to_nat it) by (unfold len in Hl, Hpl; lia).
    repeat split.
    + rewrite !len_snoc; lia.
    + rewrite nth_snoc_before by lia; exact H0.
    + intros t Ht; rewrite len_snoc in Ht.
      destruct (Z.eq_dec t it) as [->|Hne].
      * rewrite <- Hla at 1; rewrite nth_snoc_last.
        rewrite nth_snoc_before by lia; reflexivity.
      * rewrite !nth_snoc_before by lia.
        apply Hrec; lia.
  - exists acint; repeat split; auto.
    + rewrite Hl; unfold len; rewrite range2_length; lia.
    + intros t Ht; apply Hrec; unfold len; rewrite range2_length; lia.
Qed.

(** [tauint] past its two guards: the list it returns. *)
Lemma tauint_returns (nt : Z) (ts : list Q) (xhat : option Q) :
  (2 <= length ts)%nat -> (nt < len ts)%Z ->
  exists acint, tauint nt ts xhat = Ok acint /\
    len acint = Z.max (nt + 1) 1 /\
    nth 0 acint 0 = 1 /\
    forall t, (1 <= t <= nt)%Z ->
      nth (Z.to_nat t) acint 0
      = nth (Z.to_nat (t - 1)) acint 0 + 2 * autocov ts xhat t / autocov ts xhat 0.
Proof.
  intros Hn Hnt.
  unfold tauint, TBError_if.
  destruct (Z.ltb_spec (len ts) 2) as [Hlt|_]; [unfold len in Hlt; lia |].
  destruct (Z.geb_spec nt (len ts)) as [Hge|_]; [lia |]; cbn [bind].
  rewrite mean_or_xhat_ok by lia; cbn [bind].
  rewrite tauint_acov_ok; cbn [bind].
  destruct (tauint_acint_ok nt (map (autocov ts xhat) (range (nt + 1))))
    as [acint [Hrun [Hl [H0 Hrec]]]].
  { unfold len, range; rewrite length_map, range2_length; lia. }
  exists acint; repeat split; auto.
  intros t Ht; rewrite (Hrec t Ht).
  rewrite (range_nth_map _ (nt + 1) t) by lia.
  change 0%nat with (Z.to_nat 0).
  rewrite (range_nth_map _ (nt + 1) 0) by lia.
  reflexivity.
Qed.




(** ** tauintj *)

Lemma update_update {A : Type} (l : list A) (n : nat) (v w : A) :
  update (update l n v) n w = update l n w.
Proof.
  revert n; induction l as [|h t IH]; intros [|n]; simpl; auto.
  now rewrite IH.
Qed.

Lemma update_nth_self {A : Type} (l : list A) (n : nat) (d : A) :
  update l n (nth n l d) = l.
Proof.
  revert n; induction l as [|h t IH]; intros [|n]; simpl; auto.
  now rewrite IH.
Qed.

Lemma update_middle {A : Type} (l1 l2 : list A) (x v : A) :
  update (l1 ++ x :: l2) (length l1) v = l1 ++ v :: l2.
Proof.
  induction l1 as [|h t IH]; simpl; auto.
  now rewrite IH.
Qed.

Lemma len_update {A : Type} (l : list A) (n : nat) (v : A) : len (update l n v) = len l.
Proof. unfold len; now rewrite update_length. Qed.

(** The accumulation loop of one bin, in place on [acor[ibin]]. *)
Lemma tauintj_bin_sum_ok (ts acor : list Q) (x : Q) (it ibin lo hi : Z) :
  (0 <= it)%Z -> (0 <= lo)%Z -> (hi + it <= len ts)%Z ->
  (0 <= ibin < len acor)%Z ->
  for_each (range2 lo hi)
    (fun i acor =>
       cur <- getitem 0 acor ibin ;;
       a <- getitem 0 ts i ;;
       b <- getitem 0 ts (i + it) ;;
       setitem acor ibin (cur + (a - x) * (b - x)))
    acor
  = Ok (update acor (Z.to_nat ibin)
          (fold_left
             (fun c i => c + (nth (Z.to_nat i) ts 0 - x) * (nth (Z.to_nat (i + it)) ts 0 - x))
             (range2 lo hi) (nth (Z.to_nat ibin) acor 0))).
Proof.
  intros Hit Hlo Hhi Hbin.
  set (f := fun (c : Q) (i : Z) => _).
  set (body := fun (i : Z) (acor : list Q) => _).
  destruct (for_each_invariant
    (fun pre a => a = update acor (Z.to_nat ibin) (fold_left f pre (nth (Z.to_nat ibin) acor 0)))
    body (range2 lo hi) acor) as [a [Hrun Ha]].
  - simpl; now rewrite update_nth_self.
  - intros pre i post a Hsplit Ha.
    apply range2_split in Hsplit; destruct Hsplit as [_ Hi].
    unfold body.
    assert (Hla : len a = len acor) by (rewrite Ha; apply len_update).
    rewrite !getitem_ok by lia; cbn [bind].
    rewrite setitem_ok by lia.
    eexists; split; [reflexivity |].
    subst a.
    rewrite update_update, fold_left_app; cbn [fold_left].
    rewrite update_nth_same by (unfold len in Hbin; lia).
    reflexivity.
  - rewrite Hrun, Ha; reflexivity.
Qed.

(** One bin of [tauintj] on a list whose entry [ibin] is still zero. *)
Lemma tauintj_bin_ok (ts acor : list Q) (xhat : option Q) (it binsize ibin : Z) :
  (0 <= it)%Z -> (0 < binsize)%Z -> (0 <= ibin)%Z ->
  ((ibin + 1) * binsize + it <= len ts)%Z ->
  (ibin < len acor)%Z ->
  nth (Z.to_nat ibin) acor 0 = 0 ->
  tauintj_bin ts xhat (match xhat with Some v => v | None => np_mean ts end)
    it binsize ibin acor
  = Ok (update acor (Z.to_nat ibin)
          (match xhat with
           | Some v =>
               pair_sum ts v it (ibin * binsize) ((ibin + 1) * binsize) / of_int binsize
           | None =>
               pair_sum ts (np_mean ts) it (ibin * binsize) ((ibin + 1) * binsize)
               / of_int binsize * of_int (len ts) / (of_int (len ts) - 1)
           end)).
Proof.
  intros Hit Hbs Hb Hhi Hlt Hzero.
  unfold tauintj_bin.
  replace ((ibin + 1) * binsize - 1 + 1)%Z with ((ibin + 1) * binsize)%Z by lia.
  rewrite tauintj_bin_sum_ok by nia; cbn [bind].
  rewrite Hzero.
  rewrite getitem_ok by (rewrite len_update; lia); cbn [bind].
  rewrite update_nth_same by (unfold len in Hlt; lia).
  rewrite setitem_ok by (rewrite len_update; lia); cbn [bind].
  rewrite update_update.
  destruct xhat as [v|].
  - reflexivity.
  - rewrite getitem_ok by (rewrite len_update; lia); cbn [bind].
    rewrite update_nth_same by (unfold len in Hlt; lia).
    rewrite setitem_ok by (rewrite len_update; lia).
    rewrite update_update; reflexivity.
Qed.

Lemma repeat_split_head {A : Type} (x : A) (n : nat) :
  (0 < n)%nat -> repeat x n = x :: repeat x (n - 1).
Proof. destruct n; [lia |]; simpl; now rewrite Nat.sub_0_r. Qed.

(** The loop over the bins fills [acor] from left to right. *)
Lemma tauintj_bins_ok (ts : list Q) (xhat : option Q) (nbins it : Z) :
  (0 <= it)%Z -> (0 <= nbins)%Z -> (0 < block_size (len ts) nbins it)%Z ->
  (nbins * block_size (len ts) nbins it + it <= len ts)%Z ->
  for_each (range nbins)
    (tauintj_bin ts xhat (match xhat with Some v => v | None => np_mean ts end)
       it (block_size (len ts) nbins it))
    (repeat 0 (Z.to_nat nbins))
  = Ok (map (block_autocov ts xhat nbins it) (range nbins)).
Proof.
  intros Hit Hnb Hbs Hfit.
  set (g := block_autocov ts xhat nbins it).
  destruct (for_each_invariant
    (fun pre acor => acor = map g pre ++ repeat 0 (Z.to_nat nbins - length pre))
    (tauintj_bin ts xhat (match xhat with Some v => v | None => np_mean ts end)
       it (block_size (len ts) nbins it))
    (range nbins) (repeat 0 (Z.to_nat nbins))) as [acor [Hrun Hacor]].
  - simpl; now rewrite Nat.sub_0_r.
  - intros pre b post acor Hsplit Hacor.
    apply range2_split in Hsplit; destruct Hsplit as [Hpre Hb].
    assert (Hpl : length pre = Z.to_nat b).
    { rewrite Hpre, range2_length; lia. }
    assert (Hrest : repeat (0 : Q) (Z.to_nat nbins - length pre)
                    = 0 :: repeat 0 (Z.to_nat nbins - length pre - 1)).
    { apply repeat_split_head; lia. }
    rewrite Hrest in Hacor.
    assert (Hlen : len acor = nbins).
    { rewrite Hacor; unfold len.
      rewrite length_app, length_map; simpl; rewrite repeat_length; lia. }
    assert (Hml : length (map g pre) = Z.to_nat b) by (now rewrite length_map).
    rewrite tauintj_bin_ok; try lia.
    + eexists; split; [reflexivity |].
      rewrite Hacor, <- Hml, update_middle.
      rewrite map_app, <- app_assoc; simpl.
      rewrite length_app; simpl.
      do 3 f_equal. lia.
    + nia.
    + rewrite Hacor, <- Hml, app_nth2, Nat.sub_diag by lia; reflexivity.
  - rewrite Hrun, Hacor.
    unfold range at 2; rewrite range2_length.
    replace (Z.to_nat nbins - Z.to_nat (nbins - 0))%nat with 0%nat by lia.
    simpl; now rewrite app_nil_r.
Qed.

Lemma block_size_pos (ndat nbins it : Z) :
  (2 <= nbins)%Z -> (0 <= it)%Z -> ~ lag_reaches_last_block ndat nbins it ->
  (0 < block_size ndat nbins it)%Z.
Proof. unfold lag_reaches_last_block; intros Hnb Hit Hgood; nia. Qed.

Lemma block_size_fits (ndat nbins it : Z) :
  (0 < nbins)%Z -> (0 < block_size ndat nbins it)%Z ->
  (nbins * block_size ndat nbins it + it <= ndat)%Z.
Proof.
  unfold block_size; intros Hnb Hbs.
  assert (Hnum : (0 <= ndat - it)%Z).
  { destruct (Z.le_gt_cases 0 (ndat - it)) as [H|H]; [exact H |].
    assert (Hq : (Z.quot (ndat - it) nbins <= 0)%Z).
    { apply Z.quot_le_upper_bound; lia. }
    lia. }
  pose proof (Z.mul_quot_le (ndat - it) nbins Hnum ltac:(lia)). lia.
Qed.

Lemma lag_reaches_last_block_mono (ndat nbins it nt : Z) :
  (2 <= nbins)%Z -> (0 <= it <= nt)%Z ->
  lag_reaches_last_block ndat nbins it -> lag_reaches_last_block ndat nbins nt.
Proof.
  unfold lag_reaches_last_block, block_size; intros Hnb Hit H.
  assert (Hq : (Z.quot (ndat - nt) nbins <= Z.quot (ndat - it) nbins)%Z).
  { apply Z.quot_le_mono; lia. }
  nia.
Qed.

Lemma empty_block_reached (ndat nbins it : Z) :
  (2 <= nbins)%Z -> (0 <= it)%Z ->
  last_block_empty ndat nbins it -> lag_reaches_last_block ndat nbins it.
Proof. unfold last_block_empty, lag_reaches_last_block; intros; nia. Qed.

Lemma jackknifeFrom_ok (x : list Q) :
  (2 <= len x)%Z -> jackknifeFrom x = Ok (jackknife_row x).
Proof.
  intros H; unfold jackknifeFrom, TBError_if.
  destruct (Z.ltb_spec (len x) 2); [lia | reflexivity].
Qed.

Lemma tauintj_lag_ok (nbins : Z) (ts : list Q) (xhat : option Q) (it : Z)
  (acorj : list (list Q)) :
  (2 <= nbins)%Z -> (0 <= it)%Z -> ~ lag_reaches_last_block (len ts) nbins it ->
  tauintj_lag nbins ts xhat (match xhat with Some v => v | None => np_mean ts end) it acorj
  = Ok (acorj ++ [acorj_row ts xhat nbins it]).
Proof.
  intros Hnb Hit Hgood.
  pose proof (block_size_pos _ _ _ Hnb Hit Hgood) as Hbs.
  pose proof (block_size_fits (len ts) nbins it ltac:(lia) Hbs) as Hfit.
  unfold tauintj_lag, TBError_if.
  fold (block_size (len ts) nbins it).
  destruct (Z.geb_spec it (nbins * block_size (len ts) nbins it - block_size (len ts) nbins it))
    as [Hge|_].
  { exfalso; apply Hgood; unfold lag_reaches_last_block; lia. }
  cbn [bind].
  rewrite tauintj_bins_ok by lia; cbn [bind].
  rewrite jackknifeFrom_ok; [reflexivity |].
  unfold len, range; rewrite length_map, range2_length; lia.
Qed.

Lemma tauintj_lag_fatal (nbins : Z) (ts : list Q) (xhat : option Q) (x : Q) (it : Z)
  (acorj : list (list Q)) :
  lag_reaches_last_block (len ts) nbins it ->
  tauintj_lag nbins ts xhat x it acorj = Fatal "it>=itmax.".
Proof.
  intros Hbad; unfold tauintj_lag, TBError_if.
  fold (block_size (len ts) nbins it).
  destruct (Z.geb_spec it (nbins * block_size (len ts) nbins it - block_size (len ts) nbins it))
    as [_|Hlt]; [reflexivity |].
  exfalso; unfold lag_reaches_last_block in Hbad; lia.
Qed.

Lemma lag_reaches_last_block_dec (ndat nbins it : Z) :
  {lag_reaches_last_block ndat nbins it} + {~ lag_reaches_last_block ndat nbins it}.
Proof. unfold lag_reaches_last_block; apply Z_le_dec. Qed.

(** The loop over the lags: it returns one jackknifed row per lag when no
    lag reaches the last block, and stops with the fatal call otherwise. *)
Lemma tauintj_lags (nbins : Z) (ts : list Q) (xhat : option Q) (k : nat) :
  (2 <= nbins)%Z ->
  ((forall it, (0 <= it < Z.of_nat k)%Z -> ~ lag_reaches_last_block (len ts) nbins it) ->
   for_each (range (Z.of_nat k))
     (tauintj_lag nbins ts xhat (match xhat with Some v => v | None => np_mean ts end)) []
   = Ok (map (acorj_row ts xhat nbins) (range (Z.of_nat k)))) /\
  ((exists it, (0 <= it < Z.of_nat k)%Z /\ lag_reaches_last_block (len ts) nbins it) ->
   for_each (range (Z.of_nat k))
     (tauintj_lag nbins ts xhat (match xhat with Some v => v | None => np_mean ts end)) []
   = Fatal "it>=itmax.").
Proof.
  intros Hnb; induction k as [|k [IHok IHbad]].
  - split; [reflexivity | intros [it [Hit _]]; lia].
  - assert (Hr : range (Z.of_nat (S k)) = range (Z.of_nat k) ++ [Z.of_nat k]).
    { unfold range; rewrite Nat2Z.inj_succ, <- Z.add_1_r; apply range2_snoc; lia. }
    rewrite Hr, for_each_app.
    split.
    + intros Hall.
      rewrite IHok by (intros it Hit; apply Hall; lia); cbn [bind for_each].
      rewrite tauintj_lag_ok by (try apply Hall; lia); cbn [bind].
      now rewrite map_app.
    + intros [it [Hit Hbad]].
      destruct (Z.eq_dec it (Z.of_nat k)) as [->|Hne].
      * assert (Hprev : (forall it', (0 <= it' < Z.of_nat k)%Z ->
                           ~ lag_reaches_last_block (len ts) nbins it')
                        \/ exists it', (0 <= it' < Z.of_nat k)%Z /\
                                       lag_reaches_last_block (len ts) nbins it').
        { clear -Hnb. induction k as [|k IH].
          - left; intros; lia.
          - destruct IH as [IH|[it' [Hi Hb]]].
            + destruct (lag_reaches_last_block_dec (len ts) nbins (Z.of_nat k)) as [Hb|Hg].
              * right; exists (Z.of_nat k); split; [lia | exact Hb].
              * left; intros it' Hi.
                destruct (Z.eq_dec it' (Z.of_nat k)) as [->|Hne]; [exact Hg |].
                apply IH; lia.
            + right; exists it'; split; [lia | exact Hb]. }
        destruct Hprev as [Hall|Hex].
        -- rewrite IHok by exact Hall; cbn [bind for_each].
           now rewrite tauintj_lag_fatal.
        -- now rewrite IHbad.
      * rewrite IHbad; [reflexivity |].
        exists it; split; [lia | exact Hbad].
Qed.

Lemma acorj_row_length (ts : list Q) (xhat : option Q) (nbins it : Z) :
  len (acorj_row ts xhat nbins it) = Z.max nbins 0.
Proof.
  unfold acorj_row, jackknife_row, len, range.
  rewrite !length_map, range2_length; lia.
Qed.

Lemma acintj_next_length (ts : list Q) (xhat : option Q) (nbins it : Z) (prev : list Q) :
  len (acintj_next ts xhat nbins it prev) = Z.max nbins 0.
Proof.
  unfold acintj_next, len, range; rewrite length_map, range2_length; lia.
Qed.

(** The last loop of [tauintj] over the rows [acorj[0..nt]]. *)
Lemma tauintj_acintj_ok (ts : list Q) (xhat : option Q) (nt nbins : Z) :
  (0 <= nbins)%Z ->
  exists acintj,
    tauintj_acintj nt nbins (map (acorj_row ts xhat nbins) (range (nt + 1))) = Ok acintj /\
    len acintj = Z.max (nt + 1) 1 /\
    nth 0 acintj [] = repeat 1 (Z.to_nat nbins) /\
    forall t, (1 <= t <= nt)%Z ->
      nth (Z.to_nat t) acintj []
      = acintj_next ts xhat nbins t (nth (Z.to_nat (t - 1)) acintj []).
Proof.
  intros Hnb; unfold tauintj_acintj.
  set (acorj := map (acorj_row ts xhat nbins) (range (nt + 1))).
  set (body := fun (it : Z) (acintj : list (list Q)) => _).
  destruct (for_each_invariant
    (fun pre acintj =>
       len acintj = (1 + len pre)%Z /\
       nth 0 acintj [] = repeat 1 (Z.to_nat nbins) /\
       (forall t, (0 <= t <= len pre)%Z -> len (nth (Z.to_nat t) acintj []) = nbins) /\
       forall t, (1 <= t <= len pre)%Z ->
         nth (Z.to_nat t) acintj []
         = acintj_next ts xhat nbins t (nth (Z.to_nat (t - 1)) acintj []))
    body (range2 1 (nt + 1)) [repeat 1 (Z.to_nat nbins)])
    as [acintj [Hrun [Hl [H0 [Hrows Hrec]]]]].
  - repeat split.
    + intros t Ht; change (len (@nil Z)) with 0%Z in Ht.
      replace t with 0%Z by lia; simpl.
      unfold len; rewrite repeat_length; lia.
    + intros t Ht; change (len (@nil Z)) with 0%Z in Ht; lia.
  - intros pre it post acintj Hsplit [Hl [H0 [Hrows Hrec]]].
    apply range2_split in Hsplit; destruct Hsplit as [Hpre Hit].
    assert (Hpl : len pre = (it - 1)%Z).
    { rewrite Hpre; unfold len; rewrite range2_length; lia. }
    assert (Hla : length acintj = Z.to_nat it) by (unfold len in Hl, Hpl; lia).
    assert (Hacorj : len acorj = (nt + 1)%Z).
    { unfold acorj, len, range; rewrite length_map, range2_length; lia. }
    unfold body.
    rewrite (for_each_collect _ _
      (fun ibin =>
         nth (Z.to_nat ibin) (nth (Z.to_nat (it - 1)) acintj []) 0
         + 2 * nth (Z.to_nat ibin) (acorj_row ts xhat nbins it) 0
             / nth (Z.to_nat ibin) (acorj_row ts xhat nbins 0) 0)).
    + cbn [bind app].
      eexists; split; [reflexivity |].
      fold (acintj_next ts xhat nbins it (nth (Z.to_nat (it - 1)) acintj [])).
      repeat split.
      * rewrite !len_snoc; lia.
      * rewrite nth_snoc_before by lia; exact H0.
      * intros t Ht; rewrite len_snoc in Ht.
        destruct (Z.eq_dec t it) as [->|Hne].
        -- rewrite <- Hla, nth_snoc_last, acintj_next_length; lia.
        -- rewrite nth_snoc_before by lia; apply Hrows; lia.
      * intros t Ht; rewrite len_snoc in Ht.
        destruct (Z.eq_dec t it) as [->|Hne].
        -- rewrite <- Hla at 1; rewrite nth_snoc_last.
           rewrite nth_snoc_before by lia; reflexivity.
        -- rewrite !nth_snoc_before by lia; apply Hrec; lia.
    + intros ibin acc Hin; apply range2_In in Hin.
      rewrite (getitem_ok [] acintj) by lia; cbn [bind].
      rewrite getitem_ok by (rewrite Hrows; lia); cbn [bind].
      rewrite (getitem_ok [] acorj) by lia; cbn [bind].
      unfold acorj at 1; rewrite (range_nth_map _ (nt + 1) it) by lia.
      rewrite getitem_ok by (rewrite acorj_row_length; lia); cbn [bind].
      rewrite (getitem_ok [] acorj) by lia; cbn [bind].
      unfold acorj; change (Z.to_nat 0) with (Z.to_nat 0%Z).
      rewrite (range_nth_map _ (nt + 1) 0) by lia.
      rewrite getitem_ok by (rewrite acorj_row_length; lia); cbn [bind].
      reflexivity.
  - exists acintj; repeat split; auto.
    + rewrite Hl; unfold len; rewrite range2_length; lia.
    + intros t Ht; apply Hrec; unfold len; rewrite range2_length; lia.
Qed.

(** C6, as the claim states it, fails: with ten samples, two bins and
    maximum lag three the blocks at lag three hold three pairs each, the last
    block is not empty, and [tauintj] still stops with the fatal call. *)
Lemma tauintj_fatal_with_nonempty_last_block :
  tauintj 3 2 [1; 2; 4; 3; 5; 7; 6; 8; 9; 10] None = Fatal "it>=itmax." /\
  block_size 10 2 3 = 3%Z /\
  ~ last_block_empty (len [1; 2; 4; 3; 5; 7; 6; 8; 9; 10]) 2 3.
Proof.
  split; [vm_compute; reflexivity |].
  split; [reflexivity |].
  unfold last_block_empty; vm_compute; intros H; apply H; reflexivity.
Qed.

Lemma tauintj_head (nt nbins : Z) (ts : list Q) (xhat : option Q) :
  (2 <= length ts)%nat -> (2 <= nbins)%Z ->
  tauintj nt nbins ts xhat
  = (acorj <- for_each (range (nt + 1))
       (tauintj_lag nbins ts xhat
          (match xhat with Some v => v | None => np_mean ts end)) [] ;;
     tauintj_acintj nt nbins acorj).
Proof.
  intros Hn Hnb; unfold tauintj, TBError_if.
  destruct (Z.ltb_spec (len ts) 2) as [Hlt|_]; [unfold len in Hlt; lia |].
  destruct (Z.ltb_spec nbins 2) as [Hlt|_]; [lia |]; cbn [bind].
  rewrite mean_or_xhat_ok by lia; reflexivity.
Qed.

Lemma tauintj_stops (nt nbins : Z) (ts : list Q) (xhat : option Q) :
  (2 <= length ts)%nat -> (2 <= nbins)%Z ->
  (0 <= nt)%Z -> lag_reaches_last_block (len ts) nbins nt ->
  tauintj nt nbins ts xhat = Fatal "it>=itmax.".
Proof.
  intros Hn Hnb Hnt Hreach.
  rewrite tauintj_head by assumption.
  replace (nt + 1)%Z with (Z.of_nat (Z.to_nat (nt + 1))) by lia.
  rewrite (proj2 (tauintj_lags nbins ts xhat (Z.to_nat (nt + 1)) Hnb)); [reflexivity |].
  exists nt; split; [lia | exact Hreach].
Qed.

Lemma tauintj_returns (nt nbins : Z) (ts : list Q) (xhat : option Q) :
  (2 <= length ts)%nat -> (2 <= nbins)%Z ->
  ~ ((0 <= nt)%Z /\ lag_reaches_last_block (len ts) nbins nt) ->
  exists acintj, tauintj nt nbins ts xhat = Ok acintj /\
    len acintj = Z.max (nt + 1) 1 /\
    nth 0 acintj [] = repeat 1 (Z.to_nat nbins) /\
    forall t, (1 <= t <= nt)%Z ->
      nth (Z.to_nat t) acintj []
      = acintj_next ts xhat nbins t (nth (Z.to_nat (t - 1)) acintj []).
Proof.
  intros Hn Hnb Hnot.
  rewrite tauintj_head by assumption.
  assert (Hloop : for_each (range (nt + 1))
            (tauintj_lag nbins ts xhat
               (match xhat with Some v => v | None => np_mean ts end)) []
          = Ok (map (acorj_row ts xhat nbins) (range (nt + 1)))).
  { destruct (Z_le_dec 0 nt) as [Hnt|Hnt].
    - replace (nt + 1)%Z with (Z.of_nat (Z.to_nat (nt + 1))) by lia.
      apply (proj1 (tauintj_lags nbins ts xhat (Z.to_nat (nt + 1)) Hnb)).
      intros it Hit Hreach; apply Hnot; split; [exact Hnt |].
      apply (lag_reaches_last_block_mono _ _ it); [exact Hnb | lia | exact Hreach].
    - unfold range; rewrite range2_nil by lia; reflexivity. }
  rewrite Hloop; cbn [bind].
  apply tauintj_acintj_ok; lia.
Qed.

(** C6, amended.  For a series of length [ndat >= 2] and [nbins >= 2],
    [tauintj] stops with the fatal call exactly when the maximum lag [nt] is
    non-negative and reaches the first index [(nbins-1)*binsize] of the last
    of the [nbins] blocks of size [binsize = int((ndat-nt)/nbins)]; an empty
    last block is one such case.  Otherwise it returns [nt+1] rows of jackknife
    bins: the first all ones, each next one obtained from the previous by
    adding [2*acorj[t]/acorj[0]], where [acorj[t]] is the jackknife of the
    per-block autocovariance estimates at lag [t]. *)
Theorem tauintj_fatal_iff_lag_reaches_last_block
  (nt nbins : Z) (ts : list Q) (xhat : option Q) :
  (2 <= length ts)%nat -> (2 <= nbins)%Z ->
  (tauintj nt nbins ts xhat = Fatal "it>=itmax."
   <-> (0 <= nt)%Z /\ lag_reaches_last_block (len ts) nbins nt) /\
  ((0 <= nt)%Z -> last_block_empty (len ts) nbins nt ->
   tauintj nt nbins ts xhat = Fatal "it>=itmax.") /\
  (~ ((0 <= nt)%Z /\ lag_reaches_last_block (len ts) nbins nt) ->
   exists acintj, tauintj nt nbins ts xhat = Ok acintj /\
     len acintj = Z.max (nt + 1) 1 /\
     nth 0 acintj [] = repeat 1 (Z.to_nat nbins) /\
     forall t, (1 <= t <= nt)%Z ->
       nth (Z.to_nat t) acintj []
       = acintj_next ts xhat nbins t (nth (Z.to_nat (t - 1)) acintj [])).
Proof.
  intros Hn Hnb.
  split; [| split].
  - split; [| intros [Hnt Hr]; now apply tauintj_stops].
    intros Hfatal.
    destruct (Z_le_dec 0 nt) as [Hnt|Hnt];
      [destruct (lag_reaches_last_block_dec (len ts) nbins nt) as [Hr|Hr] |].
    + split; assumption.
    + destruct (tauintj_returns nt nbins ts xhat Hn Hnb) as [a [Ha _]];
        [intros [_ H]; exact (Hr H) |].
      rewrite Ha in Hfatal; discriminate.
    + destruct (tauintj_returns nt nbins ts xhat Hn Hnb) as [a [Ha _]];
        [intros [H _]; exact (Hnt H) |].
      rewrite Ha in Hfatal; discriminate.
  - intros Hnt Hempty; apply tauintj_stops; try assumption.
    apply empty_block_reached; assumption.
  - apply tauintj_returns; assumption.
Qed.

(** The amended statement at ten samples and two bins: maximum lag two
    returns, maximum lag three stops. *)
Lemma tauintj_fatal_iff_lag_reaches_last_block_witness :
  (exists acintj, tauintj 2 2 [1; 2; 4; 3; 5; 7; 6; 8; 9; 10] None = Ok acintj /\
     len acintj = Z.max (2 + 1) 1 /\
     nth 0 acintj [] = repeat 1 (Z.to_nat 2) /\
     forall t, (1 <= t <= 2)%Z ->
       nth (Z.to_nat t) acintj []
       = acintj_next [1; 2; 4; 3; 5; 7; 6; 8; 9; 10] None 2 t
           (nth (Z.to_nat (t - 1)) acintj [])) /\
  tauintj 3 2 [1; 2; 4; 3; 5; 7; 6; 8; 9; 10] None = Fatal "it>=itmax.".
Proof.
  split.
  - apply (proj2 (proj2 (tauintj_fatal_iff_lag_reaches_last_block
                           2 2 [1; 2; 4; 3; 5; 7; 6; 8; 9; 10] None
                           ltac:(simpl; lia) ltac:(lia)))).
    unfold lag_reaches_last_block; vm_compute.
    intros [_ H]; apply H; reflexivity.
  - apply (proj1 (tauintj_fatal_iff_lag_reaches_last_block
                    3 2 [1; 2; 4; 3; 5; 7; 6; 8; 9; 10] None
                    ltac:(simpl; lia) ltac:(lia))).
    split; [lia |].
    unfold lag_reaches_last_block; vm_compute; intros H; discriminate H.
Defined.

(** ** getTauInt *)

Lemma tauint_Ok_inv (nt : Z) (ts : list Q) (xhat : option Q) (acint : list Q) :
  tauint nt ts xhat = Ok acint ->
  len acint = Z.max (nt + 1) 1 /\ nth 0 acint 0 = 1.
Proof.
  intros H.
  assert (Hg : (2 <= length ts)%nat /\ (nt < len ts)%Z).
  { unfold tauint, TBError_if in H.
    destruct (Z.ltb_spec (len ts) 2) as [Hlt|Hge]; [discriminate H |].
    destruct (Z.geb_spec nt (len ts)) as [Hlt|Hge']; [discriminate H |].
    unfold len in Hge; split; lia. }
  destruct Hg as [Hn Hnt].
  destruct (tauint_returns nt ts xhat Hn Hnt) as [a [Ha [Hl [H0 _]]]].
  rewrite Ha in H; injection H as <-; split; assumption.
Qed.

Lemma tauintj_Ok_inv (nt nbins : Z) (ts : list Q) (xhat : option Q)
  (acintj : list (list Q)) :
  tauintj nt nbins ts xhat = Ok acintj -> len acintj = Z.max (nt + 1) 1.
Proof.
  intros H.
  assert (Hg : (2 <= length ts)%nat /\ (2 <= nbins)%Z).
  { unfold tauintj, TBError_if in H.
    destruct (Z.ltb_spec (len ts) 2) as [Hlt|Hge]; [discriminate H |].
    destruct (Z.ltb_spec nbins 2) as [Hlt|Hge']; [discriminate H |].
    unfold len in Hge; split; lia. }
  destruct Hg as [Hn Hnb].
  assert (Hnot : ~ ((0 <= nt)%Z /\ lag_reaches_last_block (len ts) nbins nt)).
  { intros [Hnt Hr].
    rewrite (tauintj_stops nt nbins ts xhat Hn Hnb Hnt Hr) in H; discriminate H. }
  destruct (tauintj_returns nt nbins ts xhat Hn Hnb Hnot) as [a [Ha [Hl _]]].
  rewrite Ha in H; injection H as <-; exact Hl.
Qed.

Lemma Qltb_false_le (a b : Q) : Qltb a b = false -> b <= a.
Proof.
  unfold Qltb; intros H.
  apply Qle_bool_iff; destruct (Qle_bool b a); [reflexivity | discriminate H].
Qed.

Lemma Qltb_true_lt (a b : Q) : Qltb a b = true -> a < b.
Proof.
  unfold Qltb; intros H.
  apply Qnot_le_lt; intros Hle.
  apply Qle_bool_iff in Hle; rewrite Hle in H; discriminate H.
Qed.

(** Split a goal into its conjuncts, and nothing further. *)
Ltac conjs := repeat match goal with |- _ /\ _ => split end.

Section GetTauInt.

Variable np_sqrt : Q -> Q.
Variables (nbins : Z) (acint : list Q) (acintj : list (list Q)).

Lemma getTauInt_step_scanned (k : Z) (s : scan) :
  (0 <= k)%Z -> (k < len acint)%Z -> (k < len acintj)%Z ->
  nth 0 acint 0 = 1 ->
  scanned np_sqrt nbins acint acintj k s ->
  exists s', getTauInt_step np_sqrt nbins acint acintj k s = Ok s' /\ scanned np_sqrt nbins acint acintj (k + 1) s'.
Proof.
  intros Hk Hka Hkj H0 [Hout Hs].
  unfold getTauInt_step.
  rewrite (getitem_ok [] acintj) by lia; cbn [bind].
  unfold jack_mean_and_err at 1.
  rewrite getitem_ok by lia; cbn [bind].
  destruct (lmonoton s) eqn:Hmono.
  - destruct (Qltb (nth (Z.to_nat k) acint 0) (tau_int s)) eqn:Hlt; cbn [negb].
    + (* the estimate decreased: the scan stops updating *)
      eexists; split; [reflexivity |].
      split; [cbn [acoutfile]; rewrite len_snoc; lia |].
      apply Qltb_true_lt in Hlt.
      destruct Hs as [[-> [_ [Ht _]]]|[Hp [Ht [He [Hb [Hmon [Hlast _]]]]]]].
      * (* impossible at lag 0, where the estimate is 1 and the running value 0 *)
        exfalso; rewrite Ht in Hlt; change (Z.to_nat 0) with 0%nat in Hlt.
        rewrite H0 in Hlt; apply (Qlt_not_le _ _ Hlt); unfold Qle; simpl; lia.
      * right; cbn [itpick tau_int tau_inte tau_intbias lmonoton].
        specialize (Hlast eq_refl).
        conjs; try assumption; try lia; try (intros Habs; discriminate Habs).
        intros _; split; [lia |].
        rewrite Hlast; replace (k - 1 + 1)%Z with k by lia.
        rewrite <- Hlast, <- Ht; exact Hlt.
    + (* not decreased: lag [k] becomes the pick *)
      eexists; split; [reflexivity |].
      split; [cbn [acoutfile]; rewrite len_snoc; lia |].
      apply Qltb_false_le in Hlt.
      right; cbn [itpick tau_int tau_inte tau_intbias lmonoton].
      conjs; try lia; try reflexivity; try (intros Habs; discriminate Habs).
      intros t Ht.
      destruct (Z.eq_dec t k) as [->|Hne].
      * destruct Hs as [[-> _]|[Hp [Hti [_ [_ [_ [Hlast _]]]]]]]; [lia |].
        specialize (Hlast eq_refl).
        rewrite Hlast in Hti; rewrite <- Hti; exact Hlt.
      * destruct Hs as [[-> _]|[Hp [_ [_ [_ [Hmon [Hlast _]]]]]]]; [lia |].
        specialize (Hlast eq_refl).
        apply Hmon; lia.
  - eexists; split; [reflexivity |].
    split; [cbn [acoutfile]; rewrite len_snoc; lia |].
    destruct Hs as [[_ [Habs _]]|[Hp [Ht [He [Hb [Hmon [_ Hstop]]]]]]];
      [discriminate Habs |].
    right; cbn [itpick tau_int tau_inte tau_intbias lmonoton].
    specialize (Hstop eq_refl).
    conjs; try assumption; try lia; try (intros Habs; discriminate Habs).
    intros _; destruct Hstop as [Hnext Hdrop]; split; [lia | exact Hdrop].
Qed.

Lemma getTauInt_scan (tpickMax : Z) :
  (0 <= tpickMax)%Z ->
  len acint = (tpickMax + 1)%Z -> len acintj = (tpickMax + 1)%Z ->
  nth 0 acint 0 = 1 ->
  exists s,
    for_each (range (tpickMax + 1)) (getTauInt_step np_sqrt nbins acint acintj)
      (mk_scan true 0 (-1) (-1) (-1) []) = Ok s /\
    scanned np_sqrt nbins acint acintj (tpickMax + 1) s.
Proof.
  intros Hmax Hla Hlj H0.
  destruct (for_each_invariant
    (fun pre s => scanned np_sqrt nbins acint acintj (len pre) s)
    (getTauInt_step np_sqrt nbins acint acintj)
    (range (tpickMax + 1)) (mk_scan true 0 (-1) (-1) (-1) [])) as [s [Hrun Hs]].
  - split; [reflexivity |]; left; conjs; reflexivity.
  - intros pre it post s Hsplit Hs.
    apply range2_split in Hsplit; destruct Hsplit as [Hpre Hit].
    assert (Hpl : len pre = it).
    { rewrite Hpre; unfold len; rewrite range2_length; lia. }
    rewrite Hpl in Hs.
    destruct (getTauInt_step_scanned it s) as [s' [Hstep Hs']]; try lia; try assumption.
    exists s'; split; [exact Hstep |].
    rewrite len_snoc, Hpl; exact Hs'.
  - exists s; split; [exact Hrun |].
    unfold len, range in Hs; rewrite range2_length in Hs.
    replace (Z.of_nat (Z.to_nat (tpickMax + 1 - 0))) with (tpickMax + 1)%Z in Hs by lia.
    exact Hs.
Qed.

End GetTauInt.

(** With a negative maximum lag no lag is visited, and the initial values
    [0., -1, -1, -1] of the scan are what [getTauInt] returns. *)
Lemma getTauInt_no_lag (np_sqrt : Q -> Q) (ts : list Q) (nbins tpickMax : Z) :
  (2 <= length ts)%nat -> (2 <= nbins)%Z -> (tpickMax < 0)%Z ->
  getTauInt np_sqrt ts nbins tpickMax = Ok (mk_scan true 0 (-1) (-1) (-1) []).
Proof.
  intros Hn Hnb Hneg; unfold getTauInt.
  destruct (tauint_returns tpickMax ts None Hn) as [acint [-> _]]; [unfold len; lia |].
  destruct (tauintj_returns tpickMax nbins ts None Hn Hnb) as [acintj [-> _]]; [lia |].
  cbn [bind]; unfold range; rewrite range2_nil by lia; reflexivity.
Qed.



(** ** Fitter: the data covariance set up by the constructor *)

Import Fitting.

(** The covariance [__init__] builds from [ydata] and [edata]. *)
Lemma init_cov (E : Env) (func : fitfunc) (sig : Z) (ydata : list Q)
  (edata : option edata_t) (kw : kwargs) (F : Fitter) :
  __init__ E func sig ydata edata kw = Ok F ->
  _ydata F = ydata /\
  (_cov_avail F, _cov F)
  = match edata with
    | Some (Covariance c) => (true, c)
    | Some (Errors e) => (false, np_diag (map (fun x => x ^ 2) e))
    | None => (false, np_diag (repeat 1 (length ydata)))
    end.
Proof.
  unfold __init__; intros H.
  apply bind_Ok_inv in H; destruct H as [n [_ H]].
  apply bind_Ok_inv in H; destruct H as [ones [_ H]].
  apply bind_Ok_inv in H; destruct H as [F1 [HF1 H]].
  apply bind_Ok_inv in H; destruct H as [ones' [_ H]].
  assert (Hy : _ydata F1 = ydata).
  { unfold set_func in HF1.
    destruct (kw_hess kw), (kw_grad kw);
      repeat match type of HF1 with
             | context [if ?b then _ else _] => destruct b
             end;
      cbn in HF1; unfold check_start_params in HF1; cbn in HF1;
      match type of HF1 with
      | context [match ?c with Ok _ => _ | Raise _ => _ | Fatal _ => _ end] =>
          destruct c; try discriminate HF1
      end;
      try (injection HF1 as <-; reflexivity);
      repeat (apply bind_Ok_inv in HF1; destruct HF1 as [? [_ HF1]]); discriminate HF1. }
  destruct edata as [[e|c]|];
    match type of H with
    | context [inv_cut_eig ?E ?m ?t] => destruct (inv_cut_eig E m t) as [fc ic]
    end;
    apply bind_Ok_inv in H; destruct H as [inv_cor [_ H]];
    injection H as <-; cbn; rewrite Hy; split; reflexivity.
Qed.

Lemma np_diag_length (v : list Q) : length (np_diag v) = length v.
Proof. unfold np_diag; now rewrite length_map, length_seq. Qed.

Lemma np_diag_entry (v : list Q) (i j : nat) :
  (i < length v)%nat -> (j < length v)%nat ->
  nth j (nth i (np_diag v) []) 0 = if (i =? j)%nat then nth i v 0 else 0.
Proof.
  intros Hi Hj; unfold np_diag.
  set (row := fun i : nat => map (fun j : nat => if (i =? j)%nat then nth i v 0 else 0)
                                 (seq 0 (length v))).
  rewrite (nth_indep _ [] (row 0%nat)) by (rewrite length_map, length_seq; exact Hi).
  rewrite (map_nth row), seq_nth by exact Hi; cbn [Nat.add]; unfold row.
  set (ent := fun j : nat => if (i =? j)%nat then nth i v 0 else 0).
  rewrite (nth_indep _ 0 (ent 0%nat)) by (rewrite length_map, length_seq; exact Hj).
  rewrite (map_nth ent), seq_nth by exact Hj; reflexivity.
Qed.

Lemma map_square_ones (n : nat) : map (fun x : Q => x ^ 2) (repeat 1 n) = repeat 1 n.
Proof.
  induction n as [|n IH]; cbn [repeat map]; [reflexivity |].
  rewrite IH; reflexivity.
Qed.

(** C10.  A Fitter constructed without error data has the identity matrix
    as data covariance, and is the very Fitter constructed with every
    error equal to one; with a 1-D [edata] the covariance is the diagonal
    matrix of the squared entries. *)
Theorem init_covariance_identity_or_squares (E : Env) (func : fitfunc) (sig : Z)
  (ydata : list Q) (kw : kwargs) :
  (forall F, __init__ E func sig ydata None kw = Ok F ->
     length (_cov F) = length ydata /\
     (forall i j, (i < length ydata)%nat -> (j < length ydata)%nat ->
        nth j (nth i (_cov F) []) 0 = if (i =? j)%nat then 1 else 0)) /\
  __init__ E func sig ydata None kw
  = __init__ E func sig ydata (Some (Errors (repeat 1 (length ydata)))) kw /\
  (forall e F, __init__ E func sig ydata (Some (Errors e)) kw = Ok F ->
     length (_cov F) = length e /\
     (forall i j, (i < length e)%nat -> (j < length e)%nat ->
        nth j (nth i (_cov F) []) 0 = if (i =? j)%nat then nth i e 0 ^ 2 else 0)).
Proof.
  split; [| split].
  - intros F H; apply init_cov in H; destruct H as [_ H].
    injection H as _ Hc; rewrite Hc, np_diag_length, repeat_length.
    split; [reflexivity |].
    intros i j Hi Hj.
    rewrite np_diag_entry by (rewrite repeat_length; assumption).
    destruct (i =? j)%nat; [apply nth_repeat_lt; exact Hi | reflexivity].
  - unfold __init__; cbv iota; now rewrite map_square_ones.
  - intros e F H; apply init_cov in H; destruct H as [_ H].
    injection H as _ Hc; rewrite Hc, np_diag_length, length_map.
    split; [reflexivity |].
    intros i j Hi Hj.
    rewrite np_diag_entry by (rewrite length_map; assumption).
    destruct (i =? j)%nat; [| reflexivity].
    rewrite (nth_indep _ 0 ((fun x : Q => x ^ 2) 0)) by (rewrite length_map; exact Hi).
    now rewrite (map_nth (fun x : Q => x ^ 2)).
Qed.

(** The statement at the Fitter of the line example, built without error
    data. *)
Lemma init_covariance_identity_or_squares_witness :
  length (_cov Examples.line_fitter) = length [2; 4; 6] /\
  (forall i j, (i < length [2; 4; 6])%nat -> (j < length [2; 4; 6])%nat ->
     nth j (nth i (_cov Examples.line_fitter) []) 0 = if (i =? j)%nat then 1 else 0).
Proof.
  apply (proj1 (init_covariance_identity_or_squares
                  Examples.toy_env Examples.line 2 [2; 4; 6] default_kwargs)
           Examples.line_fitter).
  reflexivity.
Defined.

(** ** Fitter: degrees of freedom and error estimation *)





(** ** Fitter: the gradient of the chi-square *)

Lemma zip_with_nth (f : Q -> Q -> Q) (a b : list Q) :
  length a = length b ->
  zip_with f a b = map (fun i => f (nth i a 0) (nth i b 0)) (seq 0 (length a)).
Proof.
  revert b; induction a as [|x a IH]; intros [|y b] H; simpl in H; try discriminate.
  - reflexivity.
  - cbn [zip_with length seq map nth].
    rewrite <- seq_shift, map_map, (IH b) by lia; reflexivity.
Qed.

Lemma zip_with_length (f : Q -> Q -> Q) (a b : list Q) :
  length a = length b -> length (zip_with f a b) = length a.
Proof.
  revert b; induction a as [|x a IH]; intros [|y b] H; simpl in H; try discriminate.
  - reflexivity.
  - cbn [zip_with length]; now rewrite IH by lia.
Qed.

Lemma broadcast2_same_length (f : Q -> Q -> Q) (a b : list Q) :
  length a = length b -> broadcast2 f a b = Ok (zip_with f a b).
Proof. intros H; unfold broadcast2; now rewrite H, Nat.eqb_refl. Qed.

(** What [grad_chisquare] does with priors, on every input: the prior
    derivatives of all the parameters are summed, and the sum is added to
    every component of the gradient of the data term. *)
Lemma grad_chisquare_prior_sum (E : Env) (F : Fitter) (pv ps params g : list Q) :
  length pv = length params -> length ps = length params ->
  grad_chisquare E (set_prior F pv ps false) params = Ok g ->
  grad_chisquare E (set_prior F pv ps true) params
  = Ok (map (fun r =>
               r + np_sum (map (prior_gradient params pv ps) (seq 0 (length params))))
            g).
Proof.
  intros Hpv Hps; unfold grad_chisquare.
  change (jacobian_fit_ansatz_array E (set_prior F pv ps true) params)
    with (jacobian_fit_ansatz_array E (set_prior F pv ps false) params).
  destruct (jacobian_fit_ansatz_array E (set_prior F pv ps false) params) as [j|e|m];
    cbn [bind]; try discriminate.
  change (fit_ansatz_array (set_prior F pv ps true) params)
    with (fit_ansatz_array (set_prior F pv ps false) params).
  destruct (fit_ansatz_array (set_prior F pv ps false) params) as [f|e|m];
    cbn [bind]; try discriminate.
  cbn [set_prior _ydata _cov _fit_inv_cor _checkprior _priorval _priorsigma].
  destruct (broadcast2 Qminus f (_ydata F)) as [d|e|m]; cbn [bind]; try discriminate.
  destruct (rows_div (transpose j) (map (sqrt E) (diagonal (_cov F)))) as [jac|e|m];
    cbn [bind]; try discriminate.
  destruct (inplace2 Qdiv d (map (sqrt E) (diagonal (_cov F)))) as [d'|e|m];
    cbn [bind]; try discriminate.
  destruct (mat_vec (_fit_inv_cor F) d') as [w|e|m]; cbn [bind]; try discriminate.
  destruct (mat_vec jac w) as [v|e|m]; cbn [bind]; try discriminate.
  intros H; injection H as <-.
  rewrite broadcast2_same_length by lia; cbn [bind].
  rewrite broadcast2_same_length
    by (rewrite !length_map, zip_with_length by lia; lia).
  cbn [bind].
  assert (Ht : zip_with Qdiv (map (fun x => 2 * x) (zip_with Qminus params pv))
                 (map (fun s : Q => s ^ 2) ps)
               = map (prior_gradient params pv ps) (seq 0 (length params))).
  { rewrite zip_with_nth by (rewrite !length_map, zip_with_length by lia; lia).
    rewrite length_map, zip_with_length by lia.
    apply map_ext_in; intros i Hi; apply in_seq in Hi.
    unfold prior_gradient.
    rewrite (nth_indep _ 0 ((fun x => 2 * x) 0)), (map_nth (fun x => 2 * x))
      by (rewrite length_map, zip_with_length by lia; lia).
    rewrite (nth_indep (map _ ps) 0 ((fun s : Q => s ^ 2) 0)),
      (map_nth (fun s : Q => s ^ 2)) by (rewrite length_map; lia).
    rewrite zip_with_nth by lia.
    rewrite (nth_indep _ 0 ((fun i => nth i params 0 - nth i pv 0) 0%nat))
      by (rewrite length_map, length_seq; lia).
    rewrite (map_nth (fun i => nth i params 0 - nth i pv 0)), seq_nth by lia.
    reflexivity. }
  rewrite Ht; reflexivity.
Qed.

(** C1 fails on the code.  At the affine example with the priors [0 +- 1]
    on both parameters and the parameters [(1, 0)], the data term of the
    gradient vanishes; the prior term of the claim is [2] in the first
    component and [0] in the second, and [grad_chisquare] returns [2] in
    both: the second component has received the prior derivative of the
    first parameter. *)
Theorem grad_chisquare_prior_term_not_per_component :
  grad_chisquare Examples.toy_env Examples.affine_fitter [1; 0] = Ok [0; 0] /\
  grad_chisquare Examples.toy_env Examples.affine_fitter_priors [1; 0] = Ok [2; 2] /\
  prior_gradient [1; 0] [0; 0] [1; 1] 0 == 2 /\
  prior_gradient [1; 0] [0; 0] [1; 1] 1 == 0 /\
  ~ 2 == 0 + prior_gradient [1; 0] [0; 0] [1; 1] 1.
Proof.
  split; [vm_compute; reflexivity |].
  split; [vm_compute; reflexivity |].
  split; [vm_compute; reflexivity |].
  split; [vm_compute; reflexivity |].
  vm_compute; intros H; discriminate H.
Qed.

(** ** try_fit: a prior mean without a prior sigma, or the reverse *)

Import FitReference.

Lemma check_start_params_outcome (F : Fitter) :
  (exists v, _func F (_saved_params F) = Ok v /\ check_start_params F = Ok F) \/
  ((forall v, _func F (_saved_params F) <> Ok v) /\
   forall F', check_start_params F <> Ok F').
Proof.
  unfold check_start_params.
  destruct (_func F (_saved_params F)) as [v|e|m].
  - left; exists v; split; reflexivity.
  - right; split; [intros v H; discriminate H |].
    intros F' H.
    destruct (_get_numb_params F) as [n|e'|m]; cbn [bind] in H; try discriminate H.
    destruct (np_ones n) as [o|e'|m]; cbn [bind] in H; discriminate H.
  - right; split; [intros v H | intros F' H]; discriminate H.
Qed.

(** C5, as the claim states it, fails when the lone prior mean does not
    suit the fit function: for the one-parameter line and a prior mean of
    two entries, the check of the start parameters raises the [TypeError] of
    the fit function again, and the configuration error is never reached. *)
Lemma try_fit_lone_prior_raises_TypeError :
  try_fit Examples.toy_env Examples.line_fitter algs_None None (Some [1; 2]) None false
  = ([], Raise (Exn "TypeError" "line() takes 2 positional arguments")).
Proof. vm_compute; reflexivity. Qed.

(** C5, amended.  In a [try_fit] call with a prior mean and no prior sigma,
    or the reverse, no optimization attempt is dispatched and the call does
    not return: it ends in the fatal configuration error whenever the fit
    function accepts the start parameters, and otherwise in the error of the
    check of the start parameters. *)
Theorem try_fit_lone_prior_stops_before_attempts (E : Env) (F : Fitter)
  (algorithms : algorithms_arg) (start_params priorval priorsigma : option (list Q))
  (detailedInfo : bool) :
  (priorval = None /\ priorsigma <> None) \/ (priorval <> None /\ priorsigma = None) ->
  exists out,
    try_fit E F algorithms start_params priorval priorsigma detailedInfo = ([], out) /\
    (forall r, out <> Ok r) /\
    ((exists v, _func F (effective_start F start_params priorval) = Ok v) ->
     out = Fatal (match priorsigma with
                  | Some _ => "priorsigma passed but priorval is None"
                  | None => "priorval passed but priorsigma is None"
                  end)).
Proof.
  intros Hlone; unfold try_fit, try_fit_setup.
  set (sp := match priorval, start_params with
             | Some pv, None => Some pv
             | _, _ => start_params
             end).
  set (F1 := match sp with
             | Some s => set_saved_params F s
             | None => F
             end).
  assert (Hsp : _saved_params F1 = effective_start F start_params priorval).
  { unfold F1, sp, effective_start.
    destruct priorval, start_params; reflexivity. }
  assert (Hf : _func F1 = _func F).
  { unfold F1; destruct sp; reflexivity. }
  destruct (check_start_params_outcome F1) as [[v [Hv Hc]]|[Hno Hc]].
  - rewrite Hc; cbn [bind].
    destruct Hlone as [[-> Hps]|[Hpv ->]].
    + destruct priorsigma as [ps|]; [| contradiction]; cbn [bind].
      eexists; split; [reflexivity |].
      split; [intros r H; discriminate H | reflexivity].
    + destruct priorval as [pv|]; [| contradiction]; cbn [bind].
      eexists; split; [reflexivity |].
      split; [intros r H; discriminate H | reflexivity].
  - destruct (check_start_params F1) as [F'|e|m] eqn:Hcheck.
    + exfalso; exact (Hc F' eq_refl).
    + cbn [bind]; eexists; split; [reflexivity |].
      split; [intros r H; discriminate H |].
      intros [v Hv]; exfalso; apply (Hno v); rewrite Hf, Hsp; exact Hv.
    + cbn [bind]; eexists; split; [reflexivity |].
      split; [intros r H; discriminate H |].
      intros [v Hv]; exfalso; apply (Hno v); rewrite Hf, Hsp; exact Hv.
Qed.

(** The amended statement at the line example: a prior mean of one entry,
    which the fit function accepts, and no prior sigma. *)
Lemma try_fit_lone_prior_stops_before_attempts_witness :
  exists out,
    try_fit Examples.toy_env Examples.line_fitter algs_None None (Some [1]) None false
    = ([], out) /\
    (forall r, out <> Ok r) /\
    ((exists v, _func Examples.line_fitter
                  (effective_start Examples.line_fitter None (Some [1])) = Ok v) ->
     out = Fatal "priorval passed but priorsigma is None").
Proof.
  apply (try_fit_lone_prior_stops_before_attempts
           Examples.toy_env Examples.line_fitter algs_None None (Some [1]) None false).
  right; split; [discriminate | reflexivity].
Defined.

(** ** try_fit: the search over the algorithms *)




(** *** [np.argmin] on chi-squares without [nan] *)






Lemma general_fit_dof (E : Env) (F : Fitter) (algorithm : string) (f : fit) :
  _general_fit E F algorithm = Ok f -> exists dof, getDOF F (fit_params f) = Ok dof.
Proof.
  unfold _general_fit; intros H.
  apply bind_Ok_inv in H; destruct H as [[params chi2] [_ H]].
  apply bind_Ok_inv in H; destruct H as [[pcov errors] [Hc H]].
  injection H as <-; cbn [fit_params].
  unfold compute_err in Hc.
  apply bind_Ok_inv in Hc; destruct Hc as [dof [Hd _]].
  exists dof; exact Hd.
Qed.







(* ================================================================= *)
(** * Part III: further properties of the estimators *)

(** ** Constant samples and the jackknife mean *)

Lemma np_mean_repeat (c : Q) (n : nat) : (1 <= n)%nat -> np_mean (repeat c n) == c.
Proof.
  intros H; unfold np_mean, len.
  rewrite np_sum_repeat, repeat_length.
  field; apply of_int_nonzero; lia.
Qed.

(** X1.  On a sample of [n >= 2] identical values [std_mean] returns that
    value and [std_var] returns zero. *)
Theorem std_mean_var_constant (c : Q) (n : nat) :
  (2 <= n)%nat ->
  (exists m, std_mean (repeat c n) = Ok m /\ m == c) /\
  (exists v, std_var (repeat c n) = Ok (Num v) /\ v == 0).
Proof.
  intros Hn.
  assert (Hl : length (repeat c n) = n) by apply repeat_length.
  split.
  - exists (np_mean (repeat c n)); split.
    + unfold std_mean; apply reduce_tuple_nonempty; lia.
    + apply np_mean_repeat; lia.
  - unfold std_var; rewrite reduce_tuple_nonempty by lia.
    unfold np_var.
    assert (Hr : Z.max (len (repeat c n) - 1) 0 = (Z.of_nat n - 1)%Z)
      by (unfold len; rewrite Hl; lia).
    rewrite Hr.
    destruct (Z.eqb_spec (Z.of_nat n - 1) 0) as [E|_]; [lia |].
    eexists; split; [reflexivity |].
    rewrite map_repeat, np_sum_repeat.
    rewrite (np_mean_repeat c n) by lia.
    field; apply of_int_nonzero; lia.
Qed.

Lemma std_mean_var_constant_witness :
  (exists m, std_mean (repeat 7 3) = Ok m /\ m == 7) /\
  (exists v, std_var (repeat 7 3) = Ok (Num v) /\ v == 0).
Proof. apply (std_mean_var_constant 7 3); lia. Defined.

Lemma len_map {A B : Type} (f : A -> B) (l : list A) : len (map f l) = len l.
Proof. unfold len; now rewrite length_map. Qed.

Lemma np_sum_map_scaled_complement (a b : Q) (l : list Q) :
  np_sum (map (fun xi => a * (b - xi)) l) == a * (of_int (len l) * b - np_sum l).
Proof.
  induction l as [|x l IH]; cbn [map].
  - unfold np_sum, len, of_int; cbn [fold_left length Z.of_nat inject_Z]; ring.
  - rewrite !np_sum_cons, IH.
    unfold len, of_int; cbn [length].
    rewrite Nat2Z.inj_succ, <- Z.add_1_r, inject_Z_plus.
    change (inject_Z 1) with 1; ring.
Qed.

(** X2.  Jackknife resampling keeps the length and the mean of the sample:
    for [n >= 2] the mean of [jackknifeFrom x] is the mean of [x]. *)
Theorem jackknifeFrom_keeps_mean (x : list Q) :
  (2 <= length x)%nat ->
  exists xj, jackknifeFrom x = Ok xj /\ length xj = length x /\ np_mean xj == np_mean x.
Proof.
  intros Hn.
  assert (Hlen : (2 <= len x)%Z) by (unfold len; lia).
  rewrite jackknifeFrom_ok by exact Hlen.
  eexists; split; [reflexivity |].
  unfold jackknife_row; split; [apply length_map |].
  unfold np_mean at 1.
  rewrite np_sum_map_scaled_complement.
  rewrite len_map.
  unfold np_mean.
  field; split; [| rewrite of_int_pred]; apply of_int_nonzero; lia.
Qed.

Lemma jackknifeFrom_keeps_mean_witness :
  exists xj, jackknifeFrom [1; 2; 6] = Ok xj /\ length xj = length [1; 2; 6] /\
             np_mean xj == np_mean [1; 2; 6].
Proof. apply (jackknifeFrom_keeps_mean [1; 2; 6]); simpl; lia. Defined.

(** ** tauint: when it returns, and the maximum lag *)

Lemma tauint_guards (nt : Z) (ts : list Q) (xhat : option Q) :
  ((length ts < 2)%nat -> tauint nt ts xhat = Fatal "Need ndat>1.") /\
  ((2 <= length ts)%nat -> (len ts <= nt)%Z -> tauint nt ts xhat = Fatal "Need nt>ndat.") /\
  ((exists acint, tauint nt ts xhat = Ok acint) <-> (2 <= length ts)%nat /\ (nt < len ts)%Z) /\
  (forall e, tauint nt ts xhat <> Raise e).
Proof.
  assert (H1 : (length ts < 2)%nat -> tauint nt ts xhat = Fatal "Need ndat>1.").
  { intros H; unfold tauint, TBError_if.
    destruct (Z.ltb_spec (len ts) 2) as [_|Hge]; [reflexivity | unfold len in Hge; lia]. }
  assert (H2 : (2 <= length ts)%nat -> (len ts <= nt)%Z ->
               tauint nt ts xhat = Fatal "Need nt>ndat.").
  { intros Hn H; unfold tauint, TBError_if.
    destruct (Z.ltb_spec (len ts) 2) as [Hlt|_]; [unfold len in Hlt; lia |].
    destruct (Z.geb_spec nt (len ts)) as [_|Hlt]; [reflexivity | lia]. }
  split; [exact H1 | split; [exact H2 |]].
  destruct (Nat.lt_ge_cases (length ts) 2) as [Hs|Hn].
  - rewrite (H1 Hs); split; [split |]; try (intros [a Ha]; discriminate Ha);
      try (intros [Hc _]; lia); intros e He; discriminate He.
  - destruct (Z.le_gt_cases (len ts) nt) as [Hb|Hb].
    + rewrite (H2 Hn Hb); split; [split |]; try (intros [a Ha]; discriminate Ha);
        try (intros [_ Hc]; lia); intros e He; discriminate He.
    + destruct (tauint_returns nt ts xhat Hn ltac:(lia)) as [a [Ha _]].
      rewrite Ha; split; [split |].
      * intros _; split; [exact Hn | lia].
      * intros _; exists a; reflexivity.
      * intros e He; discriminate He.
Qed.



(** X4.  The estimate at a lag does not depend on the maximum lag asked
    for: with a smaller maximum lag [tauint] returns the first entries of
    the list it returns with a larger one. *)
Theorem tauint_prefix (nt1 nt2 : Z) (ts : list Q) (xhat : option Q)
  (a1 a2 : list Q) :
  (0 <= nt1 <= nt2)%Z ->
  tauint nt1 ts xhat = Ok a1 -> tauint nt2 ts xhat = Ok a2 ->
  a1 = firstn (Z.to_nat (nt1 + 1)) a2.
Proof.
  intros Hnt Ht1 Ht2.
  assert (Hg : (2 <= length ts)%nat /\ (nt2 < len ts)%Z).
  { unfold tauint, TBError_if in Ht2.
    destruct (Z.ltb_spec (len ts) 2) as [Hlt|Hge]; [discriminate Ht2 |].
    destruct (Z.geb_spec nt2 (len ts)) as [Hlt|Hge']; [discriminate Ht2 |].
    unfold len in Hge; split; lia. }
  destruct Hg as [Hn Hlt].
  destruct (tauint_returns nt1 ts xhat Hn ltac:(lia)) as [b1 [Hb1 [Hl1 [H01 Hr1]]]].
  destruct (tauint_returns nt2 ts xhat Hn Hlt) as [b2 [Hb2 [Hl2 [H02 Hr2]]]].
  rewrite Hb1 in Ht1; injection Ht1 as <-.
  rewrite Hb2 in Ht2; injection Ht2 as <-.
  assert (Hent : forall k : nat, (Z.of_nat k <= nt1)%Z -> nth k b1 0 = nth k b2 0).
  { induction k as [|k IH]; intros Hk.
    - now rewrite H01, H02.
    - specialize (Hr1 (Z.of_nat (S k)) ltac:(lia)).
      specialize (Hr2 (Z.of_nat (S k)) ltac:(lia)).
      rewrite Nat2Z.id in Hr1, Hr2.
      replace (Z.to_nat (Z.of_nat (S k) - 1)) with k in Hr1, Hr2 by lia.
      rewrite Hr1, Hr2, IH by lia; reflexivity. }
  apply (nth_ext _ _ 0 0).
  - rewrite firstn_length_le; unfold len in Hl1, Hl2; lia.
  - intros k Hk.
    rewrite nth_firstn.
    destruct (Nat.ltb_spec k (Z.to_nat (nt1 + 1))) as [_|Hge];
      [| unfold len in Hl1; lia].
    apply Hent; unfold len in Hl1; lia.
Qed.

Lemma tauint_prefix_witness :
  exists a1 a2,
    tauint 1 [1; 2; 4; 3] None = Ok a1 /\ tauint 2 [1; 2; 4; 3] None = Ok a2 /\
    a1 = firstn (Z.to_nat (1 + 1)) a2.
Proof.
  destruct (tauint 1 [1; 2; 4; 3] None) as [a1|e|m] eqn:H1;
    [| exfalso; revert H1; vm_compute; discriminate ..].
  destruct (tauint 2 [1; 2; 4; 3] None) as [a2|e|m] eqn:H2;
    [| exfalso; revert H2; vm_compute; discriminate ..].
  exists a1, a2; split; [reflexivity | split; [reflexivity |]].
  apply (tauint_prefix 1 2 [1; 2; 4; 3] None a1 a2); [lia | exact H1 | exact H2].
Defined.

(** ** tauintj and getTauInt: guards, and no index out of range *)

Lemma tauintj_guards (nt nbins : Z) (ts : list Q) (xhat : option Q) :
  ((length ts < 2)%nat -> tauintj nt nbins ts xhat = Fatal "Need ndat>1.") /\
  ((2 <= length ts)%nat -> (nbins < 2)%Z ->
     tauintj nt nbins ts xhat = Fatal "Need nbins>1.") /\
  (forall e, tauintj nt nbins ts xhat <> Raise e).
Proof.
  assert (H1 : (length ts < 2)%nat -> tauintj nt nbins ts xhat = Fatal "Need ndat>1.").
  { intros H; unfold tauintj, TBError_if.
    destruct (Z.ltb_spec (len ts) 2) as [_|Hge]; [reflexivity | unfold len in Hge; lia]. }
  assert (H2 : (2 <= length ts)%nat -> (nbins < 2)%Z ->
               tauintj nt nbins ts xhat = Fatal "Need nbins>1.").
  { intros Hn H; unfold tauintj, TBError_if.
    destruct (Z.ltb_spec (len ts) 2) as [Hlt|_]; [unfold len in Hlt; lia |].
    destruct (Z.ltb_spec nbins 2) as [_|Hge]; [reflexivity | lia]. }
  split; [exact H1 | split; [exact H2 |]].
  intros e He.
  destruct (Nat.lt_ge_cases (length ts) 2) as [Hs|Hn];
    [rewrite (H1 Hs) in He; discriminate He |].
  destruct (Z.lt_ge_cases nbins 2) as [Hb|Hb];
    [rewrite (H2 Hn Hb) in He; discriminate He |].
  destruct (Z_le_dec 0 nt) as [Hnt|Hnt];
    [destruct (lag_reaches_last_block_dec (len ts) nbins nt) as [Hr|Hr] |].
  - rewrite (tauintj_stops nt nbins ts xhat Hn Hb Hnt Hr) in He; discriminate He.
  - destruct (tauintj_returns nt nbins ts xhat Hn Hb) as [a [Ha _]];
      [intros [_ H]; exact (Hr H) |].
    rewrite Ha in He; discriminate He.
  - destruct (tauintj_returns nt nbins ts xhat Hn Hb) as [a [Ha _]];
      [intros [H _]; exact (Hnt H) |].
    rewrite Ha in He; discriminate He.
Qed.

(** X5.  [tauintj] checks the series first and the number of bins second,
    and whatever its input it either returns or stops with a fatal call: it
    never raises an exception, no index leaves the series or a row. *)
Theorem tauintj_guards_never_raises (nt nbins : Z) (ts : list Q) (xhat : option Q) :
  ((length ts < 2)%nat -> tauintj nt nbins ts xhat = Fatal "Need ndat>1.") /\
  ((2 <= length ts)%nat -> (nbins < 2)%Z ->
     tauintj nt nbins ts xhat = Fatal "Need nbins>1.") /\
  (forall e, tauintj nt nbins ts xhat <> Raise e).
Proof. exact (tauintj_guards nt nbins ts xhat). Qed.

Lemma tauintj_guards_never_raises_witness :
  tauintj 1 2 [5] None = Fatal "Need ndat>1." /\
  tauintj 1 1 [1; 2; 3; 4] None = Fatal "Need nbins>1.".
Proof.
  split.
  - apply (proj1 (tauintj_guards_never_raises 1 2 [5] None)); simpl; lia.
  - apply (proj1 (proj2 (tauintj_guards_never_raises 1 1 [1; 2; 3; 4] None)));
      [simpl; lia | lia].
Defined.



(** X6.  [getTauInt] returns exactly when [tauint] and [tauintj] both
    return for the maximum lag, and it never raises an exception. *)
Theorem getTauInt_returns_iff (np_sqrt : Q -> Q) (ts : list Q) (nbins tpickMax : Z) :
  ((exists s, getTauInt np_sqrt ts nbins tpickMax = Ok s)
   <-> (exists acint, tauint tpickMax ts None = Ok acint) /\
       (exists acintj, tauintj tpickMax nbins ts None = Ok acintj)) /\
  (forall e, getTauInt np_sqrt ts nbins tpickMax <> Raise e).
Proof.
  assert (Hboth : forall acint acintj,
            tauint tpickMax ts None = Ok acint ->
            tauintj tpickMax nbins ts None = Ok acintj ->
            exists s, getTauInt np_sqrt ts nbins tpickMax = Ok s).
  { intros acint acintj Ha Hj.
    unfold getTauInt; rewrite Ha, Hj; cbn [bind].
    destruct (Z_le_dec 0 tpickMax) as [Hmax|Hmax].
    - destruct (tauint_Ok_inv _ _ _ _ Ha) as [Hla H0].
      pose proof (tauintj_Ok_inv _ _ _ _ _ Hj) as Hlj.
      destruct (getTauInt_scan np_sqrt nbins acint acintj tpickMax) as [s [Hrun _]];
        try lia; try assumption.
      exists s; exact Hrun.
    - unfold range; rewrite range2_nil by lia; eexists; reflexivity. }
  split; [split |].
  - intros [s Hs]; unfold getTauInt in Hs.
    apply bind_Ok_inv in Hs; destruct Hs as [acint [Ha Hs]].
    apply bind_Ok_inv in Hs; destruct Hs as [acintj [Hj _]].
    split; [exists acint; exact Ha | exists acintj; exact Hj].
  - intros [[acint Ha] [acintj Hj]]; exact (Hboth acint acintj Ha Hj).
  - intros e He.
    destruct (tauint tpickMax ts None) as [acint|e'|m] eqn:Ha.
    + destruct (tauintj tpickMax nbins ts None) as [acintj|e'|m] eqn:Hj.
      * destruct (Hboth acint acintj eq_refl eq_refl) as [s Hs].
        rewrite Hs in He; discriminate He.
      * exact (proj2 (proj2 (tauintj_guards tpickMax nbins ts None)) e' Hj).
      * unfold getTauInt in He; rewrite Ha, Hj in He; discriminate He.
    + exact (proj2 (proj2 (proj2 (tauint_guards tpickMax ts None))) e' Ha).
    + unfold getTauInt in He; rewrite Ha in He; discriminate He.
Qed.







Lemma getTauInt_returns_iff_witness :
  exists s, getTauInt (fun q => q) [1; 3; 2; 4; 3; 5; 4; 6] 2 1 = Ok s.
Proof.
  apply (proj2 (proj1 (getTauInt_returns_iff (fun q => q) [1; 3; 2; 4; 3; 5; 4; 6] 2 1))).
  split.
  - destruct (tauint 1 [1; 3; 2; 4; 3; 5; 4; 6] None) as [acint|e|m] eqn:H1;
      [exists acint; reflexivity | exfalso; revert H1; vm_compute; discriminate ..].
  - destruct (tauintj 1 2 [1; 3; 2; 4; 3; 5; 4; 6] None) as [acintj|e|m] eqn:H2;
      [exists acintj; reflexivity | exfalso; revert H2; vm_compute; discriminate ..].
Defined.

(** ** Weighted estimators *)

Import Weighted.

Lemma np_sum_zip_repeat_l (c : Q) (l : list Q) :
  np_sum (zip_with Qmult (repeat c (length l)) l) == c * np_sum l.
Proof.
  induction l as [|x l IH]; cbn [length repeat zip_with].
  - unfold np_sum; cbn [fold_left]; ring.
  - rewrite !np_sum_cons, IH; ring.
Qed.

Lemma np_sum_zip_repeat_r (c : Q) (l : list Q) :
  np_sum (zip_with Qmult l (repeat c (length l))) == c * np_sum l.
Proof.
  induction l as [|x l IH]; cbn [length repeat zip_with].
  - unfold np_sum; cbn [fold_left]; ring.
  - rewrite !np_sum_cons, IH; ring.
Qed.

Lemma dot_same_length (v w : list Q) :
  length v = length w -> dot v w = Ok (np_sum (zip_with Qmult v w)).
Proof. intros H; unfold dot; now rewrite H, Nat.eqb_refl. Qed.

(** X9.  [weighted_mean] raises when data and weights differ in length;
    on constant data it returns the constant whatever the weights (of
    non-zero sum), and with equal non-zero weights it returns the arithmetic
    mean. *)
Theorem weighted_mean_cases (data weights : list Q) :
  (length data <> length weights ->
     weighted_mean data weights = Raise (ValueError "shapes not aligned")) /\
  (forall c, data = repeat c (length weights) -> ~ np_sum weights == 0 ->
     exists m, weighted_mean data weights = Ok m /\ m == c) /\
  (forall w, weights = repeat w (length data) -> (1 <= length data)%nat -> ~ w == 0 ->
     exists m, weighted_mean data weights = Ok m /\ m == np_mean data).
Proof.
  split; [| split].
  - intros H; unfold weighted_mean, dot.
    destruct (Nat.eqb_spec (length data) (length weights)); [contradiction | reflexivity].
  - intros c -> Hw; unfold weighted_mean.
    rewrite dot_same_length by apply repeat_length; cbn [bind].
    eexists; split; [reflexivity |].
    rewrite np_sum_zip_repeat_l; field; exact Hw.
  - intros w -> Hn Hw; unfold weighted_mean.
    rewrite dot_same_length by (now rewrite repeat_length); cbn [bind].
    eexists; split; [reflexivity |].
    rewrite np_sum_zip_repeat_r, np_sum_repeat; unfold np_mean, len.
    field; split; [apply of_int_nonzero; lia | exact Hw].
Qed.

Lemma weighted_mean_cases_witness :
  weighted_mean [1; 2] [1] = Raise (ValueError "shapes not aligned") /\
  (exists m, weighted_mean [4; 4; 4] [1; 2; 3] = Ok m /\ m == 4) /\
  (exists m, weighted_mean [1; 2; 6] [2; 2; 2] = Ok m /\ m == np_mean [1; 2; 6]).
Proof.
  split; [| split].
  - apply (proj1 (weighted_mean_cases [1; 2] [1])); simpl; lia.
  - apply (proj1 (proj2 (weighted_mean_cases [4; 4; 4] [1; 2; 3])) 4);
      [reflexivity | vm_compute; discriminate].
  - apply (proj2 (proj2 (weighted_mean_cases [1; 2; 6] [2; 2; 2])) 2);
      [reflexivity | simpl; lia | vm_compute; discriminate].
Defined.

Lemma zip_with_map_map (f g : Q -> Q) (l : list Q) :
  zip_with Qmult (map f l) (map g l) = map (fun x => f x * g x) l.
Proof. induction l as [|x l IH]; cbn [map zip_with]; [reflexivity | now rewrite IH]. Qed.

Lemma np_sum_map_ext_in (f g : Q -> Q) (l : list Q) :
  (forall x, In x l -> f x == g x) -> np_sum (map f l) == np_sum (map g l).
Proof.
  intros H; induction l as [|x l IH]; cbn [map].
  - reflexivity.
  - rewrite !np_sum_cons, IH, (H x) by (try (intros y Hy; apply H; right; exact Hy);
                                        left; reflexivity).
    reflexivity.
Qed.

(** X10.  With the default weights [1/errors**2] and no error equal to
    zero, [weighted_mean_variance] is the inverse of the sum of the inverse
    squared errors. *)
Theorem weighted_mean_variance_default (errors : list Q) :
  (forall e, In e errors -> ~ e == 0) ->
  exists v, weighted_mean_variance errors None = Ok v /\
            v == 1 / np_sum (map (fun e => 1 / e ^ 2) errors).
Proof.
  intros Hnz; unfold weighted_mean_variance.
  rewrite broadcast2_same_length by (now rewrite !length_map); cbn [bind].
  eexists; split; [reflexivity |].
  rewrite map_map, zip_with_map_map.
  rewrite (np_sum_map_ext_in _ (fun e => 1 / e ^ 2)).
  - set (W := np_sum (map (fun e => 1 / e ^ 2) errors)).
    destruct (Qeq_dec W 0) as [Hz|Hz].
    + rewrite Hz; reflexivity.
    + field; exact Hz.
  - intros e He; simpl; field; exact (Hnz e He).
Qed.

Lemma weighted_mean_variance_default_witness :
  exists v, weighted_mean_variance [1; 2] None = Ok v /\
            v == 1 / np_sum (map (fun e => 1 / e ^ 2) [1; 2]).
Proof.
  apply (weighted_mean_variance_default [1; 2]).
  intros e [<-|[<-|[]]]; vm_compute; discriminate.
Defined.

Lemma weighted_mean_equal_weights (data : list Q) (w : Q) :
  (1 <= length data)%nat -> ~ w == 0 ->
  exists m, weighted_mean data (repeat w (length data)) = Ok m /\ m == np_mean data.
Proof.
  intros Hn Hw; unfold weighted_mean.
  rewrite dot_same_length by (now rewrite repeat_length); cbn [bind].
  eexists; split; [reflexivity |].
  rewrite np_sum_zip_repeat_r, np_sum_repeat; unfold np_mean, len.
  field; split; [apply of_int_nonzero; lia | exact Hw].
Qed.

Lemma biased_sample_variance_equal_weights (data : list Q) (w : Q) :
  (1 <= length data)%nat -> ~ w == 0 ->
  exists b, biased_sample_variance data (repeat w (length data)) = Ok b /\
            b == np_sum (map (fun x => (x - np_mean data) ^ 2) data) / of_int (len data).
Proof.
  intros Hn Hw; unfold biased_sample_variance.
  destruct (weighted_mean_equal_weights data w Hn Hw) as [m [-> Hm]]; cbn [bind].
  rewrite dot_same_length by (now rewrite repeat_length, length_map); cbn [bind].
  eexists; split; [reflexivity |].
  rewrite <- (length_map (fun x => (x - m) ^ 2) data) at 1.
  rewrite np_sum_zip_repeat_l, np_sum_repeat.
  rewrite (np_sum_map_ext _ (fun x => (x - np_mean data) ^ 2))
    by (intros x; rewrite Hm; reflexivity).
  unfold len; field; split; [apply of_int_nonzero; lia | exact Hw].
Qed.

(** X11.  With equal non-zero weights and at least two data points, the
    unbiased weighted sample variance is the Bessel-corrected variance of
    [std_var], and the unbiased variance of the weighted mean is that
    variance over the number of data points. *)
Theorem unbiased_variances_equal_weights (data : list Q) (w : Q) :
  (2 <= length data)%nat -> ~ w == 0 ->
  (exists v, unbiased_sample_variance data (repeat w (length data)) = Ok v /\
             v == bessel_var data) /\
  (exists v, unbiased_mean_variance data (repeat w (length data)) = Ok v /\
             v == bessel_var data / of_int (len data)).
Proof.
  intros Hn Hw.
  destruct (biased_sample_variance_equal_weights data w ltac:(lia) Hw) as [b [Hb Hbv]].
  assert (HN : ~ of_int (len data) == 0) by (apply of_int_nonzero; unfold len; lia).
  assert (HN1 : ~ of_int (len data) - 1 == 0)
    by (rewrite of_int_pred; apply of_int_nonzero; unfold len; lia).
  assert (HV1 : np_sum (repeat w (length data)) == of_int (len data) * w)
    by apply np_sum_repeat.
  assert (HV2 : np_sum (map (fun x : Q => x ^ 2) (repeat w (length data)))
                == of_int (len data) * w ^ 2)
    by (rewrite map_repeat; apply np_sum_repeat).
  split.
  - unfold unbiased_sample_variance; rewrite Hb; cbn [bind].
    eexists; split; [reflexivity |].
    rewrite HV1, HV2, Hbv; unfold bessel_var.
    field; conjs; assumption.
  - unfold unbiased_mean_variance; rewrite Hb; cbn [bind].
    eexists; split; [reflexivity |].
    rewrite HV1, HV2, Hbv; unfold bessel_var.
    assert (HD : ~ (of_int (len data) * w) ^ 2 - of_int (len data) * w ^ 2 == 0).
    { intros E.
      assert (E' : of_int (len data) * (w * (w * (of_int (len data) - 1))) == 0)
        by (rewrite <- E; ring).
      apply Qmult_integral in E'; destruct E' as [E'|E']; [exact (HN E') |].
      apply Qmult_integral in E'; destruct E' as [E'|E']; [exact (Hw E') |].
      apply Qmult_integral in E'; destruct E' as [E'|E']; [exact (Hw E') | exact (HN1 E')]. }
    field; conjs; assumption.
Qed.

Lemma unbiased_variances_equal_weights_witness :
  (exists v, unbiased_sample_variance [1; 2; 6] (repeat 2 (length [1; 2; 6])) = Ok v /\
             v == bessel_var [1; 2; 6]) /\
  (exists v, unbiased_mean_variance [1; 2; 6] (repeat 2 (length [1; 2; 6])) = Ok v /\
             v == bessel_var [1; 2; 6] / of_int (len [1; 2; 6])).
Proof.
  apply (unbiased_variances_equal_weights [1; 2; 6] 2);
    [simpl; lia | vm_compute; discriminate].
Defined.

(** ** Correlation matrices *)

Lemma Qmult_comm_eq (x y : Q) : x * y = y * x.
Proof.
  destruct x as [a b], y as [c d]; unfold Qmult; cbn [Qnum Qden].
  f_equal; [apply Z.mul_comm | apply Pos.mul_comm].
Qed.

Lemma nth_map_seq {A : Type} (f : nat -> A) (n i : nat) (d : A) :
  (i < n)%nat -> nth i (map f (seq 0 n)) d = f i.
Proof.
  intros H.
  rewrite (nth_indep _ d (f 0%nat)) by (rewrite length_map, length_seq; exact H).
  rewrite (map_nth f), seq_nth by exact H; reflexivity.
Qed.

Lemma norm_cov_entry (E : Env) (cov : matrix) (i j : nat) :
  (i < length cov)%nat -> (j < length (nth 0 cov []))%nat ->
  nth j (nth i (norm_cov E cov) []) 0
  = nth j (nth i cov []) 0
    / sqrt E (nth j (nth j cov []) 0 * nth i (nth i cov []) 0).
Proof.
  intros Hi Hj; unfold norm_cov.
  rewrite (nth_map_seq _ _ i []) by exact Hi.
  rewrite (nth_map_seq _ _ j 0) by exact Hj.
  reflexivity.
Qed.

(** X12.  [norm_cov] of a symmetric [n x n] covariance matrix is
    symmetric; where the square root undoes the square of a non-zero
    diagonal entry, the diagonal of the correlation matrix is one. *)
Theorem norm_cov_symmetric_unit_diagonal (E : Env) (cov : matrix) :
  (forall i, (i < length cov)%nat -> length (nth i cov []) = length cov) ->
  (forall i j, (i < length cov)%nat -> (j < length cov)%nat ->
     nth j (nth i cov []) 0 = nth i (nth j cov []) 0) ->
  length (norm_cov E cov) = length cov /\
  (forall i j, (i < length cov)%nat -> (j < length cov)%nat ->
     nth j (nth i (norm_cov E cov) []) 0 = nth i (nth j (norm_cov E cov) []) 0) /\
  (forall i, (i < length cov)%nat ->
     sqrt E (nth i (nth i cov []) 0 * nth i (nth i cov []) 0) == nth i (nth i cov []) 0 ->
     ~ nth i (nth i cov []) 0 == 0 ->
     nth i (nth i (norm_cov E cov) []) 0 == 1).
Proof.
  intros Hsq Hsym.
  assert (H0 : forall i, (i < length cov)%nat -> (i < length (nth 0 cov []))%nat).
  { intros i Hi; rewrite Hsq; lia. }
  split; [unfold norm_cov; now rewrite length_map, length_seq | split].
  - intros i j Hi Hj.
    rewrite !norm_cov_entry by auto.
    rewrite (Hsym i j Hi Hj), (Qmult_comm_eq (nth j (nth j cov []) 0)); reflexivity.
  - intros i Hi Hsqrt Hnz.
    rewrite norm_cov_entry by auto.
    rewrite Hsqrt; field; exact Hnz.
Qed.

Lemma norm_cov_symmetric_unit_diagonal_witness :
  length (norm_cov RootExamples.root_env RootExamples.cov49) = length RootExamples.cov49 /\
  (forall i j, (i < 2)%nat -> (j < 2)%nat ->
     nth j (nth i (norm_cov RootExamples.root_env RootExamples.cov49) []) 0
     = nth i (nth j (norm_cov RootExamples.root_env RootExamples.cov49) []) 0) /\
  nth 0 (nth 0 (norm_cov RootExamples.root_env RootExamples.cov49) []) 0 == 1.
Proof.
  destruct (norm_cov_symmetric_unit_diagonal RootExamples.root_env RootExamples.cov49)
    as [Hl [Hs Hd]].
  - intros [|[|i]] Hi; simpl in Hi; try lia; reflexivity.
  - intros [|[|i]] [|[|j]] Hi Hj; simpl in Hi, Hj; try lia; reflexivity.
  - split; [exact Hl | split; [exact Hs |]].
    apply (Hd 0%nat); [simpl; lia | vm_compute; reflexivity | vm_compute; discriminate].
Defined.

Lemma rem_norm_corr_entry (corr : matrix) (edata : list Q) (i j : nat) :
  (i < length corr)%nat -> (j < length (nth 0 corr []))%nat ->
  nth j (nth i (rem_norm_corr corr edata) []) 0
  = nth j (nth i corr []) 0 * nth i edata 0 * nth j edata 0.
Proof.
  intros Hi Hj; unfold rem_norm_corr.
  rewrite (nth_map_seq _ _ i []) by exact Hi.
  rewrite (nth_map_seq _ _ j 0) by exact Hj.
  reflexivity.
Qed.

(** X13.  From the correlation matrix back to the covariance matrix: for a
    square covariance matrix whose diagonal has non-zero square roots, and a
    square root that is multiplicative on the diagonal entries,
    [rem_norm_corr] applied to [norm_cov cov] and the standard deviations
    [sqrt(diag(cov))] gives back every entry of [cov]. *)
Theorem rem_norm_corr_norm_cov (E : Env) (cov : matrix) :
  (forall i, (i < length cov)%nat -> length (nth i cov []) = length cov) ->
  (forall i, (i < length cov)%nat -> ~ sqrt E (nth i (nth i cov []) 0) == 0) ->
  (forall i j, (i < length cov)%nat -> (j < length cov)%nat ->
     sqrt E (nth j (nth j cov []) 0 * nth i (nth i cov []) 0)
     == sqrt E (nth j (nth j cov []) 0) * sqrt E (nth i (nth i cov []) 0)) ->
  forall i j, (i < length cov)%nat -> (j < length cov)%nat ->
    nth j (nth i (rem_norm_corr (norm_cov E cov) (map (sqrt E) (diagonal cov))) []) 0
    == nth j (nth i cov []) 0.
Proof.
  intros Hsq Hnz Hmul i j Hi Hj.
  assert (Hlen : length (norm_cov E cov) = length cov)
    by (unfold norm_cov; now rewrite length_map, length_seq).
  assert (Hrow0 : length (nth 0 (norm_cov E cov) []) = length cov).
  { unfold norm_cov.
    rewrite (nth_map_seq _ _ 0%nat []) by lia.
    rewrite length_map, length_seq; apply Hsq; lia. }
  assert (Hsig : forall k, (k < length cov)%nat ->
                   nth k (map (sqrt E) (diagonal cov)) 0 = sqrt E (nth k (nth k cov []) 0)).
  { intros k Hk.
    rewrite (nth_indep _ 0 (sqrt E 0))
      by (unfold diagonal; rewrite !length_map, length_seq; exact Hk).
    rewrite (map_nth (sqrt E)); unfold diagonal.
    now rewrite (nth_map_seq _ _ k 0) by exact Hk. }
  rewrite rem_norm_corr_entry by lia.
  rewrite norm_cov_entry by (try rewrite Hsq; lia).
  rewrite !Hsig by assumption.
  rewrite (Hmul i j Hi Hj).
  field; split; [apply Hnz; exact Hi | apply Hnz; exact Hj].
Qed.

Lemma rem_norm_corr_norm_cov_witness :
  nth 1 (nth 0 (rem_norm_corr (norm_cov RootExamples.root_env RootExamples.cov49)
                  (map (sqrt RootExamples.root_env) (diagonal RootExamples.cov49))) []) 0
  == nth 1 (nth 0 RootExamples.cov49 []) 0.
Proof.
  apply (rem_norm_corr_norm_cov RootExamples.root_env RootExamples.cov49).
  - intros [|[|i]] Hi; simpl in Hi; try lia; reflexivity.
  - intros [|[|i]] Hi; simpl in Hi; try lia; vm_compute; discriminate.
  - intros [|[|i]] [|[|j]] Hi Hj; simpl in Hi, Hj; try lia; vm_compute; reflexivity.
  - simpl; lia.
  - simpl; lia.
Defined.

(** ** The Hessian strategy for the parameter covariance *)

Lemma fold_min_le_acc (l : list Q) (x : Q) :
  fold_left (fun m y => if Qltb y m then y else m) l x <= x.
Proof.
  revert x; induction l as [|y l IH]; intros x; cbn [fold_left].
  - apply Qle_refl.
  - destruct (Qltb y x) eqn:Hlt.
    + apply (Qle_trans _ y); [apply IH |].
      apply Qlt_le_weak, Qltb_true_lt; exact Hlt.
    + apply IH.
Qed.

Lemma fold_min_le_all (l : list Q) (x y : Q) :
  In y l -> fold_left (fun m z => if Qltb z m then z else m) l x <= y.
Proof.
  revert x; induction l as [|z l IH]; intros x Hy; [destruct Hy |].
  cbn [fold_left]; destruct Hy as [->|Hy]; [| apply IH; exact Hy].
  destruct (Qltb y x) eqn:Hlt.
  - apply fold_min_le_acc.
  - apply (Qle_trans _ x); [apply fold_min_le_acc | apply Qltb_false_le; exact Hlt].
Qed.

Lemma fold_min_In (l : list Q) (x : Q) :
  In (fold_left (fun m z => if Qltb z m then z else m) l x) (x :: l).
Proof.
  revert x; induction l as [|z l IH]; intros x; cbn [fold_left].
  - left; reflexivity.
  - destruct (Qltb z x).
    + destruct (IH z) as [H|H]; [right; left; exact H | right; right; exact H].
    + destruct (IH x) as [H|H]; [left; exact H | right; right; exact H].
Qed.

(** X14.  The Hessian strategy never returns a negative variance: when
    the inverse of the Hessian of the chi-square is not empty, it is
    returned exactly when every diagonal entry is non-negative; otherwise a
    [ValueError] naming the algorithm is raised. *)
Theorem pcov_hessian_variances (inv : matrix -> result matrix) (h pcov : matrix)
  (algorithm : string) :
  inv h = Ok pcov -> pcov <> [] ->
  (pcov_hessian inv (Ok h) algorithm = Ok pcov
   <-> forall i, (i < length pcov)%nat -> 0 <= nth i (nth i pcov []) 0) /\
  (pcov_hessian inv (Ok h) algorithm = Ok pcov \/
   pcov_hessian inv (Ok h) algorithm
   = Raise (ValueError (algorithm ++ ": Negative entries for the variance!"))).
Proof.
  intros Hinv Hne; unfold pcov_hessian; cbn [bind]; rewrite Hinv; cbn [bind].
  assert (Hd : length (diagonal pcov) = length pcov)
    by (unfold diagonal; now rewrite length_map, length_seq).
  destruct (diagonal pcov) as [|x l] eqn:Hdiag.
  { destruct pcov; [contradiction | discriminate Hd]. }
  cbn [np_min bind].
  set (m := fold_left (fun m y => if Qltb y m then y else m) l x).
  assert (Hent : forall i, (i < length pcov)%nat ->
                   In (nth i (nth i pcov []) 0) (x :: l)).
  { intros i Hi; rewrite <- Hdiag; unfold diagonal.
    apply in_map_iff; exists i; split; [reflexivity | apply in_seq; lia]. }
  assert (Hmin : forall y, In y (x :: l) -> m <= y).
  { intros y [<-|Hy]; [apply fold_min_le_acc | apply fold_min_le_all; exact Hy]. }
  assert (Hin : exists i, (i < length pcov)%nat /\ m = nth i (nth i pcov []) 0).
  { pose proof (fold_min_In l x) as Hm; fold m in Hm.
    rewrite <- Hdiag in Hm; unfold diagonal in Hm.
    apply in_map_iff in Hm; destruct Hm as [i [Hi Hs]]; apply in_seq in Hs.
    exists i; split; [lia | now rewrite Hi]. }
  destruct (Qltb m 0) eqn:Hlt.
  - split; [| right; reflexivity].
    split; [intros H; discriminate H |].
    intros Hall; exfalso.
    destruct Hin as [i [Hi Hm]].
    apply Qltb_true_lt in Hlt.
    apply (Qlt_not_le _ _ Hlt); rewrite Hm; apply Hall; exact Hi.
  - split; [| left; reflexivity].
    split; [| reflexivity].
    intros _ i Hi.
    apply (Qle_trans _ m); [apply Qltb_false_le; exact Hlt | apply Hmin, Hent; exact Hi].
Qed.

Lemma pcov_hessian_variances_witness :
  pcov_hessian (fun m => Ok m) (Ok [[1; 0]; [0; -1]]) "TNC"
  = Raise (ValueError "TNC: Negative entries for the variance!").
Proof.
  destruct (pcov_hessian_variances (fun m => Ok m) [[1; 0]; [0; -1]] [[1; 0]; [0; -1]]
              "TNC" eq_refl ltac:(discriminate)) as [_ [H|H]].
  - exfalso; revert H; vm_compute; discriminate.
  - exact H.
Defined.

(* ================================================================= *)
(** * Part IV: further properties of the Fitter *)

(** ** The number of parameters *)

Lemma find_first {A : Type} (f : A -> bool) (l : list A) (x : A) :
  find f l = Some x ->
  exists pre post, l = pre ++ x :: post /\ f x = true /\ forall y, In y pre -> f y = false.
Proof.
  induction l as [|a l IH]; intros H; cbn [find] in H; [discriminate H |].
  destruct (f a) eqn:Ha.
  - injection H as Hax; subst x; exists [], l; repeat split; [exact Ha | intros y []].
  - destruct (IH H) as [pre [post [-> [Hx Hpre]]]].
    exists (a :: pre), post; repeat split; [exact Hx |].
    intros y [<-|Hy]; [exact Ha | apply Hpre; exact Hy].
Qed.

Lemma seq_split_at (a n : nat) (pre post : list nat) (x : nat) :
  seq a n = pre ++ x :: post -> pre = seq a (x - a) /\ (a <= x < a + n)%nat.
Proof.
  intros H.
  assert (Hx : (a <= x < a + n)%nat).
  { apply in_seq; rewrite H; apply in_or_app; right; left; reflexivity. }
  split; [| exact Hx].
  assert (Hl : (length pre < n)%nat).
  { assert (Hs : length (seq a n) = n) by apply length_seq.
    rewrite H, length_app in Hs; simpl in Hs; lia. }
  assert (Hn : nth (length pre) (seq a n) 0%nat = x).
  { rewrite H, app_nth2, Nat.sub_diag by lia; reflexivity. }
  rewrite seq_nth in Hn by exact Hl.
  assert (Hf : firstn (length pre) (seq a n) = pre).
  { rewrite H, firstn_app, Nat.sub_diag, firstn_all; simpl; apply app_nil_r. }
  rewrite <- Hf, firstn_seq_min; f_equal; lia.
Qed.

(** X15.  [_get_numb_params]: with expanded parameters the count is read
    off the signature; with packed parameters it is the least length, from
    one to a thousand, of a vector of ones the fit function accepts, and the
    fatal call is issued when there is none. *)
Theorem get_numb_params_least (F : Fitter) :
  (_expand F = true ->
     _get_numb_params F = Ok (_func_signature F - 1 - _args_len F)%Z) /\
  (_expand F = false -> forall n, _get_numb_params F = Ok n ->
     exists i, n = Z.of_nat i /\ (1 <= i <= 1000)%nat /\
       (exists v, _func F (repeat 1 i) = Ok v) /\
       forall j, (1 <= j < i)%nat -> forall v, _func F (repeat 1 j) <> Ok v) /\
  (_expand F = false ->
     (forall i, (1 <= i <= 1000)%nat -> forall v, _func F (repeat 1 i) <> Ok v) ->
     _get_numb_params F
     = Fatal "Fit function does not work with up to 1000 parameters. Enable DEBUG level for more details.").
Proof.
  unfold _get_numb_params, ntries.
  set (accepts := fun i : nat => match _func F (repeat 1 i) with Ok _ => true | _ => false end).
  split; [intros ->; reflexivity | split].
  - intros -> n H.
    destruct (find accepts (seq 1 1000)) as [i|] eqn:Hfind; [| discriminate H].
    injection H as <-.
    destruct (find_first _ _ _ Hfind) as [pre [post [Hsplit [Hacc Hpre]]]].
    apply seq_split_at in Hsplit; destruct Hsplit as [Hpre_eq Hi].
    exists i; repeat split; try lia.
    + unfold accepts in Hacc.
      destruct (_func F (repeat 1 i)) as [v|e|m]; try discriminate Hacc.
      exists v; reflexivity.
    + intros j Hj v Hv.
      assert (Hin : In j pre) by (rewrite Hpre_eq; apply in_seq; lia).
      specialize (Hpre j Hin); unfold accepts in Hpre.
      rewrite Hv in Hpre; discriminate Hpre.
  - intros -> Hnone.
    destruct (find accepts (seq 1 1000)) as [i|] eqn:Hfind; [| reflexivity].
    exfalso.
    apply find_some in Hfind; destruct Hfind as [Hin Hacc].
    apply in_seq in Hin; unfold accepts in Hacc.
    destruct (_func F (repeat 1 i)) as [v|e|m] eqn:Hf; try discriminate Hacc.
    exact (Hnone i ltac:(lia) v Hf).
Qed.

Lemma get_numb_params_least_witness :
  exists i, _get_numb_params FitterExamples.affine_packed = Ok (Z.of_nat i) /\
            (exists v, Examples.affine (repeat 1 i) = Ok v) /\
            forall v, Examples.affine (repeat 1 1) <> Ok v.
Proof.
  assert (Hn : _get_numb_params FitterExamples.affine_packed = Ok 2%Z)
    by (vm_compute; reflexivity).
  destruct (get_numb_params_least FitterExamples.affine_packed) as [_ [H _]].
  destruct (H eq_refl 2%Z Hn) as [i [Hi [Hr [Hacc Hleast]]]].
  assert (i = 2%nat) by lia; subst i.
  exists 2%nat; split; [exact Hn | split; [exact Hacc |]].
  apply (Hleast 1%nat); lia.
Defined.

(** ** The derivative wrappers *)

(** X16.  After [set_func], a derivative wrapper that is [None] goes with
    [derive_chisq] set, and a numerical one with [derive_chisq] unset and
    [use_diff] set; so never is one of gradient and Hessian numerical and the
    other [None].  A derivative of the user is always wrapped. *)
Theorem set_func_wrappers (F F' : Fitter) (g : option gradfunc) (h : option hessfunc) :
  set_func F g h = Ok F' ->
  (grad F' = deriv_None \/ hess F' = deriv_None -> _derive_chisq F' = true) /\
  (grad F' = deriv_num \/ hess F' = deriv_num ->
     _derive_chisq F' = false /\ _use_diff F = true) /\
  (forall u, g = Some u -> grad F' = deriv_wrap u) /\
  (forall u, h = Some u -> hess F' = deriv_wrap u) /\
  (g = None -> grad F' = deriv_None \/ grad F' = deriv_num) /\
  (h = None -> hess F' = deriv_None \/ hess F' = deriv_num).
Proof.
  unfold set_func; intros H.
  destruct h as [uh|], g as [ug|];
    destruct (_use_diff F) eqn:Hu, (_derive_chisq F) eqn:Hd; cbn in H;
    unfold check_start_params in H; cbn in H;
    match type of H with
    | context [match ?c with Ok _ => _ | Raise _ => _ | Fatal _ => _ end] =>
        destruct c; try discriminate H
    end;
    try (repeat (apply bind_Ok_inv in H; destruct H as [? [_ H]]); discriminate H);
    injection H as <-; cbn;
    (split; [intros [Hc|Hc]; try discriminate Hc; reflexivity |]);
    (split; [intros [Hc|Hc]; try discriminate Hc; split; reflexivity |]);
    (split; [intros u Hc; try discriminate Hc; injection Hc as <-; reflexivity |]);
    (split; [intros u Hc; try discriminate Hc; injection Hc as <-; reflexivity |]);
    (split; [intros Hc; try discriminate Hc; ((left; reflexivity) || (right; reflexivity)) |]);
    intros Hc; try discriminate Hc; ((left; reflexivity) || (right; reflexivity)).
Qed.

Lemma set_func_wrappers_witness :
  exists F', set_func Examples.line_fitter None None = Ok F' /\
             grad F' = deriv_num /\ _derive_chisq F' = false.
Proof.
  destruct (set_func Examples.line_fitter None None) as [F'|e|m] eqn:H;
    [| exfalso; revert H; vm_compute; discriminate ..].
  exists F'; split; [reflexivity |].
  destruct (set_func_wrappers Examples.line_fitter F' None None H)
    as [_ [Hnum [_ [_ [Hg _]]]]].
  destruct (Hg eq_refl) as [Hn|Hn].
  - exfalso; revert H Hn; vm_compute; intros H; injection H as <-; discriminate.
  - split; [exact Hn | apply Hnum; left; exact Hn].
Defined.

(** ** The minimisation *)

Lemma finite_params_Ok (algorithm : string) (out : list (option Q)) (params : list Q) :
  finite_params algorithm out = Ok params -> out = map Some params.
Proof.
  revert params; induction out as [|[q|] out IH]; intros params H; cbn [finite_params] in H.
  - injection H as <-; reflexivity.
  - apply bind_Ok_inv in H; destruct H as [qs [Hq H]].
    injection H as <-; cbn [map]; rewrite (IH qs Hq); reflexivity.
  - discriminate H.
Qed.

Lemma finite_params_None (algorithm : string) (out : list (option Q)) :
  In None out ->
  finite_params algorithm out = Raise (ValueError (algorithm ++ ": Fit result is inf or nan!")).
Proof.
  induction out as [|[q|] out IH]; intros Hin; cbn [finite_params].
  - destruct Hin.
  - destruct Hin as [Hq|Hin]; [discriminate Hq |].
    rewrite (IH Hin); reflexivity.
  - reflexivity.
Qed.

(** X17.  [minimize_chi2]: the algorithm curve_fit with priors is a fatal
    call before the solver runs; what is returned is the solver's output,
    all of it finite, with the chi-square at that output; and a solver
    output with an entry that is [nan] or infinite is a [ValueError] that
    names the algorithm. *)
Theorem minimize_chi2_outcome (E : Env) (F : Fitter) (start : list Q) (algorithm : string) :
  (algorithm = "curve_fit"%string -> _checkprior F = true ->
     minimize_chi2 E F start algorithm
     = Fatal "The curve_fit algorithm is not yet able to handle priors.") /\
  (forall params chi2, minimize_chi2 E F start algorithm = Ok (params, chi2) ->
     solver E F algorithm start = Ok (map Some params) /\
     calc_chisquare E F params = Ok chi2 /\
     (algorithm = "curve_fit"%string -> _checkprior F = false)) /\
  (forall out, algorithm <> "curve_fit"%string \/ _checkprior F = false ->
     solver E F algorithm start = Ok out -> In None out ->
     minimize_chi2 E F start algorithm
     = Raise (ValueError (algorithm ++ ": Fit result is inf or nan!"))).
Proof.
  unfold minimize_chi2; conjs.
  - intros -> ->; reflexivity.
  - intros params chi2 H.
    apply bind_Ok_inv in H; destruct H as [[] [Hguard H]].
    apply bind_Ok_inv in H; destruct H as [out [Hs H]].
    apply bind_Ok_inv in H; destruct H as [ps [Hf H]].
    apply bind_Ok_inv in H; destruct H as [c [Hc H]].
    injection H as <- <-.
    apply finite_params_Ok in Hf; subst out.
    conjs; [exact Hs | exact Hc |].
    intros ->; cbn in Hguard.
    destruct (_checkprior F); [discriminate Hguard | reflexivity].
  - intros out Hcase Hs Hin.
    assert (Hguard : (if String.eqb algorithm "curve_fit"
                      then TBError_if (_checkprior F)
                             "The curve_fit algorithm is not yet able to handle priors."
                      else Ok tt) = Ok tt).
    { destruct (String.eqb_spec algorithm "curve_fit") as [Heq|Hne]; [| reflexivity].
      destruct Hcase as [Hc|Hc]; [contradiction | rewrite Hc; reflexivity]. }
    rewrite Hguard; cbn [bind]; rewrite Hs; cbn [bind].
    rewrite (finite_params_None _ _ Hin); reflexivity.
Qed.

Lemma minimize_chi2_outcome_witness :
  minimize_chi2 Examples.toy_env Examples.line_fitter_ready [1] "COBYLA"
  = Raise (ValueError "COBYLA: Fit result is inf or nan!").
Proof.
  destruct (minimize_chi2_outcome Examples.toy_env Examples.line_fitter_ready [1] "COBYLA")
    as [_ [_ H]].
  apply (H [None]); [left; discriminate | reflexivity | left; reflexivity].
Defined.

(** ** Error estimation *)



(** ** try_fit: what the set-up leaves in the Fitter *)

Lemma np_full_len {A : Type} (v : Q) (l : list A) :
  np_full v (len l) = Ok (repeat v (length l)).
Proof.
  unfold np_full; pose proof (len_nonneg l) as Hl.
  destruct (len l <? 0)%Z eqn:Hn; [apply Z.ltb_lt in Hn; lia |].
  unfold len; rewrite Nat2Z.id; reflexivity.
Qed.

Lemma check_start_params_Ok (F F' : Fitter) :
  check_start_params F = Ok F' -> F' = F /\ exists y, _func F (_saved_params F) = Ok y.
Proof.
  intros H.
  destruct (check_start_params_outcome F) as [[y [Hy Hc]]|[_ Hn]].
  - rewrite Hc in H; injection H as <-; split; [reflexivity | exists y; exact Hy].
  - exfalso; exact (Hn F' H).
Qed.

Lemma try_fit_setup_Ok (F F1 : Fitter) (start pv ps : option (list Q)) :
  try_fit_setup F start pv ps = Ok F1 ->
  (exists y, _func F (effective_start F start pv) = Ok y) /\
  _saved_params F1 = effective_start F start pv /\
  _numb_params F1 = len (effective_start F start pv) /\
  (_func F1 = _func F /\ _ydata F1 = _ydata F /\ _cov F1 = _cov F /\
   _fit_inv_cor F1 = _fit_inv_cor F /\ grad F1 = grad F /\ hess F1 = hess F /\
   _saved_pcov F1 = _saved_pcov F) /\
  match ps with
  | Some s => _checkprior F1 = true /\ _priorsigma F1 = s /\ pv = Some (_priorval F1) /\
              len s = _numb_params F1 /\ len (_priorval F1) = _numb_params F1
  | None => _checkprior F1 = false /\ pv = None /\
            _priorval F1 = repeat 0 (length (_saved_params F1)) /\
            _priorsigma F1 = repeat 1 (length (_saved_params F1))
  end.
Proof.
  unfold try_fit_setup; intros H.
  apply bind_Ok_inv in H; destruct H as [Fa [Hc H]].
  apply check_start_params_Ok in Hc; destruct Hc as [-> [y Hy]].
  destruct start as [sp|], pv as [v|], ps as [s|]; cbn [bind] in H;
    try discriminate H;
    cbn [effective_start _func _saved_params set_saved_params set_saved] in *;
    try (unfold np_zeros, np_ones in H;
         cbn [_numb_params set_numb_params] in H;
         rewrite !np_full_len in H; cbn [bind] in H);
    cbn [_checkprior set_prior _priorsigma _priorval _numb_params set_numb_params] in H;
    unfold TBError_if in H;
    repeat match type of H with
           | context [negb ?c] => destruct c eqn:?; cbn [negb bind] in H; try discriminate H
           end;
    injection H as <-;
    cbn [_func _saved_params _numb_params _ydata _cov _fit_inv_cor grad hess _saved_pcov
         _checkprior _priorval _priorsigma set_prior set_numb_params set_saved];
    conjs; try reflexivity; try (exists y; exact Hy);
    try (apply Z.eqb_eq; assumption).
Qed.

Lemma try_fit_return_Ok (E : Env) (F1 F' : Fitter) (best : row) (d : bool)
  (r : fit_result) :
  try_fit_return E F1 best d = Ok (F', r) ->
  exists params errors chi2 pcov dof,
    row_params best = Some params /\ row_fit_errors best = Some errors /\
    row_chi2 best = Num chi2 /\ row_pcov best = Some pcov /\
    getDOF F1 params = Ok dof /\
    F' = set_saved F1 params pcov /\
    res_params r = params /\ res_errors r = errors /\
    res_chidof r = (if (dof <=? 0)%Z then PosInf else Num (chi2 / of_int dof)) /\
    res_pcov r = (if d then Some pcov else None) /\
    (res_logGBF r = None <-> d = false).
Proof.
  unfold try_fit_return; intros H.
  destruct (row_params best) as [params|]; [| discriminate H].
  destruct (row_fit_errors best) as [errors|]; [| discriminate H].
  destruct (row_chi2 best) as [chi2| |]; try discriminate H.
  destruct (row_pcov best) as [pcov|]; [| discriminate H].
  apply bind_Ok_inv in H; destruct H as [dof [Hd H]].
  cbn [_saved_params set_saved] in Hd, H.
  exists params, errors, chi2, pcov, dof.
  change (getDOF (set_saved F1 params pcov) params) with (getDOF F1 params) in Hd.
  destruct d.
  - apply bind_Ok_inv in H; destruct H as [g [_ H]].
    injection H as <- <-; cbn; conjs; try reflexivity; try exact Hd;
      split; intros Hc; discriminate Hc.
  - injection H as <- <-; cbn; conjs; try reflexivity; try exact Hd;
      split; intros _; reflexivity.
Qed.

Lemma try_fit_search_Ok (E : Env) (F1 F' : Fitter) (algorithms : list string) (d : bool)
  (ev : list event) (r : fit_result) :
  try_fit_search E F1 algorithms d = (ev, Ok (F', r)) ->
  exists best, try_fit_return E F1 best d = Ok (F', r).
Proof.
  unfold try_fit_search; intros H.
  destruct (parallel_function_eval (_tryAlgorithm E F1) algorithms) as [ev' [rows|e|m]];
    try discriminate H.
  destruct (forallb is_inf (map row_chi2 rows)); [discriminate H |].
  destruct (nth_error rows (argmin (map row_chi2 rows))) as [best|]; [| discriminate H].
  exists best; injection H as _ H; exact H.
Qed.

(** X19.  What a successful [try_fit] leaves in the Fitter: the returned
    parameters are saved as the next start parameters and the returned
    covariance of the parameters with them; the number of parameters is the
    length of the start parameters that were used (those passed, else the
    prior values, else the ones saved before), not of the result; the fit
    function, the data, their covariance and the derivative wrappers are
    untouched; priors are active exactly when prior sigmas were passed, and
    then there is one prior value and one prior sigma per start
    parameter. *)
Theorem try_fit_saves_result (E : Env) (F F' : Fitter) (algorithms : algorithms_arg)
  (start pv ps : option (list Q)) (d : bool) (ev : list event) (r : fit_result) :
  try_fit E F algorithms start pv ps d = (ev, Ok (F', r)) ->
  _saved_params F' = res_params r /\
  (forall pcov, res_pcov r = Some pcov -> _saved_pcov F' = pcov) /\
  _numb_params F' = len (effective_start F start pv) /\
  (_func F' = _func F /\ _ydata F' = _ydata F /\ _cov F' = _cov F /\
   _fit_inv_cor F' = _fit_inv_cor F /\ grad F' = grad F /\ hess F' = hess F) /\
  (_checkprior F' = true <-> ps <> None) /\
  (_checkprior F' = true ->
     len (_priorval F') = _numb_params F' /\ len (_priorsigma F') = _numb_params F') /\
  (res_pcov r = None <-> d = false) /\ (res_logGBF r = None <-> d = false).
Proof.
  unfold try_fit; intros H.
  destruct (try_fit_setup F start pv ps) as [F1|e|m] eqn:Hs; try discriminate H.
  apply try_fit_setup_Ok in Hs.
  destruct Hs as [_ [Hsp [Hn [[Hf [Hy [Hcov [Hinv [Hg [Hh _]]]]]] Hprior]]]].
  apply try_fit_search_Ok in H; destruct H as [best H].
  apply try_fit_return_Ok in H.
  destruct H as [params [errors [chi2 [pcov [dof
    [_ [_ [_ [_ [_ [-> [Hrp [_ [_ [Hpc Hlog]]]]]]]]]]]]]]].
  cbn [_saved_params _saved_pcov _numb_params _func _ydata _cov _fit_inv_cor grad hess
       _checkprior _priorval _priorsigma set_saved].
  conjs; try assumption; try (symmetry; assumption).
  - intros pc Hr; rewrite Hpc in Hr.
    destruct d; [injection Hr as <-; reflexivity | discriminate Hr].
  - destruct ps as [s|].
    + destruct Hprior as [Hc _]; split; [intros _ Hn'; discriminate Hn' | intros _; exact Hc].
    + destruct Hprior as [Hc _]; rewrite Hc; split;
        [intros Hn'; discriminate Hn' | intros Hn'; exfalso; apply Hn'; reflexivity].
  - destruct ps as [s|].
    + intros _; destruct Hprior as [_ [Hsig [_ [Hl1 Hl2]]]].
      split; [exact Hl2 | rewrite Hsig; exact Hl1].
    + destruct Hprior as [Hc _]; rewrite Hc; intros Hn'; discriminate Hn'.
  - rewrite Hpc; destruct d; split; intros Hc; try discriminate Hc; reflexivity.
Qed.

Lemma try_fit_saves_result_witness :
  exists ev F' r,
    try_fit Examples.toy_env Examples.line_fitter (algs_list ["TNC"; "curve_fit"]%string)
      None None None false = (ev, Ok (F', r)) /\
    _saved_params F' = res_params r /\ _numb_params F' = 1%Z.
Proof.
  destruct (try_fit Examples.toy_env Examples.line_fitter
              (algs_list ["TNC"; "curve_fit"]%string) None None None false)
    as [ev [[F' r]|e|m]] eqn:H;
    [| exfalso; revert H; vm_compute; discriminate ..].
  exists ev, F', r; split; [reflexivity |].
  destruct (try_fit_saves_result _ _ _ _ _ _ _ _ _ _ H) as [Hs [_ [Hn _]]].
  split; [exact Hs | exact Hn].
Defined.

(** ** try_fit: the consistency checks on the priors *)

(** X20.  With prior values and prior sigmas both passed and start
    parameters the fit function accepts, [try_fit] ends in a fatal call,
    before any attempt, when the number of prior sigmas, or else the number
    of prior values, is not the number of start parameters; without start
    parameters the prior values serve as such, and priors of equal lengths
    pass the checks. *)
Theorem try_fit_prior_length_mismatch (E : Env) (F : Fitter) (algorithms : algorithms_arg)
  (start : option (list Q)) (pv ps y : list Q) (d : bool) :
  _func F (effective_start F start (Some pv)) = Ok y ->
  (len ps <> len (effective_start F start (Some pv)) ->
     try_fit E F algorithms start (Some pv) (Some ps) d
     = ([], Fatal "Number priorsigma != number of fit parameters")) /\
  (len ps = len (effective_start F start (Some pv)) ->
   len pv <> len (effective_start F start (Some pv)) ->
     try_fit E F algorithms start (Some pv) (Some ps) d
     = ([], Fatal "Number priorval != number of fit parameters")) /\
  (start = None -> len ps = len pv ->
     exists F1, try_fit_setup F None (Some pv) (Some ps) = Ok F1).
Proof.
  intros Hy.
  assert (Hc : check_start_params
                 (set_saved_params F (effective_start F start (Some pv)))
               = Ok (set_saved_params F (effective_start F start (Some pv)))).
  { unfold check_start_params; cbn [_func _saved_params set_saved_params set_saved].
    rewrite Hy; reflexivity. }
  conjs.
  - intros Hne; unfold try_fit, try_fit_setup.
    destruct start as [sp|]; cbn [effective_start] in *; rewrite Hc; cbn [bind];
      cbn [_checkprior _priorsigma _priorval _numb_params set_prior set_numb_params
           _saved_params set_saved_params set_saved];
      apply Z.eqb_neq in Hne; rewrite Hne; reflexivity.
  - intros Heq Hne; unfold try_fit, try_fit_setup.
    destruct start as [sp|]; cbn [effective_start] in *;
      [| exfalso; apply Hne; reflexivity].
    rewrite Hc; cbn [bind];
      cbn [_checkprior _priorsigma _priorval _numb_params set_prior set_numb_params
           _saved_params set_saved_params set_saved].
    apply Z.eqb_neq in Hne; rewrite Heq, Z.eqb_refl, Hne; reflexivity.
  - intros -> Heq; unfold try_fit_setup; cbn [effective_start] in *; rewrite Hc; cbn [bind];
      cbn [_checkprior _priorsigma _priorval _numb_params set_prior set_numb_params
           _saved_params set_saved_params set_saved].
    rewrite Heq, Z.eqb_refl; cbn [negb TBError_if bind]; eexists; reflexivity.
Qed.

Lemma try_fit_prior_length_mismatch_witness :
  try_fit Examples.toy_env Examples.line_fitter algs_None (Some [3]) (Some [0; 0])
    (Some [1]) false
  = ([], Fatal "Number priorval != number of fit parameters").
Proof.
  destruct (try_fit_prior_length_mismatch Examples.toy_env Examples.line_fitter algs_None
              (Some [3]) [0; 0] [1] [3; 6; 9] false eq_refl) as [_ [H _]].
  apply H; [reflexivity | discriminate].
Defined.

(** ** try_fit and do_fit: no algorithm, one algorithm *)

(** X21.  With an empty list of algorithms [try_fit], once its set-up has
    passed, ends in the fatal call that no algorithm converged: the test for
    total failure holds of no attempts at all, so the least chi-square is
    never sought in an empty list. *)
Theorem try_fit_no_algorithms (E : Env) (F F1 : Fitter) (start pv ps : option (list Q))
  (d : bool) :
  try_fit_setup F start pv ps = Ok F1 ->
  try_fit E F (algs_list []) start pv ps d
  = ([], Fatal "No algorithm converged.See above list of exceptions.").
Proof.
  intros H; unfold try_fit; rewrite H; reflexivity.
Qed.

Lemma try_fit_no_algorithms_witness :
  try_fit Examples.toy_env Examples.line_fitter (algs_list []) None None None false
  = ([], Fatal "No algorithm converged.See above list of exceptions.").
Proof.
  destruct (try_fit_setup Examples.line_fitter None None None) as [F1|e|m] eqn:H;
    [| exfalso; revert H; vm_compute; discriminate ..].
  exact (try_fit_no_algorithms Examples.toy_env Examples.line_fitter F1 None None None
           false H).
Defined.

(** X22.  [do_fit] makes the one attempt.  If it raises, the exception is
    reported and the fatal call follows; a fatal call inside the attempt
    ends [do_fit] there; if it returns, its parameters and errors are handed
    back with the chi-square divided by the degrees of freedom, which are
    not negative, and with [inf] in its place when they are zero. *)
Theorem do_fit_single_attempt (E : Env) (F F1 : Fitter) (algorithm : string)
  (start pv ps : option (list Q)) :
  try_fit_setup F start pv ps = Ok F1 ->
  (forall e d, _general_fit E F1 algorithm = Raise e ->
     do_fit E F algorithm start pv ps d
     = ([Trying algorithm; TBFail (algorithm ++ "--") (Some e)],
        Fatal "No algorithm converged.See above list of exceptions.")) /\
  (forall m d, _general_fit E F1 algorithm = Fatal m ->
     do_fit E F algorithm start pv ps d = ([Trying algorithm], Fatal m)) /\
  (forall f, _general_fit E F1 algorithm = Ok f ->
     exists dof, getDOF F1 (fit_params f) = Ok dof /\ (0 <= dof)%Z /\
       do_fit E F algorithm start pv ps false
       = ([Trying algorithm],
          Ok (set_saved F1 (fit_params f) (fit_pcov f),
              mk_fit_result (fit_params f) (fit_errors f)
                (if (dof <=? 0)%Z then PosInf else Num (fit_chi2 f / of_int dof))
                None None))).
Proof.
  intros Hs; unfold do_fit, try_fit; rewrite Hs; cbn [algorithms_of].
  unfold try_fit_search; cbn [parallel_function_eval]; unfold _tryAlgorithm.
  conjs.
  - intros e d Hg; rewrite Hg; reflexivity.
  - intros m d Hg; rewrite Hg; reflexivity.
  - intros f Hg; rewrite Hg.
    destruct (general_fit_dof _ _ _ _ Hg) as [dof Hd].
    exists dof; split; [exact Hd | split].
    + unfold getDOF, TBError_if in Hd.
      destruct (_ <? 0)%Z eqn:Hneg in Hd; cbn [bind] in Hd; [discriminate Hd |].
      injection Hd as <-; apply Z.ltb_ge in Hneg; exact Hneg.
    + cbn [bind map forallb is_inf row_chi2 andb argmin argmin_from nth_error app].
      unfold try_fit_return;
        cbn [row_params row_fit_errors row_chi2 row_pcov _saved_params set_saved].
      change (getDOF (set_saved F1 (fit_params f) (fit_pcov f)) (fit_params f))
        with (getDOF F1 (fit_params f)).
      rewrite Hd; reflexivity.
Qed.

Lemma do_fit_single_attempt_witness :
  do_fit Examples.toy_env Examples.line_fitter "COBYLA" None None None false
  = ([Trying "COBYLA";
      TBFail "COBYLA--" (Some (ValueError "COBYLA: Fit result is inf or nan!"))],
     Fatal "No algorithm converged.See above list of exceptions.").
Proof.
  destruct (try_fit_setup Examples.line_fitter None None None) as [F1|e|m] eqn:H;
    [| exfalso; revert H; vm_compute; discriminate ..].
  destruct (do_fit_single_attempt Examples.toy_env Examples.line_fitter F1 "COBYLA"
              None None None H) as [Hr _].
  apply Hr.
  revert H; vm_compute; intros H; injection H as <-; reflexivity.
Defined.

(** ** The gradient of the chi-square at an exact fit *)

Lemma np_sum_all_zero (l : list Q) : Forall (fun x => x == 0) l -> np_sum l == 0.
Proof.
  induction 1 as [|x l Hx _ IH]; [reflexivity |].
  rewrite np_sum_cons, Hx, IH; reflexivity.
Qed.

Lemma zip_with_minus_self (y : list Q) : Forall (fun x => x == 0) (zip_with Qminus y y).
Proof.
  induction y as [|a y IH]; cbn [zip_with]; constructor; [ring | exact IH].
Qed.

Lemma zip_with_div_zero (a s : list Q) :
  Forall (fun x => x == 0) a -> Forall (fun x => x == 0) (zip_with Qdiv a s).
Proof.
  intros Ha; revert s; induction Ha as [|x a Hx _ IH]; intros [|t s]; cbn [zip_with];
    constructor; [| apply IH].
  unfold Qdiv; rewrite Hx; ring.
Qed.

Lemma zip_with_mult_zero (r v : list Q) :
  Forall (fun x => x == 0) v -> Forall (fun x => x == 0) (zip_with Qmult r v).
Proof.
  intros Hv; revert r; induction Hv as [|x v Hx _ IH]; intros [|t r]; cbn [zip_with];
    constructor; [| apply IH].
  rewrite Hx; ring.
Qed.

Lemma inplace2_div_zero (a s a' : list Q) :
  Forall (fun x => x == 0) a -> inplace2 Qdiv a s = Ok a' -> Forall (fun x => x == 0) a'.
Proof.
  intros Ha; unfold inplace2.
  destruct (length a =? length s)%nat.
  - intros H; injection H as <-; apply zip_with_div_zero; exact Ha.
  - destruct (length s =? 1)%nat; [| discriminate].
    intros H; injection H as <-.
    apply Forall_map; eapply Forall_impl; [| exact Ha].
    intros x Hx; cbn beta; unfold Qdiv; rewrite Hx; ring.
Qed.

Lemma mat_vec_zero (m : matrix) (v w : list Q) :
  Forall (fun x => x == 0) v -> mat_vec m v = Ok w -> Forall (fun x => x == 0) w.
Proof.
  intros Hv; revert w; induction m as [|r m IH]; intros w H; cbn [mat_vec] in H.
  - injection H as <-; constructor.
  - apply bind_Ok_inv in H; destruct H as [x [Hx H]].
    apply bind_Ok_inv in H; destruct H as [xs [Hxs H]].
    injection H as <-; constructor; [| apply IH; exact Hxs].
    unfold dot in Hx; destruct (length r =? length v)%nat; [| discriminate Hx].
    injection Hx as <-; apply np_sum_all_zero, zip_with_mult_zero; exact Hv.
Qed.

(** X23.  Without priors, and with no vanishing error among the data, the
    gradient of the chi-square that [grad_chisquare] returns is zero in
    every component at parameters for which the fit function reproduces the
    data. *)
Theorem grad_chisquare_zero_at_exact_fit (E : Env) (F : Fitter) (params g : list Q) :
  _checkprior F = false ->
  Forall (fun v => ~ sqrt E v == 0) (diagonal (_cov F)) ->
  _func F params = Ok (_ydata F) ->
  grad_chisquare E F params = Ok g ->
  Forall (fun x => x == 0) g.
Proof.
  intros Hp _ Hf; unfold grad_chisquare, fit_ansatz_array; intros H.
  apply bind_Ok_inv in H; destruct H as [j [_ H]].
  rewrite Hf in H; cbn [bind] in H.
  unfold broadcast2 in H; rewrite Nat.eqb_refl in H; cbn [bind] in H.
  apply bind_Ok_inv in H; destruct H as [jac [_ H]].
  apply bind_Ok_inv in H; destruct H as [d' [Hd H]].
  apply bind_Ok_inv in H; destruct H as [w [Hw H]].
  apply bind_Ok_inv in H; destruct H as [v [Hv H]].
  rewrite Hp in H; injection H as <-.
  apply inplace2_div_zero in Hd; [| apply zip_with_minus_self].
  apply (mat_vec_zero _ _ _ Hd) in Hw.
  apply (mat_vec_zero _ _ _ Hw) in Hv.
  apply Forall_map; eapply Forall_impl; [| exact Hv].
  intros x Hx; cbn beta; rewrite Hx; ring.
Qed.

Lemma grad_chisquare_zero_at_exact_fit_witness :
  exists g, grad_chisquare Examples.toy_env Examples.affine_fitter [1; 0] = Ok g /\
            Forall (fun x => x == 0) g.
Proof.
  destruct (grad_chisquare Examples.toy_env Examples.affine_fitter [1; 0]) as [g|e|m] eqn:H;
    [| exfalso; revert H; vm_compute; discriminate ..].
  exists g; split; [reflexivity |].
  apply (grad_chisquare_zero_at_exact_fit Examples.toy_env Examples.affine_fitter [1; 0] g);
    [reflexivity | | vm_compute; reflexivity | exact H].
  repeat constructor; intros Hc; vm_compute in Hc; discriminate Hc.
Defined.

(** X24.  With a single parameter the prior term [grad_chisquare] adds is
    the derivative of the prior term of the chi-square: every component (the
    only one, for a gradient of the right shape) is the gradient without
    priors plus [2 (p - m) / s^2]. *)
Theorem grad_chisquare_single_parameter (E : Env) (F : Fitter) (p m s : Q) (g : list Q) :
  grad_chisquare E (set_prior F [m] [s] false) [p] = Ok g ->
  exists g', grad_chisquare E (set_prior F [m] [s] true) [p] = Ok g' /\
             Forall2 (fun r' r => r' == r + 2 * (p - m) / s ^ 2) g' g.
Proof.
  intros H.
  rewrite (grad_chisquare_prior_sum E F [m] [s] [p] g eq_refl eq_refl H).
  eexists; split; [reflexivity |].
  clear H; induction g as [|r g IH]; cbn [map]; constructor; [| exact IH].
  cbn [length seq map]; unfold prior_gradient; cbn [nth].
  unfold np_sum; cbn [fold_left]; ring.
Qed.

Lemma grad_chisquare_single_parameter_witness :
  exists g', grad_chisquare Examples.toy_env
               (set_prior FitterExamples.line_fitter_grad [0] [1] true) [3] = Ok g' /\
             Forall2 (fun r' r => r' == r + 2 * (3 - 0) / 1 ^ 2) g' [28].
Proof.
  apply (grad_chisquare_single_parameter Examples.toy_env FitterExamples.line_fitter_grad
           3 0 1 [28]).
  vm_compute; reflexivity.
Defined.

(** ** The Fitter as the constructor leaves it *)

Lemma set_func_Ok (F F' : Fitter) (g : option gradfunc) (h : option hessfunc) :
  set_func F g h = Ok F' ->
  (exists g' h' dc, F' = set_derivs F g' h' dc) /\
  exists y, _func F (_saved_params F) = Ok y.
Proof.
  unfold set_func; intros H.
  destruct h as [uh|], g as [ug|];
    destruct (_use_diff F), (_derive_chisq F); cbn [andb negb] in H;
    apply check_start_params_Ok in H; destruct H as [-> [y Hy]];
    (split; [eexists _, _, _; reflexivity | exists y; exact Hy]).
Qed.

Lemma np_full_Ok (v : Q) (n : Z) (l : list Q) :
  np_full v n = Ok l -> (0 <= n)%Z /\ l = repeat v (Z.to_nat n).
Proof.
  unfold np_full; destruct (n <? 0)%Z eqn:Hn; [discriminate |].
  intros H; injection H as <-; apply Z.ltb_ge in Hn; split; [exact Hn | reflexivity].
Qed.

(** X25.  A Fitter the constructor returns has a number of parameters that
    is not negative (in expand mode the one read off the signature); its
    start parameters, prior values and prior sigmas are that many ones and
    the fit function has accepted these start parameters; no prior is
    active; the saved covariance of the parameters is filled with [inf]; and
    the correlation matrix is the normalised covariance of the data. *)
Theorem init_state (E : Env) (func : fitfunc) (sig : Z) (ydata : list Q)
  (edata : option edata_t) (kw : kwargs) (F : Fitter) :
  __init__ E func sig ydata edata kw = Ok F ->
  (0 <= _numb_params F)%Z /\
  (kw_expand kw = true -> _numb_params F = (sig - 1 - kw_args_len kw)%Z) /\
  _saved_params F = repeat 1 (Z.to_nat (_numb_params F)) /\
  _priorval F = repeat 1 (Z.to_nat (_numb_params F)) /\
  _priorsigma F = repeat 1 (Z.to_nat (_numb_params F)) /\
  _checkprior F = false /\
  _saved_pcov F = Full PosInf (_numb_params F) /\
  _func F = func /\
  (exists y, func (repeat 1 (Z.to_nat (_numb_params F))) = Ok y) /\
  _cor F = norm_cov E (_cov F).
Proof.
  unfold __init__; intros H.
  apply bind_Ok_inv in H; destruct H as [n [Hn H]].
  apply bind_Ok_inv in H; destruct H as [ones [Hones H]].
  apply bind_Ok_inv in H; destruct H as [F1 [HF1 H]].
  apply bind_Ok_inv in H; destruct H as [ones' [Hones' H]].
  apply np_full_Ok in Hones; destruct Hones as [Hpos ->].
  apply set_func_Ok in HF1; destruct HF1 as [[g' [h' [dc ->]]] [y Hy]].
  cbn [_numb_params _func _saved_params set_derivs set_saved set_numb_params] in Hones', Hy.
  apply np_full_Ok in Hones'; destruct Hones' as [_ ->].
  assert (Hexp : kw_expand kw = true -> n = (sig - 1 - kw_args_len kw)%Z).
  { intros He; unfold _get_numb_params in Hn; cbn [_expand] in Hn; rewrite He in Hn.
    cbn [_func_signature _args_len] in Hn; injection Hn as <-; reflexivity. }
  destruct edata as [[e|c]|];
    match type of H with
    | context [inv_cut_eig ?E ?m ?t] => destruct (inv_cut_eig E m t) as [fc ic]
    end;
    apply bind_Ok_inv in H; destruct H as [inv_cor [_ H]];
    injection H as <-;
    cbn [_numb_params _func _saved_params _priorval _priorsigma _checkprior _saved_pcov
         _cor _cov set_cov set_prior set_derivs set_saved set_numb_params];
    conjs; try reflexivity; try assumption; exists y; exact Hy.
Qed.

Lemma init_state_witness :
  exists F, __init__ Examples.toy_env Examples.line 2 [2; 4; 6] None default_kwargs = Ok F /\
            _numb_params F = 1%Z /\ _saved_params F = [1] /\ _checkprior F = false.
Proof.
  destruct (__init__ Examples.toy_env Examples.line 2 [2; 4; 6] None default_kwargs)
    as [F|e|m] eqn:H; [| exfalso; revert H; vm_compute; discriminate ..].
  exists F; split; [reflexivity |].
  destruct (init_state _ _ _ _ _ _ _ H) as [_ [Hn [Hs [_ [_ [Hc _]]]]]].
  specialize (Hn eq_refl); cbn in Hn.
  rewrite Hn in Hs; split; [exact Hn | split; [exact Hs | exact Hc]].
Defined.
